(** * pdfjs-react: viewport, lifecycle and interaction core

    A shallow embedding of the TypeScript sources of the viewer:

    - [usePDFViewer]      (hooks/usePDFViewer.ts): the command surface,
    - [PDFViewer]         (PDFViewer.tsx): component state and its wiring,
    - [useZoomPrevention] (hooks/useZoomPrevention.ts): the interaction guard,
    - [PDFPages]          (PDFViewer.tsx): the visible range of the virtualizer,
    - [usePageTracking]   (hooks/usePageTracking.ts): current page from scroll,
    - [parseSource]       (utils/parseSource.ts): source classification,
    - [usePDFDocument]    (hooks/usePDFDocument.ts): the document lifecycle,
    - [initializeWorker]  (utils/worker.ts): the worker source,
    - [loadDocument]      (utils/loadDocument.ts): engine parameters, dates,
    - [PDFViewerProvider] (context/PDFViewerContext.tsx): the public context,
    - [PDFPage]           (PDFViewer.tsx): the render effect of a page,
    - [find] and the like (hooks/usePDFViewer.ts): search over text layers.

    Conventions of the embedding.

    - A JavaScript [number] that carries a length, a ratio or a scale is a
      rational ([Q]); [NaN] and the infinities are not represented, and the
      statements about scales are statements of exact arithmetic.  Page
      numbers, indices, rotations and the load version are integers ([Z]).
      Where [NaN] or rounding decides what the code does, the code is
      embedded a second time: the scale commands and the public provider
      over numbers that may be [NaN] ([Number], [ScaleCommands],
      [PDFViewerContext]), the page tracking over binary64 floats
      ([UsePageTrackingBinary64]).
    - React state is an explicit record; a state setter is a function on that
      record.  A hook closes over the values of the render it ran in, so the
      options of [usePDFViewer] are a record holding that snapshot:
      [UsePDFViewer.rotate (viewerOptions p e st) d st'] is [rotate(d)]
      called on the handle of the render of [st] when the state has become
      [st'], and [PDFViewer.run] is a call on the handle of the latest
      committed render.
      The effects of the component are functions of their own.
    - An optional callback prop is a flag that says whether it was supplied;
      its invocations are appended to a log kept in the state. *)

From Stdlib Require Import ZArith QArith Qminmax Qround Lqa Lia List String Ascii Bool.
From Stdlib Require Import PrimFloat.
Import ListNotations.

Local Open Scope Z_scope.

(** ** JavaScript helpers *)

Module JS.

(** [Math.min] and [Math.max] on two finite numbers. *)
Definition Math_min (a b : Q) : Q := Qmin a b.
Definition Math_max (a b : Q) : Q := Qmax a b.

(** [a < b] and [a <= b] on numbers. *)
Definition ltb (a b : Q) : bool :=
  match (a ?= b)%Q with Lt => true | _ => false end.
Definition leb (a b : Q) : bool := Qle_bool a b.

(** The [%] operator on integers: the remainder takes the sign of the
    dividend. *)
Definition rem (a b : Z) : Z := Z.rem a b.

(** [String.prototype.startsWith]. *)
Definition startsWith (str search : string) : bool := String.prefix search str.

End JS.

(** ** Types of PDFViewer.types.ts *)

Module Types.

(** [ScaleValue = number | 'page-width' | 'page-fit' | 'page-actual' | 'auto'] *)
Inductive ScaleName : Type := page_width | page_fit | page_actual | auto.

Inductive ScaleValue : Type :=
| ScaleNumber (x : Q)
| ScaleNamed (n : ScaleName).

(** [RotationValue = 0 | 90 | 180 | 270] is a compile-time type; at run time
    a rotation is a number. *)
Definition isRotationValue (r : Z) : Prop :=
  r = 0 \/ r = 90 \/ r = 180 \/ r = 270.

(** [PDFViewerState] *)
Inductive PDFViewerState : Type := idle | loading | ready | error.

End Types.
Import Types.

(** ** Component state of [PDFViewer] *)

Module ViewerState.

(** What the component asks of its surroundings: callback invocations and
    scroll requests, in the order they are issued. *)
Inductive Effect : Type :=
| OnPageChange (page : Z)
| OnScaleChange (scale : Q)
| ScrollIntoView (page : Z).

Record State : Type := mkState {
  currentPage : Z;
  currentScale : Q;
  currentRotation : Z;
  initialScaleCalculated : bool;
  effects : list Effect
}.

Definition set_currentPage (page : Z) (st : State) : State :=
  mkState page (currentScale st) (currentRotation st)
          (initialScaleCalculated st) (effects st).

Definition set_currentScale (scale : Q) (st : State) : State :=
  mkState (currentPage st) scale (currentRotation st)
          (initialScaleCalculated st) (effects st).

Definition set_currentRotation (rotation : Z) (st : State) : State :=
  mkState (currentPage st) (currentScale st) rotation
          (initialScaleCalculated st) (effects st).

Definition set_initialScaleCalculated (b : bool) (st : State) : State :=
  mkState (currentPage st) (currentScale st) (currentRotation st)
          b (effects st).

Definition emit (e : Effect) (st : State) : State :=
  mkState (currentPage st) (currentScale st) (currentRotation st)
          (initialScaleCalculated st) (effects st ++ [e]).

(** [cb?.(...)]: the call happens when the callback was supplied. *)
Definition emit_opt (supplied : bool) (e : Effect) (st : State) : State :=
  if supplied then emit e st else st.

End ViewerState.
Import ViewerState.

(** ** The DOM as the viewer measures it *)

Module Dom.

(** [page.getViewport({ scale: 1, rotation })] *)
Record Viewport : Type := mkViewport { width : Q; height : Q }.

(** The loaded document: its page count, and the viewport of page 1 at
    scale 1 under a given rotation. *)
Record Document : Type := mkDocument {
  numPages : Z;
  getPage1Viewport : Z -> Viewport
}.

(** [containerRef.current] *)
Record Container : Type := mkContainer {
  clientWidth : Q;
  clientHeight : Q;
  (** [container.querySelector('[data-page-number="n"]')] finds an element *)
  hasPageElement : Z -> bool
}.

End Dom.
Import Dom.

(** ** hooks/usePDFViewer.ts *)

Module UsePDFViewer.

Definition ZOOM_STEP : Q := 0.25.
Definition MIN_SCALE : Q := 0.1.
Definition MAX_SCALE : Q := 10.

(** [UsePDFViewerOptions]: the values of one render. *)
Record Options : Type := mkOptions {
  container : option Container;
  document : option Document;
  currentPage : Z;
  totalPages : Z;
  currentScale : Q;
  currentRotation : Z;
  zoomEnabled : bool;
  setCurrentPage : Z -> State -> State;
  setCurrentScale : Q -> State -> State;
  setCurrentRotation : Z -> State -> State
}.

Definition goToPage (o : Options) (page : Z) (st : State) : State :=
  match document o with
  | None => st
  | Some _ =>
    if totalPages o =? 0 then st
    else
      let validPage := Z.max 1 (Z.min page (totalPages o)) in
      let st1 := setCurrentPage o validPage st in
      match container o with
      | None => st1
      | Some c =>
        if hasPageElement c validPage
        then emit (ScrollIntoView validPage) st1
        else st1
      end
  end.

Definition nextPage (o : Options) (st : State) : State :=
  if currentPage o <? totalPages o
  then goToPage o (currentPage o + 1) st
  else st.

Definition previousPage (o : Options) (st : State) : State :=
  if 1 <? currentPage o
  then goToPage o (currentPage o - 1) st
  else st.

Definition zoomIn (o : Options) (st : State) : State :=
  if negb (zoomEnabled o) then st
  else
    let newScale := JS.Math_min (currentScale o + ZOOM_STEP) MAX_SCALE in
    setCurrentScale o newScale st.

Definition zoomOut (o : Options) (st : State) : State :=
  if negb (zoomEnabled o) then st
  else
    let newScale := JS.Math_max (currentScale o - ZOOM_STEP) MIN_SCALE in
    setCurrentScale o newScale st.

(** The scale a named value resolves to inside [setScale], before the
    clamp. *)
Definition namedScale (n : ScaleName) (containerWidth containerHeight : Q)
           (viewport : Viewport) : Q :=
  match n with
  | page_width => (containerWidth / width viewport)%Q
  | page_fit =>
    JS.Math_min (containerWidth / width viewport)
                (containerHeight / height viewport)
  | page_actual => 1%Q
  | auto => JS.Math_min (containerWidth / width viewport) 1.5
  end.

(** [setScale].  For a named value the new scale is set in the continuation
    of [document.getPage(1)]; the state returned is the one after that
    continuation has run. *)
Definition setScale (o : Options) (scale : ScaleValue) (st : State) : State :=
  if negb (zoomEnabled o) then st
  else
    match scale with
    | ScaleNumber x =>
      let validScale := JS.Math_max MIN_SCALE (JS.Math_min x MAX_SCALE) in
      setCurrentScale o validScale st
    | ScaleNamed n =>
      match container o, document o with
      | Some c, Some d =>
        let viewport := getPage1Viewport d (currentRotation o) in
        let containerWidth := (clientWidth c - 40)%Q in
        let containerHeight := (clientHeight c - 40)%Q in
        let newScale := namedScale n containerWidth containerHeight viewport in
        setCurrentScale o (JS.Math_max MIN_SCALE (JS.Math_min newScale MAX_SCALE)) st
      | _, _ => st
      end
    end.

Definition rotate (o : Options) (degrees : Z) (st : State) : State :=
  let newRotation := JS.rem (currentRotation o + degrees + 360) 360 in
  setCurrentRotation o newRotation st.

Definition setRotation (o : Options) (degrees : Z) (st : State) : State :=
  setCurrentRotation o degrees st.

Definition getCurrentPage (o : Options) : Z := currentPage o.
Definition getTotalPages (o : Options) : Z := totalPages o.
Definition getCurrentScale (o : Options) : Q := currentScale o.

End UsePDFViewer.

(** ** hooks/useZoomPrevention.ts *)

Module UseZoomPrevention.

Inductive AttemptType : Type := pinch | wheel | keyboard.

(** The events the hook listens to on the container, with the fields its
    handlers read. *)
Inductive Event : Type :=
| WheelEvent (ctrlKey metaKey : bool)
| TouchStartEvent (touches : nat)
| TouchMoveEvent (touches : nat)
| KeyDownEvent (ctrlKey metaKey : bool) (key : string)
| GestureStartEvent
| GestureChangeEvent.

(** What a handler did to the event and which attempt it reported. *)
Record Outcome : Type := mkOutcome {
  defaultPrevented : bool;
  propagationStopped : bool;
  zoomAttempt : option AttemptType
}.

Definition untouched : Outcome := mkOutcome false false None.

(** [event.preventDefault(); event.stopPropagation();] and, where the
    handler has it, [onZoomAttempt?.(type)]. *)
Definition block (report : option AttemptType) : Outcome :=
  mkOutcome true true report.

Section Handlers.

(** [enabled] and whether [onZoomAttempt] was supplied. *)
Variable enabled : bool.
Variable onZoomAttempt : bool.

Definition attempt (t : AttemptType) : option AttemptType :=
  if onZoomAttempt then Some t else None.

Definition handleWheel (ctrlKey metaKey : bool) : Outcome :=
  if enabled then untouched
  else if ctrlKey || metaKey then block (attempt wheel)
  else untouched.

Definition handleTouchStart (touches : nat) : Outcome :=
  if enabled then untouched
  else if (1 <? touches)%nat then block (attempt pinch)
  else untouched.

Definition handleTouchMove (touches : nat) : Outcome :=
  if enabled then untouched
  else if (1 <? touches)%nat then block None
  else untouched.

Definition isZoomKey (key : string) : bool :=
  String.eqb key "+" || String.eqb key "=" || String.eqb key "-"
  || String.eqb key "0".

Definition handleKeyDown (ctrlKey metaKey : bool) (key : string) : Outcome :=
  if enabled then untouched
  else if ctrlKey || metaKey then
    if isZoomKey key then block (attempt keyboard) else untouched
  else untouched.

Definition handleGestureStart : Outcome :=
  if enabled then untouched else block (attempt pinch).

Definition handleGestureChange : Outcome :=
  if enabled then untouched else block None.

(** The listeners registered on the container. *)
Definition dispatch (ev : Event) : Outcome :=
  match ev with
  | WheelEvent c m => handleWheel c m
  | TouchStartEvent n => handleTouchStart n
  | TouchMoveEvent n => handleTouchMove n
  | KeyDownEvent c m k => handleKeyDown c m k
  | GestureStartEvent => handleGestureStart
  | GestureChangeEvent => handleGestureChange
  end.

End Handlers.

(** The gesture classes of the guard. *)
Definition isZoomGesture (ev : Event) : bool :=
  match ev with
  | WheelEvent c m => c || m
  | TouchStartEvent n | TouchMoveEvent n => (1 <? n)%nat
  | KeyDownEvent c m k => (c || m) && isZoomKey k
  | GestureStartEvent | GestureChangeEvent => true
  end.

Definition suppressed (o : Outcome) : Prop :=
  defaultPrevented o = true /\ propagationStopped o = true.

End UseZoomPrevention.

(** ** PDFViewer.tsx: the component *)

Module PDFViewer.

(** The props the viewport state depends on.  [onPageChange] and
    [onScaleChange] say whether the callback was supplied. *)
Record Props : Type := mkProps {
  scaleProp : ScaleValue;
  pageProp : Z;
  rotationProp : Z;
  enableZoom : bool;
  onPageChange : bool;
  onScaleChange : bool
}.

(** What the component reads at render time: [containerRef.current] and the
    document handed over by [usePDFDocument]. *)
Record Env : Type := mkEnv {
  container : option Container;
  document : option Document
}.

(** [useState(pageProp)], [useState(1)], [useState(rotationProp)],
    [useState(false)]. *)
Definition initialState (p : Props) : State :=
  mkState (pageProp p) 1 (rotationProp p) false [].

(** [info?.numPages ?? 0]; the info is published together with the
    document and carries its page count. *)
Definition totalPages (e : Env) : Z :=
  match document e with
  | Some d => numPages d
  | None => 0
  end.

Definition calculateInitialScale (scaleValue : ScaleValue)
           (containerWidth containerHeight pageWidth pageHeight : Q) : Q :=
  match scaleValue with
  | ScaleNumber x => x
  | ScaleNamed n =>
    let availableWidth := (containerWidth - 40)%Q in
    let availableHeight := (containerHeight - 40)%Q in
    match n with
    | page_width => (availableWidth / pageWidth)%Q
    | page_fit =>
      JS.Math_min (availableWidth / pageWidth) (availableHeight / pageHeight)
    | page_actual => 1%Q
    | auto => JS.Math_min (availableWidth / pageWidth) 1.5
    end
  end.

(** The effect "calculate initial scale when document loads", taken after
    the continuation of [document.getPage(1)] has run. *)
Definition initialScaleEffect (p : Props) (e : Env) (st : State) : State :=
  match document e, container e with
  | Some d, Some c =>
    if initialScaleCalculated st then st
    else
      let viewport := getPage1Viewport d (rotationProp p) in
      let calculatedScale :=
        calculateInitialScale (scaleProp p) (clientWidth c) (clientHeight c)
                              (width viewport) (height viewport) in
      set_initialScaleCalculated true (set_currentScale calculatedScale st)
  | _, _ => st
  end.


(** The effect "update page from prop". *)
Definition syncPageEffect (p : Props) (e : Env) (st : State) : State :=
  if negb (pageProp p =? ViewerState.currentPage st)
     && (1 <=? pageProp p) && (pageProp p <=? totalPages e)
  then set_currentPage (pageProp p) st
  else st.

(** The effect "update rotation from prop". *)
Definition syncRotationEffect (p : Props) (st : State) : State :=
  if negb (rotationProp p =? ViewerState.currentRotation st)
  then set_currentRotation (rotationProp p) st
  else st.

Definition handlePageChange (p : Props) (page : Z) (st : State) : State :=
  emit_opt (onPageChange p) (OnPageChange page) (set_currentPage page st).

Definition handleScaleChange (p : Props) (scale : Q) (st : State) : State :=
  if negb (enableZoom p) then st
  else emit_opt (onScaleChange p) (OnScaleChange scale) (set_currentScale scale st).

Definition handleRotationChange (rotation : Z) (st : State) : State :=
  set_currentRotation rotation st.

(** The options [usePDFViewer] is called with in the render of state [st]. *)
Definition viewerOptions (p : Props) (e : Env) (st : State) : UsePDFViewer.Options :=
  UsePDFViewer.mkOptions
    (container e) (document e)
    (ViewerState.currentPage st) (totalPages e)
    (ViewerState.currentScale st) (ViewerState.currentRotation st)
    (enableZoom p)
    (handlePageChange p) (handleScaleChange p) handleRotationChange.

(** A command of the imperative handle, called on the handle of the latest
    render.  The state returned is the one the command leaves, before the
    effects of the next render run. *)
Definition run (p : Props) (e : Env)
           (command : UsePDFViewer.Options -> State -> State) (st : State) : State :=
  command (viewerOptions p e st) st.

Definition zoomIn p e := run p e UsePDFViewer.zoomIn.
Definition zoomOut p e := run p e UsePDFViewer.zoomOut.
Definition setScale p e (scale : ScaleValue) :=
  run p e (fun o => UsePDFViewer.setScale o scale).
Definition rotate p e (degrees : Z) :=
  run p e (fun o => UsePDFViewer.rotate o degrees).
Definition setRotation p e (degrees : Z) :=
  run p e (fun o => UsePDFViewer.setRotation o degrees).
Definition goToPage p e (page : Z) :=
  run p e (fun o => UsePDFViewer.goToPage o page).
Definition nextPage p e := run p e UsePDFViewer.nextPage.
Definition previousPage p e := run p e UsePDFViewer.previousPage.

Definition getCurrentScale (p : Props) (e : Env) (st : State) : Q :=
  UsePDFViewer.getCurrentScale (viewerOptions p e st).

Definition getCurrentPage (p : Props) (e : Env) (st : State) : Z :=
  UsePDFViewer.getCurrentPage (viewerOptions p e st).

(** [useZoomPrevention({ containerRef, enabled: enableZoom })]: the
    component supplies no [onZoomAttempt]. *)
Definition guard (p : Props) (ev : UseZoomPrevention.Event) : UseZoomPrevention.Outcome :=
  UseZoomPrevention.dispatch (enableZoom p) false ev.

(** The bounds of a scale, and the clamp of the specification. *)
Definition inScaleBounds (s : Q) : Prop :=
  (UsePDFViewer.MIN_SCALE <= s /\ s <= UsePDFViewer.MAX_SCALE)%Q.

Definition clamp (x lo hi : Q) : Q := Qmax lo (Qmin x hi).

(** A mounted viewer used in the examples: a container of the given client
    size and a document of five US-letter pages. *)
Definition letter : Document :=
  mkDocument 5 (fun _ => mkViewport 612 792).

Definition mounted (clientWidth clientHeight : Q) : Env :=
  mkEnv (Some (mkContainer clientWidth clientHeight (fun _ => true)))
        (Some letter).

Definition props (scale : ScaleValue) (enableZoom : bool) : Props :=
  mkProps scale 1 0 enableZoom true true.

End PDFViewer.

(** ** PDFViewer.tsx: the virtualized pages container [PDFPages] *)

Module PDFPages.

(** [visibleRange]: indices into [pages], both ends included. *)
Record Range : Type := mkRange { start : Z; end_ : Z }.

(** [element.getBoundingClientRect()] *)
Record Rect : Type := mkRect { top : Q; bottom : Q }.

(** The scroll container at the time of a recomputation: its client
    height, the top of its own bounding rectangle, and the bounding
    rectangles of the elements matching [[data-page-number]], in document
    order. *)
Record Measure : Type := mkMeasure {
  clientHeight : Q;
  containerRect_top : Q;
  pageElements : list Rect
}.

(** [useState({ start: 0, end: 5 })] *)
Definition initialRange : Range := mkRange 0 5.

(** The body of the [forEach] callback for the element at [index]. *)
Definition visit (pagesLength : Z) (m : Measure)
           (acc : Z * Z) (index : Z) (rect : Rect) : Z * Z :=
  let '(startIndex, endIndex) := acc in
  let containerHeight := clientHeight m in
  let elementTop := (top rect - containerRect_top m)%Q in
  let elementBottom := (bottom rect - containerRect_top m)%Q in
  let startIndex :=
    if JS.ltb elementBottom (- containerHeight)
    then Z.max 0 (index - 2) else startIndex in
  let endIndex :=
    if JS.ltb (containerHeight * 2) elementTop
    then Z.min (pagesLength - 1) (index + 2) else endIndex in
  (startIndex, endIndex).

(** [pageElements.forEach((element, index) => ...)] from [index] on. *)
Fixpoint forEach (pagesLength : Z) (m : Measure) (index : Z)
         (elements : list Rect) (acc : Z * Z) : Z * Z :=
  match elements with
  | [] => acc
  | rect :: rest =>
    forEach pagesLength m (index + 1) rest (visit pagesLength m acc index rect)
  end.

(** [updateVisibleRange]: the range it passes to [setVisibleRange]. *)
Definition updateVisibleRange (pagesLength : Z) (m : Measure) : Range :=
  let '(startIndex, endIndex) :=
    forEach pagesLength m 0 (pageElements m) (0, pagesLength - 1) in
  let visibleStart := Z.max 0 (startIndex - 2) in
  let visibleEnd := Z.min (pagesLength - 1) (endIndex + 2) in
  mkRange visibleStart visibleEnd.

(** The effect "track visible pages": it returns at once without a
    container or without pages, and otherwise recomputes on mount and on
    every scroll event. *)
Definition recompute (pagesLength : Z) (container : option Measure)
           (r : Range) : Range :=
  match container with
  | None => r
  | Some m =>
    if pagesLength =? 0 then r else updateVisibleRange pagesLength m
  end.

(** [isVisible] of the render *)
Definition isVisible (r : Range) (index : Z) : bool :=
  (start r <=? index) && (index <=? end_ r).

(** *** Page elements as the browser lays them out

    One element per page, and the elements follow each other downwards in
    document order: a later element does not start above an earlier
    one. *)
Fixpoint topsAscend (elements : list Rect) : Prop :=
  match elements with
  | [] => True
  | r :: rest =>
    Forall (fun r' => (top r <= top r')%Q) rest /\ topsAscend rest
  end.

Definition laidOut (pagesLength : Z) (m : Measure) : Prop :=
  Z.of_nat (List.length (pageElements m)) = pagesLength
  /\ 1 <= pagesLength
  /\ topsAscend (pageElements m).

(** A column of pages of the given heights, [gap] apart, seen through a
    container scrolled to [scrollTop]. *)
Fixpoint column (y gap : Q) (heights : list Q) : list Rect :=
  match heights with
  | [] => []
  | h :: rest => mkRect y (y + h) :: column (y + h + gap) gap rest
  end.

Definition scrolled (containerTop containerHeight scrollTop gap : Q)
           (heights : list Q) : Measure :=
  mkMeasure containerHeight containerTop
            (column (containerTop - scrollTop) gap heights).

(** The states of the visible range of a container of [pagesLength]
    pages after one recomputation or more: the recomputation on mount,
    then one per scroll event. *)
Inductive recomputed (pagesLength : Z) : Range -> Prop :=
| recomputed_on_mount (m : Measure) :
    laidOut pagesLength m ->
    recomputed pagesLength (recompute pagesLength (Some m) initialRange)
| recomputed_on_scroll (r : Range) (m : Measure) :
    recomputed pagesLength r ->
    laidOut pagesLength m ->
    recomputed pagesLength (recompute pagesLength (Some m) r).

(** All the states of the visible range: the initial one and the
    recomputed ones. *)
Definition reachable (pagesLength : Z) (r : Range) : Prop :=
  r = initialRange \/ recomputed pagesLength r.

(** The property of the range. *)
Definition inBounds (pageCount : Z) (r : Range) : Prop :=
  0 <= start r /\ start r <= end_ r /\ end_ r <= pageCount - 1.

Definition buffered (pageCount : Z) (r : Range) : Prop :=
  5 <= pageCount -> 4 <= end_ r - start r.

(** "The top of the element lies below twice the container height." *)
Definition below (m : Measure) (rect : Rect) : bool :=
  JS.ltb (clientHeight m * 2) (top rect - containerRect_top m).

(** Ten pages of height 800, 10 apart, in a container of height 600
    scrolled down by 7000. *)
Definition tenPages : Measure :=
  scrolled 0 600 7000 10 (repeat 800%Q 10).

(** Ten elements out of document order: the first lies far below the
    container and the last far above it. *)
Definition outOfOrder : Measure :=
  mkMeasure 600 0
            ([mkRect 5000 5800]
             ++ repeat (mkRect 0 100) 8
             ++ [mkRect (-5800) (-5000)])%Q.

End PDFPages.

(** ** hooks/usePageTracking.ts

    The recomputation in exact arithmetic.  The ratios of the source are
    rounded; where the rounding decides the winner the embedding over
    binary64 floats, [UsePageTrackingBinary64], is the one to read. *)

Module UsePageTracking.

(** An element matching [[data-page-number]]: the page number parsed from
    the attribute, and the top and height of its bounding rectangle. *)
Record PageElement : Type := mkPageElement {
  pageNumber : Z;
  rect_top : Q;
  rect_height : Q
}.

(** The container at the time of a recomputation. *)
Record Measure : Type := mkMeasure {
  containerRect_top : Q;
  scrollTop : Q;
  clientHeight : Q;
  pageElements : list PageElement
}.

(** [lastPageRef] and the calls of [onPageChange], oldest first. *)
Record Tracker : Type := mkTracker {
  lastPageRef : Z;
  notified : list Z
}.

(** [useRef<number>(1)] *)
Definition initialTracker : Tracker := mkTracker 1 [].

(** The default of the [threshold] option. *)
Definition defaultThreshold : Q := 0.5.

Section Recomputation.

Variable m : Measure.

Definition containerTop : Q := scrollTop m.
Definition containerHeight : Q := clientHeight m.
Definition containerCenter : Q := (containerTop + containerHeight / 2)%Q.

Definition elementTop (el : PageElement) : Q :=
  (rect_top el - containerRect_top m + containerTop)%Q.

Definition elementBottom (el : PageElement) : Q :=
  (elementTop el + rect_height el)%Q.

(** The visibility ratio of an element.  Where the height is zero the
    quotient is [0] here and [NaN] in JavaScript; both fail the test
    [visibility > maxVisibility]. *)
Definition visibility (el : PageElement) : Q :=
  let visibleTop := JS.Math_max (elementTop el) containerTop in
  let visibleBottom :=
    JS.Math_min (elementBottom el) (containerTop + containerHeight) in
  let visibleHeight := JS.Math_max 0 (visibleBottom - visibleTop) in
  (visibleHeight / rect_height el)%Q.

(** "The page contains the center of the viewport". *)
Definition containsCenter (el : PageElement) : bool :=
  JS.leb (elementTop el) containerCenter
  && JS.leb containerCenter (elementBottom el).

(** The body of the [forEach] callback; the accumulator is
    [(mostVisiblePage, maxVisibility)]. *)
Definition visit (acc : Z * Q) (el : PageElement) : Z * Q :=
  let '(mostVisiblePage, maxVisibility) := acc in
  let '(mostVisiblePage, maxVisibility) :=
    if JS.ltb maxVisibility (visibility el)
    then (pageNumber el, visibility el)
    else (mostVisiblePage, maxVisibility) in
  if containsCenter el
  then (pageNumber el, 1%Q)
  else (mostVisiblePage, maxVisibility).

(** The winner and its ratio after the loop. *)
Definition winner : Z * Q :=
  fold_left visit (pageElements m) (1, 0%Q).

Definition offCenter (el : PageElement) : Prop :=
  containsCenter el = false.

End Recomputation.

(** [calculateVisiblePage]; [container] is [containerRef.current]. *)
Definition calculateVisiblePage (container : option Measure) (totalPages : Z)
           (threshold : Q) (t : Tracker) : Tracker :=
  match container with
  | None => t
  | Some m =>
    if totalPages =? 0 then t
    else
      let '(mostVisiblePage, maxVisibility) := winner m in
      if JS.leb threshold maxVisibility
         && negb (mostVisiblePage =? lastPageRef t)
      then mkTracker mostVisiblePage (notified t ++ [mostVisiblePage])
      else t
  end.

(** Four pages of height 800, 10 apart, in a container of height 600
    scrolled to the top of the third page. *)
Definition threePagesAtThird : Measure :=
  mkMeasure 0 1620 600
            [mkPageElement 1 (-1620) 800; mkPageElement 2 (-810) 800;
             mkPageElement 3 0 800; mkPageElement 4 810 800].

End UsePageTracking.

(** ** utils/parseSource.ts *)

Module ParseSource.

(** The values a caller can pass for [src]. *)
Inductive Value : Type :=
| VString (s : string)
| VUint8Array (bytes : list Byte.byte)
| VArrayBuffer (bytes : list Byte.byte)
| VNumber (x : Q)
| VBoolean (b : bool)
| VNull
| VUndefined
| VObject.

(** [!src] is false *)
Definition truthy (v : Value) : bool :=
  match v with
  | VString s => negb (String.eqb s "")
  | VUint8Array _ | VArrayBuffer _ | VObject => true
  | VNumber x => negb (Qeq_bool x 0)
  | VBoolean b => b
  | VNull | VUndefined => false
  end.

Inductive SourceType : Type := url | base64 | binary.

Inductive Data : Type :=
| DataString (s : string)
| DataBytes (bytes : list Byte.byte).

Record ParsedSource : Type := mkParsed { type : SourceType; data : Data }.

(** A thrown [Error] *)
Record Error : Type := mkError { name : string; message : string }.

Definition newError (msg : string) : Error := mkError "Error" msg.

Definition isBase64DataUri (str : string) : bool :=
  JS.startsWith str "data:application/pdf;base64,"
  || JS.startsWith str "data:application/octet-stream;base64,".

Section WithURL.

(** [new URL(str, window.location.href)] returns rather than throws. *)
Variable URL_parses : string -> bool.

Definition isUrl (str : string) : bool :=
  if JS.startsWith str "http://" || JS.startsWith str "https://"
     || JS.startsWith str "/"
  then true
  else if URL_parses str then true else false.

(** [parseSource]: the parsed source, or the error it throws. *)
Definition parseSource (src : Value) : ParsedSource + Error :=
  match src with
  | VUint8Array bytes => inl (mkParsed binary (DataBytes bytes))
  | VArrayBuffer bytes => inl (mkParsed binary (DataBytes bytes))
  | VString s =>
    if isBase64DataUri s then inl (mkParsed base64 (DataString s))
    else if isUrl s then inl (mkParsed url (DataString s))
    else inl (mkParsed url (DataString s))
  | _ => inr (newError "Invalid PDF source type")
  end.

End WithURL.

Definition isString (v : Value) : Prop := exists s, v = VString s.
Definition isUint8Array (v : Value) : Prop := exists b, v = VUint8Array b.
Definition isArrayBuffer (v : Value) : Prop := exists b, v = VArrayBuffer b.

End ParseSource.

(** ** hooks/usePDFDocument.ts *)

Module UsePDFDocument.

Import ParseSource.

(** A document proxy and a loading task are known by their identity. *)
Definition DocumentProxy : Type := nat.
Definition LoadingTask : Type := nat.

(** [PDFDocumentInfo] *)
Record DocumentInfo : Type := mkInfo {
  numPages : Z;
  fingerprints : list string
}.

(** Which callbacks of [UsePDFDocumentOptions] were supplied. *)
Record Callbacks : Type := mkCallbacks {
  onLoadStart : bool;
  onLoadSuccess : bool;
  onLoadError : bool;
  onPasswordRequired : bool
}.

(** What the hook does to its surroundings, oldest first. *)
Inductive Effect : Type :=
| TaskDestroyed (task : LoadingTask)
| DocumentDestroyed (doc : DocumentProxy)
| LoadStart
| LoadSuccess (info : DocumentInfo)
| LoadError (err : Error)
| PasswordRequired.

(** The four state variables, the three refs and the log of effects. *)
Record Hook : Type := mkHook {
  state : PDFViewerState;
  document : option DocumentProxy;
  info : option DocumentInfo;
  error : option Error;
  loadingTaskRef : option LoadingTask;
  documentRef : option DocumentProxy;
  versionRef : Z;
  effects : list Effect
}.

Definition initialHook : Hook :=
  mkHook idle None None None None None 0 [].

Definition setState (s : PDFViewerState) (h : Hook) : Hook :=
  mkHook s (document h) (info h) (error h)
         (loadingTaskRef h) (documentRef h) (versionRef h) (effects h).

Definition setDocument (d : option DocumentProxy) (h : Hook) : Hook :=
  mkHook (state h) d (info h) (error h)
         (loadingTaskRef h) (documentRef h) (versionRef h) (effects h).

Definition setInfo (i : option DocumentInfo) (h : Hook) : Hook :=
  mkHook (state h) (document h) i (error h)
         (loadingTaskRef h) (documentRef h) (versionRef h) (effects h).

Definition setError (e : option Error) (h : Hook) : Hook :=
  mkHook (state h) (document h) (info h) e
         (loadingTaskRef h) (documentRef h) (versionRef h) (effects h).

Definition set_loadingTaskRef (t : option LoadingTask) (h : Hook) : Hook :=
  mkHook (state h) (document h) (info h) (error h)
         t (documentRef h) (versionRef h) (effects h).

Definition set_documentRef (d : option DocumentProxy) (h : Hook) : Hook :=
  mkHook (state h) (document h) (info h) (error h)
         (loadingTaskRef h) d (versionRef h) (effects h).

Definition set_versionRef (v : Z) (h : Hook) : Hook :=
  mkHook (state h) (document h) (info h) (error h)
         (loadingTaskRef h) (documentRef h) v (effects h).

Definition emit (e : Effect) (h : Hook) : Hook :=
  mkHook (state h) (document h) (info h) (error h)
         (loadingTaskRef h) (documentRef h) (versionRef h) (effects h ++ [e]).

(** [cb?.(...)] *)
Definition call (supplied : bool) (e : Effect) (h : Hook) : Hook :=
  if supplied then emit e h else h.

(** [abortLoadingTask(loadingTaskRef.current); loadingTaskRef.current = null] *)
Definition abortLoadingTask (h : Hook) : Hook :=
  match loadingTaskRef h with
  | Some task => set_loadingTaskRef None (emit (TaskDestroyed task) h)
  | None => set_loadingTaskRef None h
  end.

(** [if (documentRef.current) { destroy(); documentRef.current = null }] *)
Definition destroyDocument (h : Hook) : Hook :=
  match documentRef h with
  | Some doc => set_documentRef None (emit (DocumentDestroyed doc) h)
  | None => h
  end.

Section WithEngine.

Variable URL_parses : string -> bool.

(** [pdfjs.getDocument] on the parsed source, with the decoding of an
    embedded payload in front of it: the task it returns, or the error
    it throws. *)
Variable getDocument : ParsedSource -> LoadingTask + Error.

Variable cb : Callbacks.

(** utils/loadDocument.ts, [loadDocument]: the task of the operation, or
    the error thrown before there is one. *)
Definition loadDocument (src : Value) : LoadingTask + Error :=
  match parseSource URL_parses src with
  | inr err => inr err
  | inl parsed => getDocument parsed
  end.

(** [load], up to the point where the handlers of the promise are
    registered.  The handlers capture the value [versionRef] has when
    [load] returns. *)
Definition load (src : Value) (h : Hook) : Hook :=
  if negb (truthy src) then
    setError None (setInfo None (setDocument None (setState idle h)))
  else
    let h := set_versionRef (versionRef h + 1) h in
    let h := abortLoadingTask h in
    let h := destroyDocument h in
    let h := setState loading h in
    let h := setError None h in
    let h := call (onLoadStart cb) LoadStart h in
    match loadDocument src with
    | inl task => set_loadingTaskRef (Some task) h
    | inr err =>
      let h := setError (Some err) h in
      let h := setState Types.error h in
      call (onLoadError cb) (LoadError err) h
    end.

(** The [then] handler of the operation that captured [version]. *)
Definition onFulfilled (version : Z) (doc : DocumentProxy)
           (docInfo : DocumentInfo) (h : Hook) : Hook :=
  if negb (version =? versionRef h) then
    emit (DocumentDestroyed doc) h
  else
    let h := set_documentRef (Some doc) h in
    let h := setDocument (Some doc) h in
    let h := setInfo (Some docInfo) h in
    let h := setState ready h in
    call (onLoadSuccess cb) (LoadSuccess docInfo) h.

(** The [catch] handler of the operation that captured [version]. *)
Definition onRejected (version : Z) (err : Error) (h : Hook) : Hook :=
  if negb (version =? versionRef h) then h
  else
    let h :=
      if String.eqb (name err) "PasswordException"
      then call (onPasswordRequired cb) PasswordRequired h
      else h in
    let h := setError (Some err) h in
    let h := setState Types.error h in
    call (onLoadError cb) (LoadError err) h.

(** The cleanup of the effect, run on unmount and before the effect runs
    again for a new source. *)
Definition cleanup (h : Hook) : Hook :=
  destroyDocument (abortLoadingTask h).

(** How an operation settles. *)
Inductive Settlement : Type :=
| Fulfilled (doc : DocumentProxy) (docInfo : DocumentInfo)
| Rejected (err : Error).

Definition settle (version : Z) (s : Settlement) (h : Hook) : Hook :=
  match s with
  | Fulfilled doc docInfo => onFulfilled version doc docInfo h
  | Rejected err => onRejected version err h
  end.

(** A run of settlements, each with the version its operation captured. *)
Definition settleAll (events : list (Z * Settlement)) (h : Hook) : Hook :=
  fold_left (fun h e => settle (fst e) (snd e) h) events h.

End WithEngine.

(** What an observer of the hook sees. *)
Definition published (h : Hook)
  : PDFViewerState * option DocumentProxy * option DocumentInfo * option Error :=
  (state h, document h, info h, error h).

Definition destroyed (doc : DocumentProxy) (h : Hook) : Prop :=
  In (DocumentDestroyed doc) (effects h).

(** The callbacks among the effects. *)
Definition isNotification (e : Effect) : bool :=
  match e with
  | LoadStart | LoadSuccess _ | LoadError _ | PasswordRequired => true
  | TaskDestroyed _ | DocumentDestroyed _ => false
  end.

Definition notifications (h : Hook) : list Effect :=
  filter isNotification (effects h).

(** Two hooks that an observer and the callbacks cannot tell apart, at the
    same version. *)
Definition alike (h h' : Hook) : Prop :=
  versionRef h = versionRef h'
  /\ published h = published h'
  /\ notifications h = notifications h'.

(** The settlements of the operation that captured [version]. *)
Definition ofVersion (version : Z) (e : Z * Settlement) : bool :=
  fst e =? version.

(** Data of the examples: every callback supplied, an engine that hands
    out task 1 for whatever it is given, and the info of a document of
    five pages. *)
Definition allCallbacks : Callbacks := mkCallbacks true true true true.

Definition engine (parsed : ParsedSource) : LoadingTask + Error := inl 1%nat.

Definition fivePageInfo : DocumentInfo := mkInfo 5 ["abc123"%string].

Definition passwordException : Error :=
  mkError "PasswordException" "No password given".

Definition loadingAborted : Error := mkError "Error" "Loading aborted".

End UsePDFDocument.

(** ** The commands of the imperative handle, one after the other *)

Module Commands.

Inductive Command : Type :=
| ZoomIn
| ZoomOut
| SetScale (scale : ScaleValue)
| Rotate (degrees : Z)
| SetRotation (degrees : Z)
| GoToPage (page : Z)
| NextPage
| PreviousPage.

(** One call on the handle of the render of [st]. *)
Definition exec (p : PDFViewer.Props) (e : PDFViewer.Env) (c : Command)
           (st : State) : State :=
  match c with
  | ZoomIn => PDFViewer.zoomIn p e st
  | ZoomOut => PDFViewer.zoomOut p e st
  | SetScale scale => PDFViewer.setScale p e scale st
  | Rotate degrees => PDFViewer.rotate p e degrees st
  | SetRotation degrees => PDFViewer.setRotation p e degrees st
  | GoToPage page => PDFViewer.goToPage p e page st
  | NextPage => PDFViewer.nextPage p e st
  | PreviousPage => PDFViewer.previousPage p e st
  end.

(** Calls in sequence, each on the handle of the render the call before it
    led to. *)
Definition execAll (p : PDFViewer.Props) (e : PDFViewer.Env)
           (cs : list Command) (st : State) : State :=
  fold_left (fun st c => exec p e c st) cs st.

End Commands.

(** ** Page tracking over time *)

Module Tracking.

Import UsePageTracking.

(** One run of [calculateVisiblePage]: what the container measures at that
    time, and the [totalPages] and [threshold] of the render it closes
    over. *)
Record Recomputation : Type := mkRecomputation {
  container : option Measure;
  totalPages : Z;
  threshold : Q
}.

Definition recompute (r : Recomputation) (t : Tracker) : Tracker :=
  calculateVisiblePage (container r) (totalPages r) (threshold r) t.

(** The runs of a mounted hook, oldest first: on mount, after each quiet
    period of scrolling, on each change of [totalPages]. *)
Definition recomputeAll (rs : list Recomputation) (t : Tracker) : Tracker :=
  fold_left (fun t r => recompute r t) rs t.

(** No two neighbours of a list are the same. *)
Fixpoint adjacentDistinct (l : list Z) : Prop :=
  match l with
  | a :: (b :: _) as rest => a <> b /\ adjacentDistinct rest
  | _ => True
  end.

(** What the tracker keeps between runs. *)
Definition coherent (t : Tracker) : Prop :=
  lastPageRef t = last (1 :: notified t) 1
  /\ adjacentDistinct (1 :: notified t).

(** An element that spans the whole visible band, and an element that
    lies wholly outside it. *)
Definition coversBand (m : Measure) (el : PageElement) : Prop :=
  (elementTop m el <= containerTop m
   /\ containerTop m + containerHeight m <= elementBottom m el)%Q.

Definition offscreen (m : Measure) (el : PageElement) : Prop :=
  (elementBottom m el < containerTop m
   \/ containerTop m + containerHeight m < elementTop m el)%Q.

End Tracking.

(** ** The life of the hook [usePDFDocument] as a sequence of events *)

Module Lifecycle.

Import ParseSource UsePDFDocument.

(** The documents destroyed so far, oldest first, one entry per call of
    [destroy]. *)
Fixpoint destroyedDocuments (es : list Effect) : list DocumentProxy :=
  match es with
  | [] => []
  | DocumentDestroyed doc :: rest => doc :: destroyedDocuments rest
  | _ :: rest => destroyedDocuments rest
  end.

(** A document proxy the hook has not seen: not held, not destroyed. *)
Definition fresh (doc : DocumentProxy) (h : Hook) : Prop :=
  ~ In doc (destroyedDocuments (effects h)) /\ documentRef h <> Some doc.

(** What happens to a mounted hook: the effect runs [load] for a source,
    an operation settles, the cleanup of the effect runs. *)
Inductive Event : Type :=
| Load (src : Value)
| Settle (version : Z) (s : Settlement)
| Cleanup.

(** The engine hands out a new proxy for every document it opens. *)
Definition admissible (ev : Event) (h : Hook) : Prop :=
  match ev with
  | Settle _ (Fulfilled doc _) => fresh doc h
  | _ => True
  end.

Section WithEngine.

Variable URL_parses : string -> bool.
Variable getDocument : ParsedSource -> LoadingTask + Error.
Variable cb : Callbacks.

(** The state a load of a truthy source is in when it calls
    [loadDocument]: version advanced, previous task aborted, previous
    document destroyed, state 'loading', error cleared, [onLoadStart]
    called. *)
Definition prepared (h : Hook) : Hook :=
  call (onLoadStart cb) LoadStart
       (setError None
          (setState loading
             (destroyDocument
                (abortLoadingTask (set_versionRef (versionRef h + 1) h))))).

Definition step (ev : Event) (h : Hook) : Hook :=
  match ev with
  | Load src => load URL_parses getDocument cb src h
  | Settle version s => settle cb version s h
  | Cleanup => cleanup h
  end.

Inductive reachable : Hook -> Prop :=
| reachable_initial : reachable initialHook
| reachable_step (ev : Event) (h : Hook) :
    reachable h -> admissible ev h -> reachable (step ev h).

End WithEngine.

End Lifecycle.

(** ** utils/worker.ts *)

Module Worker.

(** The module variable [workerInitialized] and
    [pdfjs.GlobalWorkerOptions.workerSrc]. *)
Record Global : Type := mkGlobal {
  workerInitialized : bool;
  workerSrc : string
}.

(** The state of a page that has just loaded the module. *)
Definition initialGlobal : Global := mkGlobal false "".

Section WithVersion.

(** [pdfjs.version] *)
Variable version : string.

Definition cdnPaths : list string :=
  [ ("https://unpkg.com/pdfjs-dist@" ++ version ++ "/build/pdf.worker.min.mjs")%string;
    ("https://cdnjs.cloudflare.com/ajax/libs/pdf.js/" ++ version
       ++ "/pdf.worker.min.mjs")%string;
    ("https://unpkg.com/pdfjs-dist@" ++ version ++ "/build/pdf.worker.min.js")%string ].

(** [initializeWorker(workerSrc?)]; the argument is [None] for
    [undefined]. *)
Definition initializeWorker (src : option string) (g : Global) : Global :=
  if workerInitialized g then g
  else
    match src with
    | Some s =>
      if String.eqb s "" then mkGlobal true (nth 0 cdnPaths ""%string)
      else mkGlobal true s
    | None => mkGlobal true (nth 0 cdnPaths ""%string)
    end.

End WithVersion.

Definition isWorkerInitialized (g : Global) : bool := workerInitialized g.

Definition resetWorker (g : Global) : Global := mkGlobal false (workerSrc g).

(** Calls of [initializeWorker] in a row. *)
Definition initializeAll (version : string) (srcs : list (option string))
           (g : Global) : Global :=
  fold_left (fun g src => initializeWorker version src g) srcs g.

End Worker.

(** ** utils/parseSource.ts, [base64ToUint8Array], and utils/loadDocument.ts *)

Module LoadDocument.

Import ParseSource.

(** [str.includes(',')] *)
Fixpoint includesComma (s : string) : bool :=
  match s with
  | EmptyString => false
  | String c rest => if Ascii.eqb c "," then true else includesComma rest
  end.

(** [str.split(',')[0]]: the part before the first comma. *)
Fixpoint beforeComma (s : string) : string :=
  match s with
  | EmptyString => EmptyString
  | String c rest => if Ascii.eqb c "," then EmptyString else String c (beforeComma rest)
  end.

(** The part after the first comma, for a string that has one. *)
Fixpoint afterComma (s : string) : string :=
  match s with
  | EmptyString => EmptyString
  | String c rest => if Ascii.eqb c "," then rest else afterComma rest
  end.

(** [base64.includes(',') ? base64.split(',')[1] : base64] *)
Definition base64Data (base64 : string) : string :=
  if includesComma base64 then beforeComma (afterComma base64) else base64.

(** The bytes of a binary string: [bytes[i] = binaryString.charCodeAt(i)]. *)
Definition charCodes (binaryString : string) : list Byte.byte :=
  map byte_of_ascii (list_ascii_of_string binaryString).

(** [LoadDocumentOptions]; an absent option is [None]. *)
Record Options : Type := mkOptions {
  httpHeaders : option (list (string * string));
  withCredentials : option bool;
  cMapUrl : option string;
  password : option string;
  workerSrc : option string
}.

(** The fields of [DocumentInitParameters] that [loadDocument] sets; a
    field that is not set is [None]. *)
Record InitParameters : Type := mkInitParameters {
  p_url : option string;
  p_data : option (list Byte.byte);
  p_httpHeaders : option (list (string * string));
  p_withCredentials : option bool;
  p_cMapUrl : option string;
  p_cMapPacked : option bool;
  p_password : option string;
  p_disableRange : option bool;
  p_disableStream : option bool
}.

(** A string option that is set and not empty. *)
Definition nonEmpty (o : option string) : option string :=
  match o with
  | Some s => if String.eqb s "" then None else Some s
  | None => None
  end.

Section WithBrowser.

(** [atob]: the binary string, or the error it throws. *)
Variable atob : string -> string + Error.

Variable URL_parses : string -> bool.

Definition base64ToUint8Array (base64 : string) : list Byte.byte + Error :=
  match atob (base64Data base64) with
  | inl binaryString => inl (charCodes binaryString)
  | inr err => inr err
  end.

(** The parameters [loadDocument] passes to [pdfjs.getDocument], or the
    error thrown on the way. *)
Definition initParameters (src : Value) (options : Options) : InitParameters + Error :=
  match parseSource URL_parses src with
  | inr err => inr err
  | inl parsed =>
    let source : (option string * option (list Byte.byte)) + Error :=
      match type parsed, data parsed with
      | url, DataString s => inl (Some s, None)
      | base64, DataString s =>
        match base64ToUint8Array s with
        | inl bytes => inl (None, Some bytes)
        | inr err => inr err
        end
      | binary, DataBytes bytes => inl (None, Some bytes)
      | _, _ => inl (None, None)
      end in
    match source with
    | inr err => inr err
    | inl (u, d) =>
      inl (mkInitParameters
             u d
             (httpHeaders options)
             (match withCredentials options with
              | Some true => Some true
              | _ => None
              end)
             (nonEmpty (cMapUrl options))
             (match nonEmpty (cMapUrl options) with
              | Some _ => Some true
              | None => None
              end)
             (nonEmpty (password options))
             (Some false) (Some false))
    end
  end.

(** [loadDocument] up to the call of [pdfjs.getDocument]: the worker is
    initialized first, whatever follows. *)
Definition loadDocument (version : string) (src : Value) (options : Options)
           (g : Worker.Global) : Worker.Global * (InitParameters + Error) :=
  (Worker.initializeWorker version (workerSrc options) g,
   initParameters src options).

End WithBrowser.

(** Loads in a row, as far as the worker goes. *)
Definition loadAll (atob : string -> string + Error) (URL_parses : string -> bool)
           (version : string) (calls : list (Value * Options))
           (g : Worker.Global) : Worker.Global :=
  fold_left (fun g c => fst (loadDocument atob URL_parses version (fst c) (snd c) g))
            calls g.

(** A stand-in for [atob] in the examples: it knows "SGVsbG8=". *)
Definition helloAtob (s : string) : string + Error :=
  if String.eqb s "SGVsbG8=" then inl "Hello"%string
  else if String.eqb s "" then inl ""%string
  else inr (mkError "InvalidCharacterError" "The string to be decoded is not correctly encoded.").

End LoadDocument.

(** ** utils/loadDocument.ts, [parseMetadataDate] *)

Module Metadata.

(** [\d] *)
Definition isDigit (c : ascii) : bool :=
  (48 <=? nat_of_ascii c)%nat && (nat_of_ascii c <=? 57)%nat.

(** [\d{n}] at the head of [s]: the digits matched and what follows
    them. *)
Fixpoint digits (n : nat) (s : string) : option (string * string) :=
  match n with
  | O => Some (EmptyString, s)
  | S n' =>
    match s with
    | String c rest =>
      if isDigit c then
        match digits n' rest with
        | Some (matched, after) => Some (String c matched, after)
        | None => None
        end
      else None
    | EmptyString => None
    end
  end.

(** [(\d{2})?]: the group when two digits follow, no group and no move
    otherwise. *)
Definition optionalDigits2 (s : string) : option string * string :=
  match digits 2 s with
  | Some (matched, after) => (Some matched, after)
  | None => (None, s)
  end.

(** The capture groups of
    [/D:(\d{4})(\d{2})(\d{2})(\d{2})?(\d{2})?(\d{2})?/]. *)
Record Groups : Type := mkGroups {
  year : string;
  month : string;
  day : string;
  hour : option string;
  minute : option string;
  second : option string
}.

(** The pattern tried at the head of [s]. *)
Definition matchAt (s : string) : option Groups :=
  match s with
  | String "D"%char (String ":"%char s0) =>
    match digits 4 s0 with
    | None => None
    | Some (y, s1) =>
      match digits 2 s1 with
      | None => None
      | Some (mo, s2) =>
        match digits 2 s2 with
        | None => None
        | Some (d, s3) =>
          let '(h, s4) := optionalDigits2 s3 in
          let '(mi, s5) := optionalDigits2 s4 in
          let '(se, _) := optionalDigits2 s5 in
          Some (mkGroups y mo d h mi se)
        end
      end
    end
  | _ => None
  end.

(** [dateStr.match(...)]: the leftmost match. *)
Fixpoint search (s : string) : option Groups :=
  match matchAt s with
  | Some g => Some g
  | None =>
    match s with
    | String _ rest => search rest
    | EmptyString => None
    end
  end.

(** [parseInt(str, 10)] on a non-empty string of digits. *)
Definition digitValue (c : ascii) : Z := Z.of_nat (nat_of_ascii c) - 48.

Fixpoint parseIntFrom (acc : Z) (s : string) : Z :=
  match s with
  | EmptyString => acc
  | String c rest => parseIntFrom (10 * acc + digitValue c) rest
  end.

Definition parseInt (s : string) : Z := parseIntFrom 0 s.

(** The arguments of [new Date(year, monthIndex, day, hours, minutes,
    seconds)], a date in local time. *)
Record DateArguments : Type := mkDate {
  dateYear : Z;
  dateMonthIndex : Z;
  dateDay : Z;
  dateHours : Z;
  dateMinutes : Z;
  dateSeconds : Z
}.

(** The default ['00'] of a group that did not match. *)
Definition orZeroes (group : option string) : string :=
  match group with
  | Some matched => matched
  | None => "00"
  end.

(** [parseMetadataDate]; [None] stands for [undefined] on both sides. *)
Definition parseMetadataDate (dateStr : option string) : option DateArguments :=
  match dateStr with
  | None => None
  | Some s =>
    if String.eqb s "" then None
    else
      match search s with
      | None => None
      | Some g =>
        Some (mkDate (parseInt (year g))
                     (parseInt (month g) - 1)
                     (parseInt (day g))
                     (parseInt (orZeroes (hour g)))
                     (parseInt (orZeroes (minute g)))
                     (parseInt (orZeroes (second g))))
      end
  end.

(** A string made of digits only. *)
Definition allDigits (s : string) : bool :=
  forallb isDigit (list_ascii_of_string s).

End Metadata.

(** ** JavaScript numbers with NaN and the infinities *)

Module Number.

(** A [number]: [NaN], an infinity or a finite number.  The two zeros are
    not told apart. *)
Inductive number : Type :=
| NaN
| NegInf
| Num (x : Q)
| PosInf.

(** [Math.min] and [Math.max]: [NaN] when an argument is [NaN]. *)
Definition Math_min (a b : number) : number :=
  match a, b with
  | NaN, _ | _, NaN => NaN
  | NegInf, _ | _, NegInf => NegInf
  | PosInf, c | c, PosInf => c
  | Num x, Num y => Num (JS.Math_min x y)
  end.

Definition Math_max (a b : number) : number :=
  match a, b with
  | NaN, _ | _, NaN => NaN
  | PosInf, _ | _, PosInf => PosInf
  | NegInf, c | c, NegInf => c
  | Num x, Num y => Num (JS.Math_max x y)
  end.

(** [a + b] and [a - b] *)
Definition add (a b : number) : number :=
  match a, b with
  | NaN, _ | _, NaN => NaN
  | PosInf, NegInf | NegInf, PosInf => NaN
  | PosInf, _ | _, PosInf => PosInf
  | NegInf, _ | _, NegInf => NegInf
  | Num x, Num y => Num (x + y)
  end.

Definition sub (a b : number) : number :=
  match a, b with
  | NaN, _ | _, NaN => NaN
  | PosInf, PosInf | NegInf, NegInf => NaN
  | PosInf, _ | _, NegInf => PosInf
  | NegInf, _ | _, PosInf => NegInf
  | Num x, Num y => Num (x - y)
  end.

(** [x / y] for two finite numbers: an infinity when only [y] is zero,
    [NaN] when both are. *)
Definition div (x y : Q) : number :=
  if Qeq_bool y 0
  then (if Qeq_bool x 0 then NaN
        else if JS.ltb 0 x then PosInf else NegInf)
  else Num (x / y).

(** [a || b]: [b] when [a] is 0 or [NaN]. *)
Definition orElse (a b : number) : number :=
  match a with
  | NaN => b
  | Num x => if Qeq_bool x 0 then b else a
  | _ => a
  end.

(** The number lies between the bounds; [NaN] and the infinities do
    not. *)
Definition within (lo hi : Q) (a : number) : Prop :=
  match a with
  | Num x => (lo <= x /\ x <= hi)%Q
  | _ => False
  end.

End Number.

(** ** context/PDFViewerContext.tsx: the public provider *)

Module PDFViewerContext.

Import Number.

(** The props of [PDFViewerProvider] with their defaults applied. *)
Record ProviderProps : Type := mkProviderProps {
  initialState : PDFViewerState;
  initialPage : number;
  initialScale : number;
  initialRotation : Z;
  zoomEnabled : bool;
  onPageChange : bool;
  onScaleChange : bool
}.

(** The calls of the two callbacks. *)
Inductive Callback : Type :=
| OnPageChange (page : number)
| OnScaleChange (scale : number).

(** The state cells of the provider, and the log of the callbacks it
    called.  The cells [state], [error] and [totalPages] have setters that
    the provider hands to nobody. *)
Record Context : Type := mkContext {
  state : PDFViewerState;
  currentPage : number;
  totalPages : number;
  currentScale : number;
  currentRotation : Z;
  calls : list Callback
}.

Definition initialContext (p : ProviderProps) : Context :=
  mkContext (initialState p) (initialPage p) (Num 0) (initialScale p)
            (initialRotation p) [].

Definition called (supplied : bool) (e : Callback) (c : Context) : Context :=
  if supplied
  then mkContext (state c) (currentPage c) (totalPages c) (currentScale c)
                 (currentRotation c) (calls c ++ [e])
  else c.

Definition setCurrentPage (p : ProviderProps) (page : number) (c : Context) : Context :=
  let validPage :=
    Math_max (Num 1) (Math_min page (orElse (totalPages c) (Num 1))) in
  called (onPageChange p) (OnPageChange validPage)
         (mkContext (state c) validPage (totalPages c) (currentScale c)
                    (currentRotation c) (calls c)).

Definition setCurrentScale (p : ProviderProps) (scale : number) (c : Context) : Context :=
  if negb (zoomEnabled p) then c
  else
    let validScale := Math_max (Num 0.1) (Math_min scale (Num 10)) in
    called (onScaleChange p) (OnScaleChange validScale)
           (mkContext (state c) (currentPage c) (totalPages c) validScale
                      (currentRotation c) (calls c)).

Definition setCurrentRotation (rotation : Z) (c : Context) : Context :=
  mkContext (state c) (currentPage c) (totalPages c) (currentScale c)
            rotation (calls c).

(** What a consumer of the context can call. *)
Inductive Call : Type :=
| SetCurrentPage (page : number)
| SetCurrentScale (scale : number)
| SetCurrentRotation (rotation : Z).

Definition call (p : ProviderProps) (k : Call) (c : Context) : Context :=
  match k with
  | SetCurrentPage page => setCurrentPage p page c
  | SetCurrentScale scale => setCurrentScale p scale c
  | SetCurrentRotation rotation => setCurrentRotation rotation c
  end.

(** Calls in sequence, each on the context value of the latest render. *)
Definition callAll (p : ProviderProps) (ks : list Call) (c : Context) : Context :=
  fold_left (fun c k => call p k c) ks c.

(** The call is not [setCurrentScale(NaN)]. *)
Definition scaleIsNumber (k : Call) : Prop :=
  match k with
  | SetCurrentScale NaN => False
  | _ => True
  end.

Definition defaults (zoom : bool) : ProviderProps :=
  mkProviderProps idle (Num 1) (Num 1) 0 zoom true true.

End PDFViewerContext.

(** ** hooks/usePDFViewer.ts: zoomIn, zoomOut and setScale over numbers

    The scale commands once more, with the scale a [number] that may be
    [NaN], and with the handle kept apart from the state: a command
    computes from the render its handle belongs to and writes to the
    latest state.  The geometry stays rational. *)

Module ScaleState.

Import Number.

(** The cells of [PDFViewer] that the scale commands read and write, and
    the calls of [onScaleChange], oldest first. *)
Record State : Type := mkState {
  currentScale : number;
  currentRotation : Z;
  scaleChanges : list number
}.

End ScaleState.

Module ScaleCommands.

Import Number.

(** The argument of [setScale]: [number | ScaleName]. *)
Inductive ScaleArgument : Type :=
| ScaleNumber (x : number)
| ScaleNamed (n : ScaleName).

(** The options of [usePDFViewer] that the scale commands use. *)
Record Options : Type := mkOptions {
  container : option Container;
  document : option Document;
  currentScale : number;
  currentRotation : Z;
  zoomEnabled : bool;
  setCurrentScale : number -> ScaleState.State -> ScaleState.State
}.

Definition zoomIn (o : Options) (st : ScaleState.State) : ScaleState.State :=
  if negb (zoomEnabled o) then st
  else
    let newScale :=
      Math_min (add (currentScale o) (Num UsePDFViewer.ZOOM_STEP))
               (Num UsePDFViewer.MAX_SCALE) in
    setCurrentScale o newScale st.

Definition zoomOut (o : Options) (st : ScaleState.State) : ScaleState.State :=
  if negb (zoomEnabled o) then st
  else
    let newScale :=
      Math_max (sub (currentScale o) (Num UsePDFViewer.ZOOM_STEP))
               (Num UsePDFViewer.MIN_SCALE) in
    setCurrentScale o newScale st.

(** The scale a named value resolves to inside [setScale], before the
    clamp; the client size and the viewport are finite numbers. *)
Definition namedScale (n : ScaleName) (containerWidth containerHeight : Q)
           (viewport : Viewport) : number :=
  match n with
  | page_width => div containerWidth (width viewport)
  | page_fit =>
    Math_min (div containerWidth (width viewport))
             (div containerHeight (height viewport))
  | page_actual => Num 1
  | auto => Math_min (div containerWidth (width viewport)) (Num 1.5)
  end.

Definition setScale (o : Options) (scale : ScaleArgument)
           (st : ScaleState.State) : ScaleState.State :=
  if negb (zoomEnabled o) then st
  else
    match scale with
    | ScaleNumber x =>
      let validScale :=
        Math_max (Num UsePDFViewer.MIN_SCALE)
                 (Math_min x (Num UsePDFViewer.MAX_SCALE)) in
      setCurrentScale o validScale st
    | ScaleNamed n =>
      match container o, document o with
      | Some c, Some d =>
        let viewport := getPage1Viewport d (currentRotation o) in
        let containerWidth := (clientWidth c - 40)%Q in
        let containerHeight := (clientHeight c - 40)%Q in
        let newScale := namedScale n containerWidth containerHeight viewport in
        setCurrentScale o
          (Math_max (Num UsePDFViewer.MIN_SCALE)
                    (Math_min newScale (Num UsePDFViewer.MAX_SCALE))) st
      | _, _ => st
      end
    end.

(** [handleScaleChange] of [PDFViewer] *)
Definition handleScaleChange (p : PDFViewer.Props) (scale : number)
           (st : ScaleState.State) : ScaleState.State :=
  if negb (PDFViewer.enableZoom p) then st
  else
    ScaleState.mkState scale (ScaleState.currentRotation st)
      (ScaleState.scaleChanges st
       ++ (if PDFViewer.onScaleChange p then [scale] else [])).

(** The options [usePDFViewer] is called with in the render of
    [rendered]. *)
Definition viewerOptions (p : PDFViewer.Props) (e : PDFViewer.Env)
           (rendered : ScaleState.State) : Options :=
  mkOptions (PDFViewer.container e) (PDFViewer.document e)
            (ScaleState.currentScale rendered)
            (ScaleState.currentRotation rendered)
            (PDFViewer.enableZoom p) (handleScaleChange p).

Inductive Command : Type :=
| ZoomIn
| ZoomOut
| SetScale (scale : ScaleArgument).

Definition call (o : Options) (c : Command) (st : ScaleState.State)
  : ScaleState.State :=
  match c with
  | ZoomIn => zoomIn o st
  | ZoomOut => zoomOut o st
  | SetScale scale => setScale o scale st
  end.

(** The viewer between two events: the state of the render the handle
    belongs to, and the latest state. *)
Record Viewer : Type := mkViewer {
  rendered : ScaleState.State;
  latest : ScaleState.State
}.

(** A re-render, after which the handle belongs to the latest state, or a
    call on the handle. *)
Inductive Step : Type :=
| Rerender
| Call (c : Command).

Definition step (p : PDFViewer.Props) (e : PDFViewer.Env) (v : Viewer)
           (s : Step) : Viewer :=
  match s with
  | Rerender => mkViewer (latest v) (latest v)
  | Call c =>
    mkViewer (rendered v) (call (viewerOptions p e (rendered v)) c (latest v))
  end.

Definition stepAll (p : PDFViewer.Props) (e : PDFViewer.Env)
           (steps : list Step) (v : Viewer) : Viewer :=
  fold_left (step p e) steps v.

(** The step is not [setScale(NaN)]. *)
Definition argumentIsNumber (s : Step) : Prop :=
  match s with
  | Call (SetScale (ScaleNumber NaN)) => False
  | _ => True
  end.

Definition inScaleBounds (a : number) : Prop :=
  within UsePDFViewer.MIN_SCALE UsePDFViewer.MAX_SCALE a.

(** Page 1 of the document, if there is one, has a width and a height
    other than zero under every rotation. *)
Definition pageHasSize (e : PDFViewer.Env) : Prop :=
  forall d rotation,
    PDFViewer.document e = Some d ->
    ~ (width (getPage1Viewport d rotation) == 0)%Q
    /\ ~ (height (getPage1Viewport d rotation) == 0)%Q.

(** A container 40 wide over a page without width. *)
Definition noWidth : PDFViewer.Env :=
  PDFViewer.mkEnv (Some (mkContainer 40 600 (fun _ => true)))
                  (Some (mkDocument 1 (fun _ => mkViewport 0 792))).

(** A state and an argument of the rational embedding, as they are
    here. *)
Definition ofState (st : State) : ScaleState.State :=
  ScaleState.mkState (Num (ViewerState.currentScale st))
                     (ViewerState.currentRotation st) [].

Definition ofScaleValue (v : ScaleValue) : ScaleArgument :=
  match v with
  | Types.ScaleNumber x => ScaleNumber (Num x)
  | Types.ScaleNamed n => ScaleNamed n
  end.

Definition mountedAt (scale : Q) : Viewer :=
  mkViewer (ScaleState.mkState (Num scale) 0 [])
           (ScaleState.mkState (Num scale) 0 []).

End ScaleCommands.

(** ** hooks/usePageTracking.ts in binary64

    [calculateVisiblePage] once more, with the arithmetic of the source:
    every number is a binary64 float and every operation rounds. *)

Module UsePageTrackingBinary64.

Record PageElement : Type := mkPageElement {
  pageNumber : Z;
  rect_top : float;
  rect_height : float
}.

Record Measure : Type := mkMeasure {
  containerRect_top : float;
  scrollTop : float;
  clientHeight : float;
  pageElements : list PageElement
}.

(** Whether a float is the negative zero. *)
Definition isNegativeZero (a : float) : bool :=
  match PrimFloat.classify a with
  | FloatClass.NZero => true
  | _ => false
  end.

(** [Math.max] and [Math.min]: [NaN] when an argument is [NaN], and +0
    counts as greater than -0. *)
Definition Math_max (a b : float) : float :=
  if PrimFloat.is_nan a || PrimFloat.is_nan b then PrimFloat.nan
  else if PrimFloat.ltb a b then b
  else if PrimFloat.ltb b a then a
  else if isNegativeZero a then b else a.

Definition Math_min (a b : float) : float :=
  if PrimFloat.is_nan a || PrimFloat.is_nan b then PrimFloat.nan
  else if PrimFloat.ltb a b then a
  else if PrimFloat.ltb b a then b
  else if isNegativeZero b then b else a.

Section Recomputation.

Variable m : Measure.

Definition containerTop : float := scrollTop m.
Definition containerHeight : float := clientHeight m.
Definition containerCenter : float :=
  (containerTop + containerHeight / 2)%float.

Definition elementTop (el : PageElement) : float :=
  (rect_top el - containerRect_top m + containerTop)%float.

Definition elementBottom (el : PageElement) : float :=
  (elementTop el + rect_height el)%float.

Definition visibility (el : PageElement) : float :=
  let visibleTop := Math_max (elementTop el) containerTop in
  let visibleBottom :=
    Math_min (elementBottom el) (containerTop + containerHeight)%float in
  let visibleHeight := Math_max 0%float (visibleBottom - visibleTop)%float in
  (visibleHeight / rect_height el)%float.

Definition containsCenter (el : PageElement) : bool :=
  PrimFloat.leb (elementTop el) containerCenter
  && PrimFloat.leb containerCenter (elementBottom el).

(** The body of the [forEach] callback; the accumulator is
    [(mostVisiblePage, maxVisibility)]. *)
Definition visit (acc : Z * float) (el : PageElement) : Z * float :=
  let '(mostVisiblePage, maxVisibility) := acc in
  let '(mostVisiblePage, maxVisibility) :=
    if PrimFloat.ltb maxVisibility (visibility el)
    then (pageNumber el, visibility el)
    else (mostVisiblePage, maxVisibility) in
  if containsCenter el
  then (pageNumber el, 1%float)
  else (mostVisiblePage, maxVisibility).

Definition winner : Z * float :=
  fold_left visit (pageElements m) (1, 0%float).

End Recomputation.

Definition calculateVisiblePage (container : option Measure) (totalPages : Z)
           (threshold : float) (t : UsePageTracking.Tracker)
  : UsePageTracking.Tracker :=
  match container with
  | None => t
  | Some m =>
    if totalPages =? 0 then t
    else
      let '(mostVisiblePage, maxVisibility) := winner m in
      if PrimFloat.leb threshold maxVisibility
         && negb (mostVisiblePage =? UsePageTracking.lastPageRef t)
      then UsePageTracking.mkTracker
             mostVisiblePage (UsePageTracking.notified t ++ [mostVisiblePage])
      else t
  end.

(** The float nearest to a decimal fraction with one digit after the
    point, as the literal denotes it in JavaScript: the division of two
    integers rounds to nearest. *)
Definition tenths (n : float) : float := (n / 10)%float.

(** Three pages 245.4 high and 10 apart, the first at the top of a
    container 1000 high that is not scrolled. *)
Definition thirdPage : PageElement := mkPageElement 3 (tenths 5108) (tenths 2454).
Definition secondPage : PageElement := mkPageElement 2 (tenths 2554) (tenths 2454).
Definition firstPage : PageElement := mkPageElement 1 0 (tenths 2454).

Definition smallPages : Measure :=
  mkMeasure 0 0 1000 [firstPage; secondPage; thirdPage].

(** The same pages in exact arithmetic. *)
Definition smallPagesExact : UsePageTracking.Measure :=
  UsePageTracking.mkMeasure 0 0 1000
    [UsePageTracking.mkPageElement 1 0 245.4;
     UsePageTracking.mkPageElement 2 255.4 245.4;
     UsePageTracking.mkPageElement 3 510.8 245.4].

End UsePageTrackingBinary64.

(** ** PDFViewer.tsx: the render effect of [PDFPage] *)

Module PDFPage.

(** The identity of an object returned by [page.render]. *)
Definition RenderTask : Type := nat.

(** What the effect keeps and touches: [renderTaskRef], the [dimensions]
    state, the backing size of the canvas, and, for the statements, the
    tasks it started and the tasks it cancelled, oldest first. *)
Record State : Type := mkState {
  renderTaskRef : option RenderTask;
  dimensions : Q * Q;
  canvasSize : Z * Z;
  started : list RenderTask;
  cancelled : list RenderTask
}.

Definition initialState : State := mkState None (0, 0)%Q (300, 150) [] [].

(** [if (renderTaskRef.current) { renderTaskRef.current.cancel();
    renderTaskRef.current = null; }] *)
Definition cancelCurrent (st : State) : State :=
  match renderTaskRef st with
  | Some t =>
    mkState None (dimensions st) (canvasSize st) (started st)
            (cancelled st ++ [t])
  | None => st
  end.

(** One run of the effect: whether the canvas is attached and whether it
    yields a 2d context, the viewport of the page, [window.devicePixelRatio]
    and the task [page.render] returns if it is called. *)
Record Run : Type := mkRun {
  canvas : bool;
  context2d : bool;
  viewport : Viewport;
  devicePixelRatio : Q;
  renderTask : RenderTask
}.

Definition effect (r : Run) (st : State) : State :=
  if negb (canvas r) then st
  else
    let st := cancelCurrent st in
    let pixelRatio :=
      if Qeq_bool (devicePixelRatio r) 0 then 1%Q else devicePixelRatio r in
    let st :=
      mkState (renderTaskRef st)
              (width (viewport r), height (viewport r))
              (Qfloor (width (viewport r) * pixelRatio),
               Qfloor (height (viewport r) * pixelRatio))
              (started st) (cancelled st) in
    if negb (context2d r) then st
    else
      mkState (Some (renderTask r)) (dimensions st) (canvasSize st)
              (started st ++ [renderTask r]) (cancelled st).

(** The cleanup the effect returns. *)
Definition cleanup (st : State) : State := cancelCurrent st.

Inductive Event : Type :=
| RunEffect (r : Run)
| RunCleanup.

Definition step (st : State) (ev : Event) : State :=
  match ev with
  | RunEffect r => effect r st
  | RunCleanup => cleanup st
  end.

Definition stepAll (evs : list Event) (st : State) : State :=
  fold_left step evs st.

(** The tasks [page.render] would return over a run of events. *)
Fixpoint tasksOf (evs : list Event) : list RenderTask :=
  match evs with
  | [] => []
  | RunEffect r :: rest => renderTask r :: tasksOf rest
  | RunCleanup :: rest => tasksOf rest
  end.

(** [page.render] returns a new object on each call. *)
Definition freshTasks (evs : list Event) : Prop := NoDup (tasksOf evs).

(** Every task that was started is the one in [renderTaskRef] or was
    cancelled; the one in [renderTaskRef] was started and not cancelled;
    only started tasks were cancelled, and none of them twice. *)
Definition accounted (st : State) : Prop :=
  (forall t, In t (started st) ->
             renderTaskRef st = Some t \/ In t (cancelled st))
  /\ (forall t, renderTaskRef st = Some t ->
                In t (started st) /\ ~ In t (cancelled st))
  /\ (forall t, In t (cancelled st) -> In t (started st))
  /\ NoDup (cancelled st).

Definition letterAt (scale : Q) (task : RenderTask) : Run :=
  mkRun true true (mkViewport (612 * scale) (792 * scale)) 2 task.

End PDFPage.

(** ** hooks/usePDFViewer.ts: find, findNext, findPrevious, clearFind *)

Module Find.

(** [FindOptions]: every field is optional. *)
Record FindOptions : Type := mkFindOptions {
  caseSensitive : option bool;
  highlightAll : option bool;
  wholeWord : option bool
}.

(** [{}] *)
Definition noOptions : FindOptions := mkFindOptions None None None.

(** A [span] of a text layer: its text, and whether its class list holds
    [pdf-search-highlight] and [current].  The spans of all the text
    layers of the container are kept in one list, in document order; the
    embedding takes them to be the only elements that carry these classes,
    and an element is named by its index. *)
Record Span : Type := mkSpan {
  textContent : string;
  highlight : bool;
  current : bool
}.

Record State : Type := mkState {
  searchQueryRef : string;
  searchOptionsRef : FindOptions;
  spans : list Span;
  (** the elements [scrollIntoView] was called on, oldest first *)
  scrolledTo : list nat
}.

(** [el.classList.add(..)] and [el.classList.remove(..)] *)
Definition addHighlight (s : Span) : Span := mkSpan (textContent s) true (current s).
Definition removeHighlight (s : Span) : Span := mkSpan (textContent s) false (current s).
Definition addCurrent (s : Span) : Span := mkSpan (textContent s) (highlight s) true.
Definition removeCurrent (s : Span) : Span := mkSpan (textContent s) (highlight s) false.
Definition removeBoth (s : Span) : Span := mkSpan (textContent s) false false.

(** A class operation on the element of index [i]. *)
Fixpoint updateAt (i : nat) (f : Span -> Span) (l : list Span) : list Span :=
  match l, i with
  | [], _ => []
  | s :: rest, O => f s :: rest
  | s :: rest, S j => s :: updateAt j f rest
  end.

(** Selectors: [.pdf-search-highlight] and [.pdf-search-highlight.current] *)
Definition isHighlight (s : Span) : bool := highlight s.
Definition isCurrentHighlight (s : Span) : bool := highlight s && current s.

Definition selects (sel : Span -> bool) (l : list Span) (i : nat) : bool :=
  match nth_error l i with
  | Some s => sel s
  | None => false
  end.

(** [container.querySelectorAll(sel)]: the matching elements in document
    order; [container.querySelector(sel)]: the first of them. *)
Definition querySelectorAll (sel : Span -> bool) (l : list Span) : list nat :=
  filter (selects sel l) (seq 0%nat (List.length l)).

Definition querySelector (sel : Span -> bool) (l : list Span) : option nat :=
  hd_error (querySelectorAll sel l).

(** [Array.from(highlights).indexOf(el)] *)
Fixpoint indexOf (x : nat) (l : list nat) : Z :=
  match l with
  | [] => -1
  | y :: rest =>
    if Nat.eqb x y then 0
    else let k := indexOf x rest in if k <? 0 then -1 else k + 1
  end.

(** [String.prototype.includes] *)
Definition includes (s search : string) : bool :=
  match String.index 0%nat search s with
  | Some _ => true
  | None => false
  end.

(** [findOptions?.caseSensitive] as a condition *)
Definition caseSensitive_ (findOptions : option FindOptions) : bool :=
  match findOptions with
  | Some o => match caseSensitive o with Some b => b | None => false end
  | None => false
  end.

Definition set_spans (l : list Span) (st : State) : State :=
  mkState (searchQueryRef st) (searchOptionsRef st) l (scrolledTo st).

Section WithLocale.

(** [String.prototype.toLowerCase] *)
Variable toLowerCase : string -> string.

(** The test of the innermost loop of [find]. *)
Definition matches (query : string) (findOptions : option FindOptions)
           (text : string) : bool :=
  let searchText :=
    if caseSensitive_ findOptions then query else toLowerCase query in
  let compareText :=
    if caseSensitive_ findOptions then text else toLowerCase text in
  includes compareText searchText.

(** [find(query, findOptions)], closed over whether a document is loaded
    and whether the container is attached. *)
Definition find (document container : bool) (query : string)
           (findOptions : option FindOptions) (st : State) : State :=
  let st :=
    mkState query
            (match findOptions with Some o => o | None => noOptions end)
            (spans st) (scrolledTo st) in
  if negb document || (query =? "")%string then st
  else if negb container then st
  else
    let cleared :=
      map (fun s => if isHighlight s then removeHighlight s else s) (spans st) in
    let marked :=
      map (fun s => if matches query findOptions (textContent s)
                    then addHighlight s else s) cleared in
    set_spans marked st.

End WithLocale.

(** What [findNext] and [findPrevious] share once the index is chosen:
    [highlights[index].classList.add('current')] and the scroll.  An index
    outside the list would read [undefined] and throw; the statements show
    that the index is always inside. *)
Definition select (highlights : list nat) (index : Z) (l : list Span)
           (st : State) : State :=
  match nth_error highlights (Z.to_nat index) with
  | Some el =>
    mkState (searchQueryRef st) (searchOptionsRef st)
            (updateAt el addCurrent l) (scrolledTo st ++ [el])
  | None => st
  end.

Definition findNext (container : bool) (st : State) : State :=
  if negb container then st
  else
    let highlights := querySelectorAll isHighlight (spans st) in
    let len := Z.of_nat (List.length highlights) in
    if len =? 0 then st
    else
      match querySelector isCurrentHighlight (spans st) with
      | Some currentHighlight =>
        let l := updateAt currentHighlight removeCurrent (spans st) in
        let currentIndex := indexOf currentHighlight highlights in
        select highlights (JS.rem (currentIndex + 1) len) l st
      | None => select highlights 0 (spans st) st
      end.

Definition findPrevious (container : bool) (st : State) : State :=
  if negb container then st
  else
    let highlights := querySelectorAll isHighlight (spans st) in
    let len := Z.of_nat (List.length highlights) in
    if len =? 0 then st
    else
      match querySelector isCurrentHighlight (spans st) with
      | Some currentHighlight =>
        let l := updateAt currentHighlight removeCurrent (spans st) in
        let currentIndex := indexOf currentHighlight highlights in
        select highlights (JS.rem (currentIndex - 1 + len) len) l st
      | None => select highlights (len - 1) (spans st) st
      end.

Definition clearFind (container : bool) (st : State) : State :=
  let st := mkState "" noOptions (spans st) (scrolledTo st) in
  if negb container then st
  else set_spans (map (fun s => if isHighlight s then removeBoth s else s)
                      (spans st)) st.

(** At most the element [c] carries both classes. *)
Definition onlyCurrent (c : nat) (l : list Span) : Prop :=
  forall i, selects isCurrentHighlight l i = true -> i = c.

(** The class [current] taken from the element [c] and given to [t]. *)
Definition moveCurrent (c t : nat) (l : list Span) : list Span :=
  updateAt t addCurrent (updateAt c removeCurrent l).

(** Lower case on the letters A to Z, for the examples. *)
Definition lowerAscii (c : ascii) : ascii :=
  let n := nat_of_ascii c in
  if (Nat.leb 65 n && Nat.leb n 90)%bool then ascii_of_nat (n + 32)%nat else c.

Fixpoint lowerCase (s : string) : string :=
  match s with
  | EmptyString => EmptyString
  | String c rest => String (lowerAscii c) (lowerCase rest)
  end.

Definition threeSpans : list Span :=
  [ mkSpan "Invoice Total" false false;
    mkSpan "thank you" false true;
    mkSpan "total due" false false ]%string.

End Find.

(** * Properties *)

(** ** Comparisons of numbers *)

Module JSProofs.

Lemma ltb_true (a b : Q) : JS.ltb a b = true <-> (a < b)%Q.
Proof.
  unfold JS.ltb. rewrite Qlt_alt.
  destruct (a ?= b)%Q; split; intros H; congruence.
Qed.

Lemma ltb_false (a b : Q) : JS.ltb a b = false <-> (b <= a)%Q.
Proof.
  split; intros H.
  - apply Qnot_lt_le. intros Hlt. apply ltb_true in Hlt. congruence.
  - destruct (JS.ltb a b) eqn:E; [ | reflexivity ].
    apply ltb_true in E. lra.
Qed.

Lemma leb_true (a b : Q) : JS.leb a b = true <-> (a <= b)%Q.
Proof. apply Qle_bool_iff. Qed.

End JSProofs.

(** ** Scale, rotation and the zoom gate *)

Module ViewerProofs.

Import PDFViewer.

Lemma clamp_inScaleBounds (x : Q) :
  inScaleBounds (clamp x UsePDFViewer.MIN_SCALE UsePDFViewer.MAX_SCALE).
Proof.
  unfold inScaleBounds, clamp; split.
  - apply Q.le_max_l.
  - apply Q.max_lub; [ unfold UsePDFViewer.MIN_SCALE, UsePDFViewer.MAX_SCALE; lra
                     | apply Q.le_min_r ].
Qed.

Lemma currentScale_emit_opt (b : bool) (ef : Effect) (st : State) :
  currentScale (emit_opt b ef st) = currentScale st.
Proof. destruct b; reflexivity. Qed.

Lemma currentScale_handleScaleChange (p : Props) (s : Q) (st : State) :
  enableZoom p = true ->
  currentScale (handleScaleChange p s st) = s.
Proof.
  intros Hz; unfold handleScaleChange; rewrite Hz; simpl.
  now rewrite currentScale_emit_opt.
Qed.

(** [setScale] on a number commits the clamped number, and [setScale] on a
    named value commits a clamped scale, when zoom is enabled. *)
Lemma setScale_number_clamped (p : Props) (e : Env) (st : State) (x : Q) :
  enableZoom p = true ->
  let st' := setScale p e (ScaleNumber x) st in
  getCurrentScale p e st' = clamp x 0.1 10 /\ inScaleBounds (getCurrentScale p e st').
Proof.
  intros Hz; cbn zeta.
  assert (E : getCurrentScale p e (setScale p e (ScaleNumber x) st) = clamp x 0.1 10).
  { unfold getCurrentScale, setScale, run, UsePDFViewer.setScale,
      UsePDFViewer.getCurrentScale; cbn.
    rewrite Hz; cbn. now rewrite currentScale_handleScaleChange. }
  split; [ exact E | rewrite E; apply clamp_inScaleBounds ].
Qed.

Lemma setScale_named_clamped (p : Props) (e : Env) (st : State) (n : ScaleName) :
  enableZoom p = true ->
  inScaleBounds (currentScale st) ->
  inScaleBounds (currentScale (setScale p e (ScaleNamed n) st)).
Proof.
  intros Hz Hb.
  unfold setScale, run, UsePDFViewer.setScale; cbn.
  rewrite Hz; cbn.
  destruct (container e); [ destruct (document e) | ]; try exact Hb.
  rewrite currentScale_handleScaleChange by exact Hz.
  apply clamp_inScaleBounds.
Qed.

(** C2: a scale outside [0.1, 10] is committed by the initial-scale effect.
    With the numeric prop [scale = 50] the viewer mounts at scale 50; with
    ['page-width'] in a container 8000 wide it mounts at 7960/612, about 13;
    with the numeric prop [scale = 0.01] it mounts at 0.01. *)
Theorem initial_scale_escapes_bounds :
  (let p := props (ScaleNumber 50) true in
   let st := initialScaleEffect p (mounted 800 600) (initialState p) in
   currentScale st == 50 /\ ~ inScaleBounds (currentScale st))%Q
  /\
  (let p := props (ScaleNamed page_width) true in
   let st := initialScaleEffect p (mounted 8000 600) (initialState p) in
   currentScale st == 7960 / 612 /\ ~ inScaleBounds (currentScale st))%Q
  /\
  (let p := props (ScaleNumber 0.01) false in
   let st := initialScaleEffect p (mounted 800 600) (initialState p) in
   currentScale st == 0.01 /\ ~ inScaleBounds (currentScale st))%Q.
Proof.
  repeat split; try reflexivity;
    unfold inScaleBounds; cbn; intros [H1 H2];
    revert H1 H2; unfold Qle; cbn; lia.
Qed.

(** The effect that follows the prop leaves the rotation of the prop. *)
Lemma syncRotationEffect_restores_prop (p : Props) (st : State) :
  currentRotation (syncRotationEffect p st) = rotationProp p.
Proof.
  unfold syncRotationEffect.
  destruct (rotationProp p =? currentRotation st) eqn:E; cbn [negb].
  - apply Z.eqb_eq in E. congruence.
  - reflexivity.
Qed.

(** C4, as the claim states it, fails: calls on one handle do not
    accumulate.  On the handle of a render at rotation 0, four calls of
    [rotate(90)] leave the rotation at 90 and not at 0, and [rotate(90)]
    followed by [rotate(-90)] leaves 270 and not 0: every call computes
    from the [currentRotation] its closure holds. *)
Lemma rotate_on_one_handle_does_not_accumulate :
  let p := props (ScaleNumber 1) false in
  let st := initialState p in
  let o := viewerOptions p (mounted 800 600) st in
  currentRotation st = 0
  /\ currentRotation
       (UsePDFViewer.rotate o 90
          (UsePDFViewer.rotate o 90
             (UsePDFViewer.rotate o 90 (UsePDFViewer.rotate o 90 st)))) = 90
  /\ currentRotation
       (UsePDFViewer.rotate o (-90) (UsePDFViewer.rotate o 90 st)) = 270.
Proof. cbn. repeat split; reflexivity. Qed.

(** C4, amended.  Let [r], in {0, 90, 180, 270}, be the rotation of the
    render a handle belongs to, and [delta] be +90 or -90.
    - [rotate(delta)] on that handle sets the rotation to
      (r + delta + 360) mod 360, again in {0, 90, 180, 270}, whatever has
      been set since that render.
    - So calls on one handle do not accumulate: four calls of [rotate(90)]
      leave (r + 90) mod 360, and [rotate(90)] then [rotate(-90)] leaves
      (r + 270) mod 360.
    - When each call is made on the handle of a render whose rotation is
      the one the call before it set, four calls of [rotate(90)] restore
      the state, and [rotate(-90)] and [rotate(90)] undo each other.
    - In [PDFViewer], once the effect "update rotation from prop" has run
      after a call, the rotation is that of the [rotation] prop. *)
Theorem rotate_quarter_turns (p : Props) (e : Env) (st : State) (delta : Z) :
  isRotationValue (currentRotation st) ->
  delta = 90 \/ delta = -90 ->
  let r := currentRotation st in
  let o := viewerOptions p e st in
  (forall st', currentRotation (UsePDFViewer.rotate o delta st')
               = (r + delta + 360) mod 360)
  /\ isRotationValue ((r + delta + 360) mod 360)
  /\ (forall st',
         currentRotation
           (UsePDFViewer.rotate o 90
              (UsePDFViewer.rotate o 90
                 (UsePDFViewer.rotate o 90 (UsePDFViewer.rotate o 90 st'))))
         = (r + 90) mod 360)
  /\ (forall st',
         currentRotation
           (UsePDFViewer.rotate o (-90) (UsePDFViewer.rotate o 90 st'))
         = (r + 270) mod 360)
  /\ rotate p e 90 (rotate p e 90 (rotate p e 90 (rotate p e 90 st))) = st
  /\ rotate p e (-90) (rotate p e 90 st) = st
  /\ rotate p e 90 (rotate p e (-90) st) = st
  /\ currentRotation (syncRotationEffect p (rotate p e delta st))
     = rotationProp p.
Proof.
  intros Hr Hd. cbv zeta.
  split; [ | split; [ | split; [ | split ] ] ].
  - intros st'. destruct st as [pg sc rot isc eff]; cbn in Hr.
    unfold isRotationValue in Hr.
    destruct Hr as [-> | [-> | [-> | ->]]]; destruct Hd as [-> | ->];
      reflexivity.
  - unfold isRotationValue in *.
    destruct Hr as [-> | [-> | [-> | ->]]]; destruct Hd as [-> | ->];
      cbn; auto.
  - intros st'. destruct st as [pg sc rot isc eff]; cbn in Hr.
    unfold isRotationValue in Hr.
    destruct Hr as [-> | [-> | [-> | ->]]]; reflexivity.
  - intros st'. destruct st as [pg sc rot isc eff]; cbn in Hr.
    unfold isRotationValue in Hr.
    destruct Hr as [-> | [-> | [-> | ->]]]; reflexivity.
  - split; [ | split; [ | split ] ];
      try apply syncRotationEffect_restores_prop;
      destruct st as [pg sc rot isc eff]; cbn in Hr;
      unfold isRotationValue in Hr;
      destruct Hr as [-> | [-> | [-> | ->]]]; reflexivity.
Qed.

Lemma rotate_quarter_turns_witness :
  let p := props (ScaleNumber 1) false in
  let st := mkState 1 1 270 true [] in
  currentRotation (rotate p (mounted 800 600) 90 st) = 0
  /\ currentRotation
       (UsePDFViewer.rotate (viewerOptions p (mounted 800 600) st) 90
          (UsePDFViewer.rotate (viewerOptions p (mounted 800 600) st) 90 st))
     = 0
  /\ rotate p (mounted 800 600) (-90) (rotate p (mounted 800 600) 90 st) = st.
Proof.
  cbv zeta.
  destruct (rotate_quarter_turns (props (ScaleNumber 1) false) (mounted 800 600)
              (mkState 1 1 270 true []) 90) as (H1 & _ & _ & _ & _ & H6 & _).
  - right; right; right; reflexivity.
  - left; reflexivity.
  - split; [ apply (H1 (mkState 1 1 270 true [])) | split; [ | exact H6 ] ].
    apply (H1 (UsePDFViewer.rotate
                 (viewerOptions (props (ScaleNumber 1) false) (mounted 800 600)
                                (mkState 1 1 270 true [])) 90
                 (mkState 1 1 270 true []))).
Defined.

(** C8, as the claim states it, fails: [setRotation(45)] on a viewer at
    rotation 0 leaves the rotation at 45, a value outside
    {0, 90, 180, 270}. *)
Lemma setRotation_stores_invalid_value :
  let p := props (ScaleNumber 1) false in
  let st := initialState p in
  ~ isRotationValue 45
  /\ currentRotation st = 0
  /\ currentRotation (setRotation p (mounted 800 600) 45 st) = 45
  /\ currentRotation (setRotation p (mounted 800 600) 45 st) <> currentRotation st.
Proof.
  cbn; repeat split; try discriminate.
  unfold isRotationValue; lia.
Qed.

(** C8, amended: [setRotation(value)] stores every value it is given as
    the current rotation and changes nothing else; no value is rejected at
    run time (the static type [RotationValue] is what keeps other values
    out). *)
Theorem setRotation_stores_value (p : Props) (e : Env) (st : State) (value : Z) :
  setRotation p e value st = set_currentRotation value st
  /\ currentRotation (setRotation p e value st) = value.
Proof. split; reflexivity. Qed.

Lemma zoomIn_scale (p : Props) (e : Env) (st : State) :
  enableZoom p = true ->
  currentScale (zoomIn p e st) = Qmin (currentScale st + 0.25) 10.
Proof.
  intros Hz. unfold zoomIn, run, UsePDFViewer.zoomIn; cbn.
  rewrite Hz; cbn. now rewrite currentScale_handleScaleChange.
Qed.

Lemma zoomOut_scale (p : Props) (e : Env) (st : State) :
  enableZoom p = true ->
  currentScale (zoomOut p e st) = Qmax (currentScale st - 0.25) 0.1.
Proof.
  intros Hz. unfold zoomOut, run, UsePDFViewer.zoomOut; cbn.
  rewrite Hz; cbn. now rewrite currentScale_handleScaleChange.
Qed.

(** C7, as the claim states it, fails: with zoom enabled, [zoomIn()]
    followed at once by [zoomOut()] on the same handle, at scale 1.5,
    leaves the scale at 1.25 and not at 1.5: [zoomOut] computes from the
    [currentScale] its closure holds, which [zoomIn] has not changed. *)
Lemma zoomOut_on_one_handle_steps_below :
  let p := props (ScaleNumber 1) true in
  let st := mkState 1 1.5 0 true [] in
  let o := viewerOptions p (mounted 800 600) st in
  (currentScale (UsePDFViewer.zoomIn o st) == 1.75
   /\ currentScale (UsePDFViewer.zoomOut o (UsePDFViewer.zoomIn o st)) == 1.25
   /\ ~ currentScale (UsePDFViewer.zoomOut o (UsePDFViewer.zoomIn o st)) == 1.5)%Q.
Proof.
  cbn. repeat split; try reflexivity. unfold Qeq; cbn; lia.
Qed.

Lemma zoomIn_scale_on_handle (p : Props) (e : Env) (st st' : State) :
  enableZoom p = true ->
  currentScale (UsePDFViewer.zoomIn (viewerOptions p e st) st')
  = Qmin (currentScale st + 0.25) 10.
Proof.
  intros Hz. unfold UsePDFViewer.zoomIn; cbn.
  rewrite Hz; cbn. now rewrite currentScale_handleScaleChange.
Qed.

Lemma zoomOut_scale_on_handle (p : Props) (e : Env) (st st' : State) :
  enableZoom p = true ->
  currentScale (UsePDFViewer.zoomOut (viewerOptions p e st) st')
  = Qmax (currentScale st - 0.25) 0.1.
Proof.
  intros Hz. unfold UsePDFViewer.zoomOut; cbn.
  rewrite Hz; cbn. now rewrite currentScale_handleScaleChange.
Qed.

(** C7, amended.  With zoom enabled, let [s] be the scale of the render a
    handle belongs to.  [zoomIn] on that handle sets the scale to
    min(s + 0.25, 10) and [zoomOut] sets it to max(s - 0.25, 0.1), whatever
    has been set since that render: the step is exactly 0.25 where the
    bound is not reached and the bound where it is.  So [zoomOut] called on
    the same handle right after [zoomIn] leaves max(s - 0.25, 0.1).
    [zoomOut] called on the handle of the render that shows the scale
    [zoomIn] set returns to [s] whenever neither step is cut by its bound,
    that is for 0.1 <= s and s + 0.25 <= 10. *)
Theorem zoom_step_round_trip (p : Props) (e : Env) (st : State) :
  enableZoom p = true ->
  let s := currentScale st in
  let o := viewerOptions p e st in
  (currentScale (zoomIn p e st) = Qmin (s + 0.25) 10
   /\ currentScale (zoomOut p e st) = Qmax (s - 0.25) 0.1
   /\ (s + 0.25 <= 10 -> currentScale (zoomIn p e st) == s + 0.25)
   /\ (10 <= s + 0.25 -> currentScale (zoomIn p e st) == 10)
   /\ (0.1 <= s - 0.25 -> currentScale (zoomOut p e st) == s - 0.25)
   /\ (s - 0.25 <= 0.1 -> currentScale (zoomOut p e st) == 0.1)
   /\ (forall st', currentScale (UsePDFViewer.zoomIn o st') = Qmin (s + 0.25) 10)
   /\ (forall st', currentScale (UsePDFViewer.zoomOut o st') = Qmax (s - 0.25) 0.1)
   /\ currentScale (UsePDFViewer.zoomOut o (UsePDFViewer.zoomIn o st))
      = Qmax (s - 0.25) 0.1
   /\ (0.1 <= s -> s + 0.25 <= 10 ->
       currentScale (zoomOut p e (zoomIn p e st)) == s))%Q.
Proof.
  intros Hz s o.
  rewrite (zoomOut_scale p e (zoomIn p e st) Hz).
  rewrite (zoomIn_scale p e st Hz), (zoomOut_scale p e st Hz).
  fold s. repeat split.
  - intros H. now apply Q.min_l.
  - intros H. now apply Q.min_r.
  - intros H. now apply Q.max_l.
  - intros H. now apply Q.max_r.
  - intros st'. now apply zoomIn_scale_on_handle.
  - intros st'. now apply zoomOut_scale_on_handle.
  - now apply zoomOut_scale_on_handle.
  - intros Hlo Hhi.
    rewrite (Q.min_l (s + 0.25) 10 Hhi).
    rewrite Q.max_l; lra.
Qed.

Lemma zoom_step_round_trip_witness :
  (currentScale
     (zoomOut (props (ScaleNumber 1) true) (mounted 800 600)
        (zoomIn (props (ScaleNumber 1) true) (mounted 800 600)
                (mkState 1 1.5 0 true []))) == 1.5)%Q.
Proof.
  destruct (zoom_step_round_trip (props (ScaleNumber 1) true) (mounted 800 600)
              (mkState 1 1.5 0 true []) eq_refl)
    as (_ & _ & _ & _ & _ & _ & _ & _ & _ & H).
  apply H; cbn; lra.
Defined.

Import UseZoomPrevention.

(** C6: with [enableZoom] false, [zoomIn], [zoomOut] and [setScale] of any
    value return the state they were given, so the scale and all the rest of
    the viewport state stay as they were and no callback is called; and the
    guard prevents the default action and stops the propagation of a wheel
    event with Ctrl or Meta, of a touch start or touch move with more than
    one touch, of a gesture start or gesture change, and of a key down with
    Ctrl or Meta and one of the keys +, =, - and 0. *)
Theorem zoom_disabled_is_inert (p : Props) (e : Env) (st : State) :
  enableZoom p = false ->
  zoomIn p e st = st
  /\ zoomOut p e st = st
  /\ (forall v : ScaleValue, setScale p e v st = st)
  /\ (forall v : ScaleValue, getCurrentScale p e (setScale p e v st)
                              = getCurrentScale p e st)
  /\ getCurrentScale p e (zoomIn p e st) = getCurrentScale p e st
  /\ getCurrentScale p e (zoomOut p e st) = getCurrentScale p e st
  /\ (forall ev : Event, isZoomGesture ev = true -> suppressed (guard p ev))
  /\ (forall ctrlKey metaKey : bool, ctrlKey || metaKey = true ->
      suppressed (guard p (WheelEvent ctrlKey metaKey)))
  /\ (forall touches : nat, (1 < touches)%nat ->
      suppressed (guard p (TouchStartEvent touches))
      /\ suppressed (guard p (TouchMoveEvent touches)))
  /\ suppressed (guard p GestureStartEvent)
  /\ suppressed (guard p GestureChangeEvent)
  /\ (forall (ctrlKey metaKey : bool) (key : string),
      ctrlKey || metaKey = true ->
      key = "+"%string \/ key = "="%string \/ key = "-"%string \/ key = "0"%string ->
      suppressed (guard p (KeyDownEvent ctrlKey metaKey key))).
Proof.
  intros Hz.
  assert (Hin : zoomIn p e st = st)
    by (unfold zoomIn, run, UsePDFViewer.zoomIn; cbn; now rewrite Hz).
  assert (Hout : zoomOut p e st = st)
    by (unfold zoomOut, run, UsePDFViewer.zoomOut; cbn; now rewrite Hz).
  assert (Hset : forall v, setScale p e v st = st)
    by (intros v; unfold setScale, run, UsePDFViewer.setScale; cbn;
        now rewrite Hz).
  assert (Hall : forall ev, isZoomGesture ev = true -> suppressed (guard p ev)).
  { intros ev Hev. unfold guard, suppressed. rewrite Hz.
    destruct ev; cbn in *;
      unfold handleWheel, handleTouchStart, handleTouchMove, handleKeyDown;
      try (split; reflexivity).
    - rewrite Hev; split; reflexivity.
    - rewrite Hev; split; reflexivity.
    - rewrite Hev; split; reflexivity.
    - apply andb_prop in Hev as [Hc Hk]. rewrite Hc, Hk; split; reflexivity. }
  split; [ exact Hin | ].
  split; [ exact Hout | ].
  split; [ exact Hset | ].
  split; [ intros v; now rewrite Hset | ].
  split; [ now rewrite Hin | ].
  split; [ now rewrite Hout | ].
  split; [ exact Hall | ].
  split; [ intros c m Hcm; apply Hall; exact Hcm | ].
  split; [ intros n Hn; split; apply Hall; unfold isZoomGesture;
           now apply Nat.ltb_lt | ].
  split; [ apply Hall; reflexivity | ].
  split; [ apply Hall; reflexivity | ].
  intros c m k Hcm Hk. apply Hall; cbn. rewrite Hcm.
  destruct Hk as [-> | [-> | [-> | ->]]]; reflexivity.
Qed.

Lemma zoom_disabled_is_inert_witness :
  let p := props (ScaleNamed page_fit) false in
  let st := mkState 2 1.25 90 true [] in
  zoomIn p (mounted 800 600) st = st
  /\ setScale p (mounted 800 600) (ScaleNumber 3) st = st
  /\ suppressed (guard p (KeyDownEvent true false "+")).
Proof.
  destruct (zoom_disabled_is_inert (props (ScaleNamed page_fit) false)
              (mounted 800 600) (mkState 2 1.25 90 true []) eq_refl)
    as (Hin & _ & Hset & _ & _ & _ & Hg & _).
  cbn zeta. split; [ exact Hin | split; [ apply Hset | apply Hg; reflexivity ] ].
Defined.

End ViewerProofs.

(** ** The visible range *)

Module PDFPagesProofs.

Import PDFPages JSProofs.

Lemma below_later (m : Measure) (r r' : Rect) :
  (top r <= top r')%Q -> below m r = true -> below m r' = true.
Proof.
  unfold below. rewrite !ltb_true. intros; lra.
Qed.

(** The low end never runs ahead of the elements already visited. *)
Lemma forEach_start (n : Z) (m : Measure) (rest : list Rect) :
  forall (k s e : Z),
    0 <= k -> 0 <= s <= Z.max 0 (k - 3) ->
    0 <= fst (forEach n m k rest (s, e))
         <= Z.max 0 (k + Z.of_nat (List.length rest) - 3).
Proof.
  induction rest as [| r rest IH]; intros k s e Hk Hs.
  - cbn [forEach fst List.length]. change (Z.of_nat 0) with 0. lia.
  - cbn [forEach List.length]. rewrite Nat2Z.inj_succ. unfold visit.
    set (s' := if JS.ltb _ _ then Z.max 0 (k - 2) else s).
    set (e' := if JS.ltb _ _ then Z.min (n - 1) (k + 2) else e).
    assert (Hs' : 0 <= s' <= Z.max 0 (k + 1 - 3))
      by (subst s';
          match goal with |- context [if ?c then _ else _] => destruct c end;
          lia).
    specialize (IH (k + 1) s' e' ltac:(lia) Hs'). lia.
Qed.

(** In a laid-out column the high end is the last page after the loop:
    once an element lies below the band, every later one does, so the
    last element sets [endIndex] last. *)
Lemma forEach_end (n : Z) (m : Measure) (rest : list Rect) :
  forall (k s e : Z),
    k + Z.of_nat (List.length rest) = n ->
    topsAscend rest ->
    e = n - 1 \/ (rest <> [] /\ Forall (fun r => below m r = true) rest) ->
    snd (forEach n m k rest (s, e)) = n - 1.
Proof.
  induction rest as [| r rest IH]; intros k s e Hlen Hasc Hinv.
  - cbn [forEach snd]. destruct Hinv as [He | [Hne _]]; [ exact He | congruence ].
  - cbn [forEach]. unfold visit. fold (below m r).
    set (s' := if JS.ltb _ _ then Z.max 0 (k - 2) else s).
    cbn [List.length] in Hlen. rewrite Nat2Z.inj_succ in Hlen.
    destruct Hasc as [Hr Hasc].
    apply IH; [ lia | exact Hasc | ].
    destruct (below m r) eqn:Hb.
    + destruct rest as [| r' rest'].
      * left. cbn [List.length] in Hlen. change (Z.of_nat 0) with 0 in Hlen. lia.
      * right. split; [ discriminate | ].
        eapply Forall_impl; [ | exact Hr ].
        intros r'' Hle. cbn beta in Hle. now apply (below_later m r r'').
    + destruct Hinv as [He | [_ Hall]]; [ left; exact He | ].
      inversion Hall; subst. congruence.
Qed.

Lemma updateVisibleRange_laidOut (n : Z) (m : Measure) :
  laidOut n m ->
  0 <= start (updateVisibleRange n m) <= Z.max 0 (n - 5)
  /\ end_ (updateVisibleRange n m) = n - 1.
Proof.
  intros (Hlen & Hn & Hasc). unfold updateVisibleRange.
  pose proof (forEach_start n m (pageElements m) 0 0 (n - 1)
                ltac:(lia) ltac:(lia)) as Hs.
  pose proof (forEach_end n m (pageElements m) 0 0 (n - 1)
                ltac:(lia) Hasc (or_introl eq_refl)) as He.
  destruct (forEach n m 0 (pageElements m) (0, n - 1)) as [s e].
  cbn [fst snd] in Hs, He. cbn [start end_]. lia.
Qed.

Lemma recompute_laidOut (n : Z) (m : Measure) (r : Range) :
  laidOut n m -> recompute n (Some m) r = updateVisibleRange n m.
Proof.
  intros (_ & Hn & _). unfold recompute.
  destruct (n =? 0) eqn:E; [ apply Z.eqb_eq in E; lia | reflexivity ].
Qed.

(** A column of pages seen at any scroll position is laid out. *)
Lemma column_tops (gap : Q) (heights : list Q) :
  (0 <= gap)%Q -> Forall (fun h => (0 <= h)%Q) heights ->
  forall y, Forall (fun r => (y <= top r)%Q) (column y gap heights)
            /\ topsAscend (column y gap heights).
Proof.
  intros Hgap Hh. induction Hh as [| h rest Hh0 _ IH]; intros y.
  - split; constructor.
  - cbn [column topsAscend]. destruct (IH (y + h + gap)%Q) as [Hall Hasc].
    assert (Hrest : Forall (fun r => (y <= top r)%Q) (column (y + h + gap) gap rest)).
    { eapply Forall_impl; [ | exact Hall ]. cbn beta. intros; lra. }
    split; [ constructor; [ cbn; lra | exact Hrest ] | ].
    split; [ exact Hrest | exact Hasc ].
Qed.

Lemma column_length (gap : Q) (heights : list Q) :
  forall y, List.length (column y gap heights) = List.length heights.
Proof.
  induction heights as [| h rest IH]; intros y; cbn; [ | rewrite IH ]; reflexivity.
Qed.

Lemma scrolled_laidOut (containerTop containerHeight scrollTop gap : Q)
      (heights : list Q) :
  (0 <= gap)%Q -> Forall (fun h => (0 <= h)%Q) heights -> heights <> [] ->
  laidOut (Z.of_nat (List.length heights))
          (scrolled containerTop containerHeight scrollTop gap heights).
Proof.
  intros Hgap Hh Hne. unfold laidOut, scrolled; cbn.
  rewrite column_length. split; [ reflexivity | ].
  split; [ destruct heights; [ congruence | cbn; lia ] | ].
  now apply column_tops.
Qed.

(** Why the elements are taken in document order: over elements that are
    not, the range can come out empty. *)
Lemma outOfOrder_range_is_empty :
  updateVisibleRange 10 outOfOrder = mkRange 5 4.
Proof. reflexivity. Qed.

(** C3, as the claim states it, fails: in a viewer of three pages the
    state before the first recomputation is the range from 0 to 5, whose
    end is beyond the last index 2. *)
Lemma initial_range_out_of_bounds :
  reachable 3 initialRange /\ ~ inBounds 3 initialRange.
Proof.
  split; [ left; reflexivity | ].
  unfold inBounds, initialRange; cbn. lia.
Qed.

(** C3, amended: every state of the visible range that follows a
    recomputation (the one on mount, then any sequence of scroll-driven
    ones) over page elements laid out in document order, one per page,
    satisfies 0 <= start <= end <= pageCount - 1, and end - start >= 4 when
    pageCount >= 5.  The state before the first recomputation is left
    out. *)
Theorem visible_range_invariant (pageCount : Z) (r : Range) :
  recomputed pageCount r ->
  inBounds pageCount r /\ buffered pageCount r.
Proof.
  intros Hr.
  assert (Hlast : forall r0 m, laidOut pageCount m ->
            inBounds pageCount (recompute pageCount (Some m) r0)
            /\ buffered pageCount (recompute pageCount (Some m) r0)).
  { intros r0 m Hm. rewrite (recompute_laidOut _ _ _ Hm).
    pose proof (updateVisibleRange_laidOut _ _ Hm) as [Hs He].
    destruct Hm as (_ & Hn & _).
    unfold inBounds, buffered. lia. }
  destruct Hr as [m Hm | r m _ Hm]; now apply Hlast.
Qed.

Lemma visible_range_invariant_witness :
  let r := recompute 10 (Some tenPages) initialRange in
  r = mkRange 2 9 /\ inBounds 10 r /\ buffered 10 r.
Proof.
  split; [ reflexivity | ].
  apply (visible_range_invariant 10).
  apply recomputed_on_mount.
  apply (scrolled_laidOut 0 600 7000 10 (repeat 800%Q 10)).
  - lra.
  - repeat constructor; lra.
  - discriminate.
Defined.

End PDFPagesProofs.

(** ** Page tracking in exact arithmetic *)

Module PageTrackingProofs.

Import UsePageTracking JSProofs.

Section Recomputation.

Variable m : Measure.

(** The visible part of an element is no taller than the element. *)
Lemma visible_part_le_height (el : PageElement) :
  (JS.Math_min (elementBottom m el) (containerTop m + containerHeight m)
   - JS.Math_max (elementTop m el) (containerTop m) <= rect_height el)%Q.
Proof.
  unfold JS.Math_min, JS.Math_max, elementBottom.
  pose proof (Q.le_min_l (elementTop m el + rect_height el)
                         (containerTop m + containerHeight m)).
  pose proof (Q.le_max_l (elementTop m el) (containerTop m)).
  lra.
Qed.

(** A visibility ratio lies between 0 and 1. *)
Lemma visibility_range (el : PageElement) :
  (0 <= visibility m el <= 1)%Q.
Proof.
  unfold visibility. cbv zeta.
  pose proof (visible_part_le_height el) as Hle.
  set (d := (JS.Math_min (elementBottom m el) (containerTop m + containerHeight m)
             - JS.Math_max (elementTop m el) (containerTop m))%Q) in *.
  clearbody d. unfold JS.Math_max.
  destruct (Qlt_le_dec 0 (rect_height el)) as [Hpos | Hneg].
  - assert (H0 : (0 <= Qmax 0 d)%Q) by apply Q.le_max_l.
    assert (H1 : (Qmax 0 d <= rect_height el)%Q)
      by (apply Q.max_lub; lra).
    split.
    + apply Qle_shift_div_l; [ exact Hpos | lra ].
    + apply Qle_shift_div_r; [ exact Hpos | lra ].
  - assert (E : (Qmax 0 d == 0)%Q) by (apply Q.max_l; lra).
    rewrite E. unfold Qdiv. rewrite Qmult_0_l. lra.
Qed.

Lemma visit_center (acc : Z * Q) (el : PageElement) :
  containsCenter m el = true -> visit m acc el = (pageNumber el, 1%Q).
Proof.
  intros Hc. unfold visit. destruct acc as [p r].
  destruct (JS.ltb r (visibility m el)); rewrite Hc; reflexivity.
Qed.

Lemma visit_offCenter (p : Z) (r : Q) (el : PageElement) :
  containsCenter m el = false ->
  visit m (p, r) el
  = if JS.ltb r (visibility m el) then (pageNumber el, visibility m el)
    else (p, r).
Proof.
  intros Hc. unfold visit.
  destruct (JS.ltb r (visibility m el)); rewrite Hc; reflexivity.
Qed.

(** After an element that contains the center, elements that do not
    contain it leave the winner alone. *)
Lemma fold_after_center (post : list PageElement) (p : Z) :
  Forall (offCenter m) post ->
  fold_left (visit m) post (p, 1%Q) = (p, 1%Q).
Proof.
  induction 1 as [| el post Hel _ IH]; [ reflexivity | ].
  cbn [fold_left]. rewrite (visit_offCenter _ _ _ Hel).
  assert (E : JS.ltb 1 (visibility m el) = false)
    by (apply ltb_false; apply visibility_range).
  rewrite E. exact IH.
Qed.

(** Over elements none of which contains the center, the loop keeps the
    greatest ratio seen and the page it belongs to. *)
Lemma fold_offCenter (l : list PageElement) :
  Forall (offCenter m) l ->
  forall (p0 : Z) (r0 : Q),
    let w := fold_left (visit m) l (p0, r0) in
    (r0 <= snd w)%Q
    /\ (forall el, In el l -> (visibility m el <= snd w)%Q)
    /\ (w = (p0, r0)
        \/ exists el, In el l /\ pageNumber el = fst w
                      /\ visibility m el = snd w).
Proof.
  induction 1 as [| el l Hel _ IH]; intros p0 r0; cbn zeta.
  - cbn [fold_left snd]. split; [ lra | split; [ intros el [] | now left ] ].
  - cbn [fold_left]. rewrite (visit_offCenter _ _ _ Hel).
    destruct (JS.ltb r0 (visibility m el)) eqn:E.
    + apply ltb_true in E.
      destruct (IH (pageNumber el) (visibility m el)) as (H1 & H2 & H3).
      cbn [snd] in H1.
      split; [ lra | split ].
      * intros el' [<- | Hin]; [ exact H1 | now apply H2 ].
      * right. destruct H3 as [-> | (el' & Hin & Hp & Hv)].
        -- exists el. cbn. auto.
        -- exists el'. cbn [In]. auto.
    + apply ltb_false in E.
      destruct (IH p0 r0) as (H1 & H2 & H3). cbn [snd] in H1.
      split; [ exact H1 | split ].
      * intros el' [<- | Hin]; [ lra | now apply H2 ].
      * destruct H3 as [-> | (el' & Hin & Hp & Hv)]; [ now left | right ].
        exists el'. cbn [In]. auto.
Qed.

Lemma winner_center (pre post : list PageElement) (el : PageElement) :
  pageElements m = pre ++ el :: post ->
  containsCenter m el = true ->
  Forall (offCenter m) post ->
  winner m = (pageNumber el, 1%Q).
Proof.
  intros Hsplit Hc Hpost. unfold winner. rewrite Hsplit.
  rewrite fold_left_app. cbn [fold_left].
  rewrite (visit_center _ _ Hc). now apply fold_after_center.
Qed.

End Recomputation.

(** The recomputation in exact arithmetic, with a container and a non-zero
    page count.
    - Every visibility ratio lies in [0, 1], so the ratio 1 given to a page
      that contains the center is maximal.
    - If some element contains the center of the visible band, the winner
      is the page of the last such element, with ratio 1, whatever the
      ratios are.
    - If no element contains the center, the winning ratio is the greatest
      visibility ratio, and the winner is a page that has it (page 1 with
      ratio 0 when no page is visible at all).
    - [onPageChange] is called, with the winner, exactly when the winner
      differs from the last reported page and its ratio is at least the
      threshold; [lastPageRef] then becomes the winner, and otherwise
      nothing changes. *)
Theorem page_tracking_winner (m : Measure) (totalPages : Z) (threshold : Q)
        (t : Tracker) :
  totalPages <> 0 ->
  (forall el, 0 <= visibility m el <= 1)%Q
  /\ (forall pre el post,
         pageElements m = pre ++ el :: post ->
         containsCenter m el = true ->
         Forall (offCenter m) post ->
         winner m = (pageNumber el, 1%Q))
  /\ (Forall (offCenter m) (pageElements m) ->
      (forall el, In el (pageElements m) ->
                  (visibility m el <= snd (winner m))%Q)
      /\ (winner m = (1, 0%Q)
          \/ exists el, In el (pageElements m)
                        /\ pageNumber el = fst (winner m)
                        /\ visibility m el = snd (winner m)))
  /\ (let t' := calculateVisiblePage (Some m) totalPages threshold t in
      ((threshold <= snd (winner m))%Q /\ fst (winner m) <> lastPageRef t ->
       notified t' = notified t ++ [fst (winner m)]
       /\ lastPageRef t' = fst (winner m))
      /\ (~ ((threshold <= snd (winner m))%Q /\ fst (winner m) <> lastPageRef t) ->
          t' = t)).
Proof.
  intros Hpages.
  split; [ apply visibility_range | ].
  split; [ intros pre el post; apply winner_center | ].
  split.
  - intros Hoff.
    destruct (fold_offCenter m (pageElements m) Hoff 1 0%Q) as (_ & H2 & H3).
    split; [ exact H2 | exact H3 ].
  - cbn zeta. unfold calculateVisiblePage.
    destruct (totalPages =? 0) eqn:E; [ apply Z.eqb_eq in E; congruence | ].
    destruct (winner m) as [page ratio]. cbn [fst snd].
    destruct (JS.leb threshold ratio) eqn:Hthr;
      destruct (page =? lastPageRef t) eqn:Hpage; cbn [andb negb].
    + apply Z.eqb_eq in Hpage.
      split; [ intros [_ Hne]; congruence | reflexivity ].
    + apply Z.eqb_neq in Hpage. apply leb_true in Hthr.
      split; [ intros _; split; reflexivity | intros Hn; exfalso; apply Hn; auto ].
    + split; [ intros [Hle _]; apply leb_true in Hle; congruence | reflexivity ].
    + split; [ intros [Hle _]; apply leb_true in Hle; congruence | reflexivity ].
Qed.

Lemma page_tracking_winner_witness :
  let t' := calculateVisiblePage (Some threePagesAtThird) 5 defaultThreshold
                                 initialTracker in
  winner threePagesAtThird = (3, 1%Q) /\ notified t' = [3] /\ lastPageRef t' = 3.
Proof.
  destruct (page_tracking_winner threePagesAtThird 5 defaultThreshold
              initialTracker ltac:(discriminate)) as (_ & Hc & _ & Hn & _).
  cbn zeta.
  assert (Hw : winner threePagesAtThird = (3, 1%Q)).
  { apply (Hc [mkPageElement 1 (-1620) 800; mkPageElement 2 (-810) 800]
              (mkPageElement 3 0 800) [mkPageElement 4 810 800]).
    - reflexivity.
    - reflexivity.
    - repeat constructor. }
  split; [ exact Hw | ].
  rewrite Hw in Hn. cbn [fst snd] in Hn.
  apply Hn. split; [ unfold defaultThreshold; lra | discriminate ].
Defined.

End PageTrackingProofs.

(** ** Source classification *)

Module ParseSourceProofs.

Import ParseSource.

Section WithURL.

Variable URL_parses : string -> bool.

Lemma parseSource_string (s : string) :
  parseSource URL_parses (VString s)
  = inl (mkParsed (if isBase64DataUri s then base64 else url) (DataString s)).
Proof.
  cbn. destruct (isBase64DataUri s); [ reflexivity | ].
  destruct (isUrl URL_parses s); reflexivity.
Qed.

(** C10: [parseSource] returns for every string: a string that starts
    with one of the two base64 data-URI prefixes is classified [base64],
    every other string is classified [url], whether or not it parses as a
    URL; and [parseSource] throws exactly when its argument is neither a
    string, nor a [Uint8Array], nor an [ArrayBuffer], the error being
    'Invalid PDF source type'. *)
Theorem parseSource_total_on_strings :
  (forall s, exists parsed, parseSource URL_parses (VString s) = inl parsed)
  /\ (forall s,
         String.prefix "data:application/pdf;base64," s = true
         \/ String.prefix "data:application/octet-stream;base64," s = true ->
         parseSource URL_parses (VString s)
         = inl (mkParsed base64 (DataString s)))
  /\ (forall s,
         String.prefix "data:application/pdf;base64," s = false ->
         String.prefix "data:application/octet-stream;base64," s = false ->
         parseSource URL_parses (VString s)
         = inl (mkParsed url (DataString s)))
  /\ (forall src,
         (exists err, parseSource URL_parses src = inr err)
         <-> ~ isString src /\ ~ isUint8Array src /\ ~ isArrayBuffer src)
  /\ (forall src err,
         parseSource URL_parses src = inr err ->
         err = newError "Invalid PDF source type").
Proof.
  split; [ intros s; rewrite parseSource_string; eauto | ].
  split.
  { intros s Hpre. rewrite parseSource_string.
    unfold isBase64DataUri, JS.startsWith.
    destruct Hpre as [-> | ->]; [ reflexivity | ].
    now rewrite orb_true_r. }
  split.
  { intros s H1 H2. rewrite parseSource_string.
    unfold isBase64DataUri, JS.startsWith. now rewrite H1, H2. }
  split.
  { intros src; split.
    - intros [err Herr].
      repeat split; intros [x ->]; [ rewrite parseSource_string in Herr | | ];
        discriminate.
    - intros (Hs & Hu & Ha).
      destruct src; try (eexists; reflexivity).
      + exfalso; apply Hs; eexists; reflexivity.
      + exfalso; apply Hu; eexists; reflexivity.
      + exfalso; apply Ha; eexists; reflexivity. }
  intros src err H.
  destruct src; try (rewrite parseSource_string in H); cbn in H; congruence.
Qed.

End WithURL.

Lemma parseSource_total_on_strings_witness :
  parseSource (fun _ => false) (VString "not a url")
  = inl (mkParsed url (DataString "not a url"))
  /\ parseSource (fun _ => false) (VString "data:application/pdf;base64,JVBERi0x")
     = inl (mkParsed base64 (DataString "data:application/pdf;base64,JVBERi0x"))
  /\ parseSource (fun _ => true) (VNumber 123)
     = inr (newError "Invalid PDF source type").
Proof.
  destruct (parseSource_total_on_strings (fun _ => false)) as (_ & Hb & Hu & _).
  destruct (parseSource_total_on_strings (fun _ => true)) as (_ & _ & _ & Ht & He).
  split; [ apply Hu; reflexivity | ].
  split; [ apply Hb; left; reflexivity | ].
  destruct (proj2 (Ht (VNumber 123))) as [err Herr].
  - repeat split; intros [x Hx]; discriminate.
  - rewrite Herr. f_equal. exact (He _ _ Herr).
Defined.

End ParseSourceProofs.

(** ** The document lifecycle *)

Module UsePDFDocumentProofs.

Import ParseSource UsePDFDocument.

Section WithEngine.

Variable URL_parses : string -> bool.
Variable getDocument : ParsedSource -> LoadingTask + Error.
Variable cb : Callbacks.

Lemma versionRef_abortLoadingTask (h : Hook) :
  versionRef (abortLoadingTask h) = versionRef h.
Proof. unfold abortLoadingTask; destruct (loadingTaskRef h); reflexivity. Qed.

Lemma versionRef_destroyDocument (h : Hook) :
  versionRef (destroyDocument h) = versionRef h.
Proof. unfold destroyDocument; destruct (documentRef h); reflexivity. Qed.

Lemma versionRef_call (b : bool) (ef : Effect) (h : Hook) :
  versionRef (call b ef h) = versionRef h.
Proof. destruct b; reflexivity. Qed.

(** A load of a source that is not falsy advances the version by one. *)
Lemma load_advances_version (src : Value) (h : Hook) :
  truthy src = true ->
  versionRef (load URL_parses getDocument cb src h) = versionRef h + 1.
Proof.
  intros Ht. unfold load. rewrite Ht. cbn [negb].
  destruct (loadDocument URL_parses getDocument src); cbn [versionRef];
    rewrite ?versionRef_call; cbn [setState setError set_loadingTaskRef versionRef];
    rewrite ?versionRef_call; cbn [setState setError versionRef];
    rewrite versionRef_destroyDocument, versionRef_abortLoadingTask;
    reflexivity.
Qed.

(** A load of a falsy source (no source, or the empty string) leaves the
    version where it was. *)
Lemma load_falsy_keeps_version (src : Value) (h : Hook) :
  truthy src = false ->
  versionRef (load URL_parses getDocument cb src h) = versionRef h.
Proof. intros Ht. unfold load. rewrite Ht. reflexivity. Qed.

(** The settlement of an operation whose version is no longer current:
    a document it delivers is destroyed, and nothing else happens. *)
Lemma settle_stale (version : Z) (s : Settlement) (h : Hook) :
  version <> versionRef h ->
  settle cb version s h
  = match s with
    | Fulfilled doc _ => emit (DocumentDestroyed doc) h
    | Rejected _ => h
    end.
Proof.
  intros Hv. apply Z.eqb_neq in Hv.
  destruct s; cbn [settle]; unfold onFulfilled, onRejected; now rewrite Hv.
Qed.

(** The settlement that delivers a document to the current version
    publishes it. *)
Lemma fulfilled_current (doc : DocumentProxy) (docInfo : DocumentInfo) (h : Hook) :
  let h' := onFulfilled cb (versionRef h) doc docInfo h in
  published h' = (ready, Some doc, Some docInfo, error h)
  /\ documentRef h' = Some doc
  /\ versionRef h' = versionRef h
  /\ effects h'
     = effects h ++ (if onLoadSuccess cb then [LoadSuccess docInfo] else []).
Proof.
  cbn zeta. unfold onFulfilled. rewrite Z.eqb_refl. cbn [negb].
  destruct (onLoadSuccess cb); cbn; rewrite ?app_nil_r; auto.
Qed.

Lemma versionRef_settle (version : Z) (s : Settlement) (h : Hook) :
  versionRef (settle cb version s h) = versionRef h.
Proof.
  destruct s; cbn [settle]; unfold onFulfilled, onRejected;
    destruct (negb (version =? versionRef h)); try reflexivity.
  - now rewrite versionRef_call.
  - rewrite versionRef_call. cbn [setState setError versionRef].
    destruct (name err =? "PasswordException")%string;
      now rewrite ?versionRef_call.
Qed.

Lemma notifications_emit (ef : Effect) (h : Hook) :
  notifications (emit ef h)
  = notifications h ++ (if isNotification ef then [ef] else []).
Proof.
  unfold notifications; cbn [emit effects]. rewrite filter_app. cbn [filter].
  now destruct (isNotification ef).
Qed.

Lemma settle_stale_alike (version : Z) (s : Settlement) (h : Hook) :
  version <> versionRef h -> alike (settle cb version s h) h.
Proof.
  intros Hv. rewrite (settle_stale version s h Hv).
  destruct s; [ | repeat split ].
  repeat split. rewrite notifications_emit. cbn. now rewrite app_nil_r.
Qed.

(** A settlement acts alike on hooks that are alike. *)
Lemma settle_alike (version : Z) (s : Settlement) (h h' : Hook) :
  alike h h' -> alike (settle cb version s h) (settle cb version s h').
Proof.
  intros (Hv & Hp & Hn).
  destruct h as [st d i e lt dr v ef], h' as [st' d' i' e' lt' dr' v' ef'].
  unfold published in Hp; cbn in Hv, Hp. unfold notifications in Hn; cbn in Hn.
  injection Hp as -> -> -> ->. subst v'.
  destruct s as [doc docInfo | err]; cbn [settle];
    unfold onFulfilled, onRejected; cbn [versionRef];
    destruct (version =? v); cbn [negb].
  - destruct (onLoadSuccess cb); repeat split; cbn;
      unfold notifications; cbn; rewrite ?filter_app, ?Hn; reflexivity.
  - repeat split; unfold notifications; cbn; rewrite !filter_app, Hn; reflexivity.
  - destruct (name err =? "PasswordException")%string,
             (onPasswordRequired cb), (onLoadError cb);
      repeat split; cbn; unfold notifications; cbn;
      rewrite ?filter_app, ?Hn; reflexivity.
  - repeat split; assumption.
Qed.

Lemma alike_trans (h1 h2 h3 : Hook) : alike h1 h2 -> alike h2 h3 -> alike h1 h3.
Proof.
  intros (A1 & A2 & A3) (B1 & B2 & B3); repeat split; congruence.
Qed.

(** Stale settlements are invisible: whatever operations settle and in
    whatever order, what is published and which callbacks are called are
    what the settlements of the current version alone produce. *)
Lemma stale_settlements_are_invisible (events : list (Z * Settlement)) :
  forall h h' : Hook,
    alike h h' ->
    alike (settleAll cb events h)
          (settleAll cb (filter (ofVersion (versionRef h')) events) h').
Proof.
  unfold settleAll.
  induction events as [| [v s] events IH]; intros h h' Hal; [ exact Hal | ].
  cbn [fold_left filter fst snd]. unfold ofVersion at 1. cbn [fst].
  destruct (v =? versionRef h') eqn:E.
  - cbn [fold_left fst snd].
    rewrite <- (versionRef_settle v s h'). apply IH. now apply settle_alike.
  - apply IH. apply Z.eqb_neq in E.
    destruct Hal as (Hv & Hal). rewrite <- Hv in E.
    eapply alike_trans; [ apply settle_stale_alike; exact E | ].
    split; assumption.
Qed.

(** A document delivered to a version that is not current is destroyed. *)
Lemma stale_document_destroyed (events : list (Z * Settlement)) :
  forall (h : Hook) (v : Z) (doc : DocumentProxy) (docInfo : DocumentInfo),
    In (v, Fulfilled doc docInfo) events ->
    v <> versionRef h ->
    destroyed doc (settleAll cb events h).
Proof.
  assert (Hkeep : forall events h ef,
             In ef (effects h) -> In ef (effects (settleAll cb events h))).
  { clear. unfold settleAll.
    induction events as [| [v s] events IH]; intros h ef Hin; [ exact Hin | ].
    cbn [fold_left]. apply IH. cbn [fst snd].
    destruct s as [doc docInfo | err]; cbn [settle];
      unfold onFulfilled, onRejected.
    - destruct (negb (v =? versionRef h)); [ cbn; apply in_or_app; now left | ].
      destruct (onLoadSuccess cb); cbn; [ apply in_or_app; now left | exact Hin ].
    - destruct (negb (v =? versionRef h)); [ exact Hin | ].
      destruct (name err =? "PasswordException")%string,
               (onPasswordRequired cb), (onLoadError cb); cbn;
        rewrite <- ?app_assoc; try (apply in_or_app; now left); exact Hin. }
  unfold destroyed.
  induction events as [| [v' s'] events IH]; intros h v doc docInfo Hin Hv;
    [ destruct Hin | ].
  destruct Hin as [Heq | Hin].
  - injection Heq as -> ->. unfold settleAll. cbn [fold_left fst snd].
    apply Hkeep. rewrite (settle_stale v _ h Hv). cbn. apply in_or_app.
    right; now left.
  - unfold settleAll. cbn [fold_left fst snd].
    apply (IH (settle cb v' s' h) v doc docInfo Hin).
    now rewrite versionRef_settle.
Qed.

(** Two loads in a row, the second of a source that is not falsy: the
    first operation is stale from then on.  When it settles, the state
    an observer sees is untouched, no callback is called, and a document
    it delivers is destroyed; this holds before and after the second
    operation has delivered its own document, which is then the one
    published. *)
Lemma second_load_supersedes (src1 src2 : Value) (h0 : Hook)
      (s1 : Settlement) (doc2 : DocumentProxy) (info2 : DocumentInfo) :
  truthy src2 = true ->
  let h1 := load URL_parses getDocument cb src1 h0 in
  let v1 := versionRef h1 in
  let h2 := load URL_parses getDocument cb src2 h1 in
  let v2 := versionRef h2 in
  let stale h :=
      match s1 with
      | Fulfilled doc1 _ => emit (DocumentDestroyed doc1) h
      | Rejected _ => h
      end in
  v2 = v1 + 1
  /\ settle cb v1 s1 h2 = stale h2
  /\ settle cb v2 (Fulfilled doc2 info2) (settle cb v1 s1 h2)
     = onFulfilled cb v2 doc2 info2 (stale h2)
  /\ settle cb v1 s1 (settle cb v2 (Fulfilled doc2 info2) h2)
     = stale (onFulfilled cb v2 doc2 info2 h2)
  /\ document (settle cb v2 (Fulfilled doc2 info2) (settle cb v1 s1 h2))
     = Some doc2
  /\ document (settle cb v1 s1 (settle cb v2 (Fulfilled doc2 info2) h2))
     = Some doc2.
Proof.
  intros Ht. cbn zeta.
  set (h1 := load URL_parses getDocument cb src1 h0).
  set (h2 := load URL_parses getDocument cb src2 h1).
  assert (Hv : versionRef h2 = versionRef h1 + 1)
    by (apply load_advances_version; exact Ht).
  assert (Hstale : settle cb (versionRef h1) s1 h2
                   = match s1 with
                     | Fulfilled doc1 _ => emit (DocumentDestroyed doc1) h2
                     | Rejected _ => h2
                     end)
    by (apply settle_stale; lia).
  destruct (fulfilled_current doc2 info2 h2) as (Hpub & _ & Hver & _).
  assert (Hstale' : settle cb (versionRef h1) s1
                           (onFulfilled cb (versionRef h2) doc2 info2 h2)
                    = match s1 with
                      | Fulfilled doc1 _ =>
                        emit (DocumentDestroyed doc1)
                             (onFulfilled cb (versionRef h2) doc2 info2 h2)
                      | Rejected _ => onFulfilled cb (versionRef h2) doc2 info2 h2
                      end)
    by (apply settle_stale; rewrite Hver; lia).
  split; [ exact Hv | ].
  split; [ exact Hstale | ].
  split; [ rewrite Hstale; reflexivity | ].
  split; [ exact Hstale' | ].
  split.
  - rewrite Hstale. cbn [settle].
    destruct s1 as [doc1 info1 | err1].
    + change (versionRef h2) with (versionRef (emit (DocumentDestroyed doc1) h2)).
      now destruct (fulfilled_current doc2 info2 (emit (DocumentDestroyed doc1) h2))
        as (Hp & _); inversion Hp.
    + inversion Hpub; reflexivity.
  - cbn [settle] in *. rewrite Hstale'.
    destruct s1; cbn [emit document]; inversion Hpub; reflexivity.
Qed.

(** X12: a second load of a truthy source supersedes the first for any
    run of settlements after the two loads: the settlements of the first
    operation change neither what is published nor which callbacks are
    called, and every document the first operation delivers is
    destroyed. *)
Lemma second_load_supersedes_any_run (src1 src2 : Value) (h0 : Hook)
      (events : list (Z * Settlement)) :
  truthy src2 = true ->
  let h1 := load URL_parses getDocument cb src1 h0 in
  let h2 := load URL_parses getDocument cb src2 h1 in
  alike (settleAll cb events h2)
        (settleAll cb (filter (ofVersion (versionRef h2)) events) h2)
  /\ (forall doc docInfo,
         In (versionRef h1, Fulfilled doc docInfo) events ->
         destroyed doc (settleAll cb events h2)).
Proof.
  intros Ht. cbn zeta. split.
  - apply stale_settlements_are_invisible. repeat split.
  - intros doc docInfo Hin.
    apply (stale_document_destroyed events _ _ doc docInfo Hin).
    rewrite (load_advances_version src2 _ Ht). lia.
Qed.

(** C9: when the operation that fails is still current and the error is
    a [PasswordException], [onPasswordRequired] is called and the generic
    error path runs as for any other failure: the error is published,
    the state becomes 'error', and [onLoadError] is called with the
    error, after [onPasswordRequired]. *)
Theorem password_required_keeps_error_path (version : Z) (err : Error) (h : Hook) :
  version = versionRef h ->
  name err = "PasswordException"%string ->
  let h' := onRejected cb version err h in
  state h' = Types.error
  /\ UsePDFDocument.error h' = Some err
  /\ effects h'
     = effects h
       ++ (if onPasswordRequired cb then [PasswordRequired] else [])
       ++ (if onLoadError cb then [LoadError err] else [])
  /\ (onPasswordRequired cb = true -> onLoadError cb = true ->
      effects h' = effects h ++ [PasswordRequired; LoadError err])
  /\ document h' = document h
  /\ info h' = info h.
Proof.
  intros -> Hname. cbn zeta. unfold onRejected.
  rewrite Z.eqb_refl, Hname. cbn [negb String.eqb].
  replace ("PasswordException" =? "PasswordException")%string with true
    by (symmetry; apply String.eqb_refl).
  destruct (onPasswordRequired cb), (onLoadError cb); cbn;
    rewrite <- ?app_assoc, ?app_nil_r; repeat split; auto;
    intros; discriminate.
Qed.

End WithEngine.

(** C9 at a first load of a protected document. *)
Lemma password_required_keeps_error_path_witness :
  let h1 := load (fun _ => true) engine allCallbacks (VString "/secret.pdf")
                 initialHook in
  let h2 := onRejected allCallbacks 1 passwordException h1 in
  state h2 = Types.error
  /\ UsePDFDocument.error h2 = Some passwordException
  /\ effects h2 = [LoadStart; PasswordRequired; LoadError passwordException].
Proof.
  cbn zeta.
  destruct (password_required_keeps_error_path allCallbacks 1 passwordException
              (load (fun _ => true) engine allCallbacks (VString "/secret.pdf")
                    initialHook) eq_refl eq_refl)
    as (Hs & He & _ & Hf & _).
  split; [ exact Hs | split; [ exact He | ] ].
  rewrite (Hf eq_refl eq_refl). reflexivity.
Defined.

(** C1: a load that clears the source does not advance the version, so the
    operation it leaves behind is still taken for the current one.  After
    [load] of "/a.pdf", the source is cleared (the cleanup of the effect
    runs, then [load] with no source, or with the empty string): the hook
    is idle at version 1.  When the first operation then delivers document
    7, the document is published with state 'ready' and [onLoadSuccess] is
    called, and it is not destroyed; when instead the first operation
    fails, the state becomes 'error' and [onLoadError] is called. *)
Theorem cleared_source_publishes_stale_result :
  let run := load (fun _ => true) engine allCallbacks in
  let h1 := run (VString "/a.pdf") initialHook in
  let h2 := run VUndefined (cleanup h1) in
  let h3 := onFulfilled allCallbacks (versionRef h1) 7%nat fivePageInfo h2 in
  let h4 := onRejected allCallbacks (versionRef h1) loadingAborted h2 in
  (versionRef h1 = 1 /\ state h1 = loading)
  /\ (versionRef h2 = 1 /\ published h2 = (idle, None, None, None))
  /\ run (VString "") (cleanup h1) = h2
  /\ published h3 = (ready, Some 7%nat, Some fivePageInfo, None)
  /\ ~ destroyed 7%nat h3
  /\ effects h3 = [LoadStart; TaskDestroyed 1%nat; LoadSuccess fivePageInfo]
  /\ published h4 = (Types.error, None, None, Some loadingAborted)
  /\ effects h4 = [LoadStart; TaskDestroyed 1%nat; LoadError loadingAborted].
Proof.
  cbn zeta. repeat split; try reflexivity.
  unfold destroyed; cbn. intros [H | [H | [H | []]]]; discriminate.
Qed.

End UsePDFDocumentProofs.

(** ** Navigation and the scale under sequences of commands *)

Module CommandProofs.

Import PDFViewer Commands.

Lemma handlePageChange_fields (p : Props) (page : Z) (st : State) :
  ViewerState.currentPage (handlePageChange p page st) = page
  /\ currentScale (handlePageChange p page st) = currentScale st
  /\ currentRotation (handlePageChange p page st) = currentRotation st
  /\ effects (handlePageChange p page st)
     = effects st ++ (if onPageChange p then [OnPageChange page] else []).
Proof.
  unfold handlePageChange, emit_opt.
  destruct (onPageChange p); cbn; rewrite ?app_nil_r; auto.
Qed.

(** What [goToPage] does when there is a document with pages. *)
Lemma goToPage_loaded (p : Props) (e : Env) (d : Document) (page : Z) (st : State) :
  document e = Some d -> numPages d <> 0 ->
  let validPage := Z.max 1 (Z.min page (numPages d)) in
  let scrolls :=
      match container e with
      | Some c => hasPageElement c validPage
      | None => false
      end in
  goToPage p e page st
  = (if scrolls
     then emit (ScrollIntoView validPage) (handlePageChange p validPage st)
     else handlePageChange p validPage st).
Proof.
  intros Hd Hn. cbn zeta.
  unfold goToPage, run, UsePDFViewer.goToPage. cbn.
  unfold totalPages. rewrite Hd.
  destruct (numPages d =? 0) eqn:E; [ apply Z.eqb_eq in E; congruence | ].
  destruct (container e) as [c |]; [ | reflexivity ].
  destruct (hasPageElement c _); reflexivity.
Qed.

Lemma goToPage_currentPage (p : Props) (e : Env) (d : Document) (page : Z)
      (st : State) :
  document e = Some d -> numPages d <> 0 ->
  ViewerState.currentPage (goToPage p e page st)
  = Z.max 1 (Z.min page (numPages d)).
Proof.
  intros Hd Hn. rewrite (goToPage_loaded p e d page st Hd Hn).
  destruct (handlePageChange_fields p (Z.max 1 (Z.min page (numPages d))) st)
    as (Hp & _).
  destruct (match container e with Some c => _ | None => _ end); exact Hp.
Qed.

(** X1: with a document of at least one page, [goToPage(page)] commits
    max(1, min(page, numPages)): 1 for a page below 1, numPages for a page
    above numPages, the page itself for a page from 1 to numPages.
    [onPageChange] is called with the committed page, a scroll to its
    element is requested when the element exists, and scale and rotation
    are left alone. *)
Theorem goToPage_clamps (p : Props) (e : Env) (d : Document) (page : Z) (st : State) :
  document e = Some d ->
  1 <= numPages d ->
  let st' := goToPage p e page st in
  let validPage := Z.max 1 (Z.min page (numPages d)) in
  getCurrentPage p e st' = validPage
  /\ (page < 1 -> getCurrentPage p e st' = 1)
  /\ (numPages d < page -> getCurrentPage p e st' = numPages d)
  /\ (1 <= page <= numPages d -> getCurrentPage p e st' = page)
  /\ currentScale st' = currentScale st
  /\ currentRotation st' = currentRotation st
  /\ effects st'
     = effects st
       ++ (if onPageChange p then [OnPageChange validPage] else [])
       ++ (match container e with
           | Some c => if hasPageElement c validPage
                       then [ScrollIntoView validPage] else []
           | None => []
           end).
Proof.
  intros Hd Hn. cbn zeta.
  rewrite (goToPage_loaded p e d page st Hd) by lia.
  set (v := Z.max 1 (Z.min page (numPages d))).
  destruct (handlePageChange_fields p v st) as (Hp & Hs & Hr & He).
  assert (Hfields :
    forall st', ViewerState.currentPage st' = v ->
                currentScale st' = currentScale st ->
                currentRotation st' = currentRotation st ->
                getCurrentPage p e st' = v
                /\ (page < 1 -> getCurrentPage p e st' = 1)
                /\ (numPages d < page -> getCurrentPage p e st' = numPages d)
                /\ (1 <= page <= numPages d -> getCurrentPage p e st' = page)
                /\ currentScale st' = currentScale st
                /\ currentRotation st' = currentRotation st).
  { intros st' H1 H2 H3. unfold getCurrentPage, UsePDFViewer.getCurrentPage. cbn.
    rewrite H1. subst v. repeat split; auto; lia. }
  destruct (container e) as [c |].
  - destruct (hasPageElement c v).
    + destruct (Hfields (emit (ScrollIntoView v) (handlePageChange p v st)))
        as (A & C & D & E & F & G); auto.
      repeat split; auto; try lia.
      cbn [emit effects]. rewrite He. now rewrite <- app_assoc.
    + destruct (Hfields (handlePageChange p v st)) as (A & C & D & E & F & G); auto.
      repeat split; auto; try lia. rewrite He. now rewrite app_nil_r.
  - destruct (Hfields (handlePageChange p v st)) as (A & C & D & E & F & G); auto.
    repeat split; auto; try lia. rewrite He. now rewrite app_nil_r.
Qed.

Lemma goToPage_clamps_witness :
  getCurrentPage (props (ScaleNumber 1) false) (mounted 800 600)
                 (goToPage (props (ScaleNumber 1) false) (mounted 800 600) 9
                           (mkState 2 1 0 true [])) = 5
  /\ effects (goToPage (props (ScaleNumber 1) false) (mounted 800 600) 0
                       (mkState 2 1 0 true []))
     = [OnPageChange 1; ScrollIntoView 1].
Proof.
  split.
  - destruct (goToPage_clamps (props (ScaleNumber 1) false) (mounted 800 600)
                letter 9 (mkState 2 1 0 true []) eq_refl)
      as (_ & _ & H & _); [ cbn; lia | ].
    apply H. cbn; lia.
  - destruct (goToPage_clamps (props (ScaleNumber 1) false) (mounted 800 600)
                letter 0 (mkState 2 1 0 true []) eq_refl)
      as (_ & _ & _ & _ & _ & _ & H); [ cbn; lia | ].
    rewrite H. reflexivity.
Defined.

Lemma nextPage_eq (p : Props) (e : Env) (st : State) :
  nextPage p e st
  = if ViewerState.currentPage st <? totalPages e
    then goToPage p e (ViewerState.currentPage st + 1) st
    else st.
Proof. reflexivity. Qed.

Lemma previousPage_eq (p : Props) (e : Env) (st : State) :
  previousPage p e st
  = if 1 <? ViewerState.currentPage st
    then goToPage p e (ViewerState.currentPage st - 1) st
    else st.
Proof. reflexivity. Qed.

Lemma goToPage_on_handle (p : Props) (e : Env) (d : Document) (page : Z)
      (st st' : State) :
  document e = Some d -> numPages d <> 0 ->
  ViewerState.currentPage
    (UsePDFViewer.goToPage (viewerOptions p e st) page st')
  = Z.max 1 (Z.min page (numPages d)).
Proof.
  intros Hd Hn. unfold UsePDFViewer.goToPage. cbn.
  unfold totalPages. rewrite Hd.
  destruct (numPages d =? 0) eqn:E; [ apply Z.eqb_eq in E; congruence | ].
  destruct (handlePageChange_fields p (Z.max 1 (Z.min page (numPages d))) st')
    as (Hp & _).
  destruct (container e) as [c |]; [ | exact Hp ].
  destruct (hasPageElement c _); exact Hp.
Qed.

(** X2: with a document loaded, let [c] be the page of the render a handle
    belongs to.  [nextPage] on the last page (or beyond) and [previousPage]
    on the first (or below) leave the state as it is.  For c from 1 to
    numPages - 1, [nextPage] commits c + 1.  [previousPage] called after it
    on the same handle reads the same [c]: it leaves c - 1 when c is
    greater than 1, and leaves c + 1 when c is 1.  [previousPage] called on
    the handle of a render that shows the page [nextPage] committed brings
    the page back to [c].  In [PDFViewer] the effect "update page from
    prop" runs after the render, and leaves the page of the [page] prop
    whenever that prop lies within 1..numPages. *)
Theorem nextPage_previousPage (p : Props) (e : Env) (d : Document) (st : State) :
  document e = Some d ->
  let c := ViewerState.currentPage st in
  let o := viewerOptions p e st in
  (1 <= c < numPages d ->
   getCurrentPage p e (nextPage p e st) = c + 1
   /\ ViewerState.currentPage
        (UsePDFViewer.previousPage o (UsePDFViewer.nextPage o st))
      = (if 1 <? c then c - 1 else c + 1)
   /\ getCurrentPage p e (previousPage p e (nextPage p e st)) = c
   /\ (1 <= pageProp p <= numPages d ->
       ViewerState.currentPage (syncPageEffect p e (nextPage p e st))
       = pageProp p))
  /\ (numPages d <= c -> nextPage p e st = st)
  /\ (c <= 1 -> previousPage p e st = st).
Proof.
  intros Hd. cbv zeta.
  assert (Htot : totalPages e = numPages d) by (unfold totalPages; now rewrite Hd).
  split; [ | split ].
  - intros Hrange.
    assert (Hnext : getCurrentPage p e (nextPage p e st)
                    = ViewerState.currentPage st + 1).
    { rewrite nextPage_eq, Htot.
      destruct (ViewerState.currentPage st <? numPages d) eqn:E;
        [ | apply Z.ltb_ge in E; lia ].
      unfold getCurrentPage, UsePDFViewer.getCurrentPage. cbn.
      rewrite (goToPage_currentPage p e d _ st Hd); lia. }
    assert (Hcur : ViewerState.currentPage (nextPage p e st)
                   = ViewerState.currentPage st + 1) by exact Hnext.
    split; [ exact Hnext | split; [ | split ] ].
    + unfold UsePDFViewer.previousPage, UsePDFViewer.nextPage.
      cbn [viewerOptions UsePDFViewer.currentPage UsePDFViewer.totalPages].
      rewrite Htot.
      destruct (ViewerState.currentPage st <? numPages d) eqn:E;
        [ | apply Z.ltb_ge in E; lia ].
      destruct (1 <? ViewerState.currentPage st) eqn:E1.
      * apply Z.ltb_lt in E1.
        rewrite (goToPage_on_handle p e d _ st _ Hd) by lia. lia.
      * rewrite (goToPage_on_handle p e d _ st st Hd) by lia. lia.
    + rewrite previousPage_eq, Hcur.
      destruct (1 <? ViewerState.currentPage st + 1) eqn:E;
        [ | apply Z.ltb_ge in E; lia ].
      unfold getCurrentPage, UsePDFViewer.getCurrentPage. cbn.
      rewrite (goToPage_currentPage p e d _ (nextPage p e st) Hd); lia.
    + intros Hprop. unfold syncPageEffect. rewrite Htot.
      destruct (pageProp p =? ViewerState.currentPage (nextPage p e st)) eqn:E;
        cbn [negb andb].
      * apply Z.eqb_eq in E. congruence.
      * destruct (1 <=? pageProp p) eqn:E1; [ | apply Z.leb_gt in E1; lia ].
        destruct (pageProp p <=? numPages d) eqn:E2;
          [ | apply Z.leb_gt in E2; lia ].
        reflexivity.
  - intros Hlast. rewrite nextPage_eq, Htot.
    destruct (ViewerState.currentPage st <? numPages d) eqn:E;
      [ apply Z.ltb_lt in E; lia | reflexivity ].
  - intros Hfirst. rewrite previousPage_eq.
    destruct (1 <? ViewerState.currentPage st) eqn:E;
      [ apply Z.ltb_lt in E; lia | reflexivity ].
Qed.

Lemma nextPage_previousPage_witness :
  let p := props (ScaleNumber 1) false in
  let st := mkState 4 1 0 true [] in
  getCurrentPage p (mounted 800 600)
    (previousPage p (mounted 800 600) (nextPage p (mounted 800 600) st)) = 4
  /\ ViewerState.currentPage
       (UsePDFViewer.previousPage (viewerOptions p (mounted 800 600) st)
          (UsePDFViewer.nextPage (viewerOptions p (mounted 800 600) st) st)) = 3
  /\ ViewerState.currentPage
       (syncPageEffect p (mounted 800 600) (nextPage p (mounted 800 600) st)) = 1
  /\ nextPage p (mounted 800 600) (mkState 5 1 0 true []) = mkState 5 1 0 true [].
Proof.
  cbv zeta.
  destruct (nextPage_previousPage (props (ScaleNumber 1) false) (mounted 800 600)
              letter (mkState 4 1 0 true []) eq_refl) as (H & _).
  destruct (nextPage_previousPage (props (ScaleNumber 1) false) (mounted 800 600)
              letter (mkState 5 1 0 true []) eq_refl) as (_ & H' & _).
  destruct H as (_ & Hsame & Hback & Hprop); [ cbn; lia | ].
  split; [ exact Hback | split; [ exact Hsame | split ] ].
  - apply Hprop. cbn. lia.
  - apply H'. cbn. lia.
Defined.

(** X3: without a document, [goToPage], [nextPage] and [previousPage] do
    nothing, whatever the page asked for and whatever the current page. *)
Theorem navigation_needs_document (p : Props) (e : Env) (page : Z) (st : State) :
  document e = None ->
  goToPage p e page st = st
  /\ nextPage p e st = st
  /\ previousPage p e st = st.
Proof.
  intros Hd.
  assert (Hgo : forall n, goToPage p e n st = st)
    by (intros n; unfold goToPage, run, UsePDFViewer.goToPage; cbn; now rewrite Hd).
  split; [ apply Hgo | split ].
  - rewrite nextPage_eq. destruct (_ <? _); [ apply Hgo | reflexivity ].
  - rewrite previousPage_eq. destruct (_ <? _); [ apply Hgo | reflexivity ].
Qed.

Lemma navigation_needs_document_witness :
  goToPage (props (ScaleNumber 1) false) (mkEnv None None) 3
           (mkState 1 1 0 false []) = mkState 1 1 0 false [].
Proof.
  apply (navigation_needs_document (props (ScaleNumber 1) false)
           (mkEnv None None) 3 (mkState 1 1 0 false []) eq_refl).
Defined.

End CommandProofs.

(** ** Scales: bounds, policies and the initial calculation *)

Module ScaleProofs.

Import PDFViewer Commands.

Lemma handleScaleChange_scale (p : Props) (s : Q) (st : State) :
  currentScale (handleScaleChange p s st)
  = if enableZoom p then s else currentScale st.
Proof.
  unfold handleScaleChange, emit_opt.
  destruct (enableZoom p); cbn; [ | reflexivity ].
  destruct (onScaleChange p); reflexivity.
Qed.

(** X5: with zoom enabled, [setScale(x)] for a number commits
    max(0.1, min(x, 10)) and reports it to [onScaleChange]: a number within
    the bounds is committed as it is, and a second [setScale(x)] changes
    neither the scale nor anything but the log of callbacks. *)
Theorem setScale_number_commits_clamp (p : Props) (e : Env) (x : Q) (st : State) :
  enableZoom p = true ->
  let st' := setScale p e (ScaleNumber x) st in
  (getCurrentScale p e st' = clamp x 0.1 10
   /\ (0.1 <= x <= 10 -> getCurrentScale p e st' == x)
   /\ (x <= 0.1 -> getCurrentScale p e st' == 0.1)
   /\ (10 <= x -> getCurrentScale p e st' == 10)
   /\ getCurrentScale p e (setScale p e (ScaleNumber x) st')
      = getCurrentScale p e st'
   /\ effects st'
      = effects st
        ++ (if onScaleChange p then [OnScaleChange (clamp x 0.1 10)] else [])
   /\ ViewerState.currentPage st' = ViewerState.currentPage st
   /\ currentRotation st' = currentRotation st)%Q.
Proof.
  intros Hz. cbn zeta.
  assert (Hst : setScale p e (ScaleNumber x) st
                = handleScaleChange p (clamp x 0.1 10) st).
  { unfold setScale, run, UsePDFViewer.setScale. cbn. now rewrite Hz. }
  assert (Hst2 : forall st0, getCurrentScale p e (setScale p e (ScaleNumber x) st0)
                             = clamp x 0.1 10).
  { intros st0. unfold getCurrentScale, UsePDFViewer.getCurrentScale, setScale, run,
      UsePDFViewer.setScale. cbn. rewrite Hz. cbn.
    now rewrite handleScaleChange_scale, Hz. }
  rewrite !Hst2. rewrite Hst.
  split; [ reflexivity | ].
  split; [ intros [Hlo Hhi]; unfold clamp;
           rewrite (Q.min_l x 10 Hhi); now apply Q.max_r | ].
  split; [ intros Hlo; unfold clamp; apply Q.max_l;
           apply Q.min_le_iff; now left | ].
  split; [ intros Hhi; unfold clamp; rewrite (Q.min_r x 10 Hhi);
           apply Q.max_r; lra | ].
  split; [ reflexivity | ].
  unfold handleScaleChange, emit_opt. rewrite Hz. cbn.
  destruct (onScaleChange p); cbn; rewrite ?app_nil_r; auto.
Qed.

Lemma setScale_number_commits_clamp_witness :
  (getCurrentScale (props (ScaleNumber 1) true) (mounted 800 600)
     (setScale (props (ScaleNumber 1) true) (mounted 800 600) (ScaleNumber 2.5)
               (mkState 1 1 0 true [])) == 2.5)%Q.
Proof.
  destruct (setScale_number_commits_clamp (props (ScaleNumber 1) true)
              (mounted 800 600) 2.5 (mkState 1 1 0 true []) eq_refl)
    as (_ & H & _).
  apply H. split; lra.
Defined.

(** X6: [setScale] of a named value and [calculateInitialScale] resolve
    the four names alike: with zoom enabled, a container and a document,
    [setScale(name)] commits the clamp of what [calculateInitialScale]
    returns for the same name, the client size of the container and the
    viewport of page 1 at the current rotation. *)
Theorem setScale_named_agrees_with_initial (p : Props) (e : Env) (c : Container)
        (d : Document) (n : ScaleName) (st : State) :
  enableZoom p = true ->
  container e = Some c ->
  document e = Some d ->
  let viewport := getPage1Viewport d (currentRotation st) in
  currentScale (setScale p e (ScaleNamed n) st)
  = clamp (calculateInitialScale (ScaleNamed n) (clientWidth c) (clientHeight c)
                                 (width viewport) (height viewport))
          UsePDFViewer.MIN_SCALE UsePDFViewer.MAX_SCALE.
Proof.
  intros Hz Hc Hd. cbn zeta.
  unfold setScale, run, UsePDFViewer.setScale. cbn.
  rewrite Hz, Hc, Hd. cbn.
  rewrite handleScaleChange_scale, Hz.
  destruct n; reflexivity.
Qed.

Lemma setScale_named_agrees_with_initial_witness :
  (currentScale (setScale (props (ScaleNumber 1) true) (mounted 652 600)
                          (ScaleNamed page_width) (mkState 1 3 0 true []))
   == 1)%Q.
Proof.
  rewrite (setScale_named_agrees_with_initial (props (ScaleNumber 1) true)
             (mounted 652 600) (mkContainer 652 600 (fun _ => true)) letter
             page_width (mkState 1 3 0 true []) eq_refl eq_refl eq_refl).
  reflexivity.
Defined.

(** How the policies of [calculateInitialScale] compare, for every
    container and page size: ['auto'] is never above 1.5 nor above
    ['page-width'], ['page-fit'] is never above ['page-width'] nor above the
    height ratio, ['page-actual'] is 1, and a number is returned as it is. *)
Theorem initial_scale_policies (cw ch pw ph x : Q) :
  (calculateInitialScale (ScaleNamed auto) cw ch pw ph <= 1.5
   /\ calculateInitialScale (ScaleNamed auto) cw ch pw ph
      <= calculateInitialScale (ScaleNamed page_width) cw ch pw ph
   /\ calculateInitialScale (ScaleNamed page_fit) cw ch pw ph
      <= calculateInitialScale (ScaleNamed page_width) cw ch pw ph
   /\ calculateInitialScale (ScaleNamed page_fit) cw ch pw ph <= (ch - 40) / ph
   /\ calculateInitialScale (ScaleNamed page_width) cw ch pw ph == (cw - 40) / pw
   /\ calculateInitialScale (ScaleNamed page_actual) cw ch pw ph == 1
   /\ calculateInitialScale (ScaleNumber x) cw ch pw ph = x)%Q.
Proof.
  cbn. unfold JS.Math_min.
  split; [ apply Q.le_min_r | ].
  split; [ apply Q.le_min_l | ].
  split; [ apply Q.le_min_l | ].
  split; [ apply Q.le_min_r | ].
  repeat split; reflexivity.
Qed.



(** X8: the effects that follow the props undo what the commands did to
    rotation and page: after any command, once the effect "update rotation
    from prop" has run the rotation is that of the [rotation] prop, and once
    the effect "update page from prop" has run the page is that of the
    [page] prop whenever the prop lies within 1..totalPages. *)
Theorem prop_effects_override_commands (p : Props) (e : Env) (c : Command)
        (st : State) :
  currentRotation (syncRotationEffect p (exec p e c st)) = rotationProp p
  /\ (1 <= pageProp p <= totalPages e ->
      ViewerState.currentPage (syncPageEffect p e (exec p e c st)) = pageProp p)
  /\ (~ (1 <= pageProp p <= totalPages e) ->
      syncPageEffect p e (exec p e c st) = exec p e c st).
Proof.
  split; [ apply ViewerProofs.syncRotationEffect_restores_prop | ].
  unfold syncPageEffect.
  destruct (pageProp p =? ViewerState.currentPage (exec p e c st)) eqn:E1;
    destruct (1 <=? pageProp p) eqn:E2;
    destruct (pageProp p <=? totalPages e) eqn:E3; cbn [negb andb];
    try apply Z.eqb_eq in E1; try apply Z.leb_le in E2; try apply Z.leb_le in E3;
    try apply Z.leb_gt in E2; try apply Z.leb_gt in E3;
    split; intros H; try reflexivity; try lia; try (symmetry; exact E1).
Qed.

End ScaleProofs.

(** ** The interaction guard *)

Module GuardProofs.

Import UseZoomPrevention.

(** X9: the guard touches an event exactly when zoom is disabled and the
    event is a zoom gesture (a wheel event with Ctrl or Meta, a touch start
    or move with more than one touch, a gesture start or change, a key down
    with Ctrl or Meta and one of +, =, - and 0): then it both prevents the
    default action and stops the propagation.  Every other event, and every
    event while zoom is enabled, is left untouched. *)
Theorem guard_blocks_exactly_zoom_gestures (enabled onZoomAttempt : bool)
        (ev : Event) :
  defaultPrevented (dispatch enabled onZoomAttempt ev)
  = negb enabled && isZoomGesture ev
  /\ propagationStopped (dispatch enabled onZoomAttempt ev)
     = negb enabled && isZoomGesture ev
  /\ (enabled = true -> dispatch enabled onZoomAttempt ev = untouched)
  /\ (isZoomGesture ev = false -> dispatch enabled onZoomAttempt ev = untouched).
Proof.
  destruct enabled; cbn [negb andb].
  - destruct ev; cbn; repeat split; reflexivity.
  - destruct ev as [c m | n | n | c m k | |]; cbn [dispatch isZoomGesture];
      unfold handleWheel, handleTouchStart, handleTouchMove, handleKeyDown,
        handleGestureStart, handleGestureChange.
    + destruct (c || m); cbn; repeat split; try reflexivity; intros; try discriminate.
    + destruct (1 <? n)%nat; cbn; repeat split; try reflexivity; intros; try discriminate.
    + destruct (1 <? n)%nat; cbn; repeat split; try reflexivity; intros; try discriminate.
    + destruct (c || m); cbn; [ | repeat split; try reflexivity; intros; try discriminate ].
      destruct (isZoomKey k); cbn; repeat split; try reflexivity; intros; try discriminate.
    + cbn; repeat split; try reflexivity; intros; try discriminate.
    + cbn; repeat split; try reflexivity; intros; try discriminate.
Qed.

(** [onZoomAttempt] is called only for an event the guard blocks, and
    then with 'wheel' for a wheel event, 'pinch' for a touch start and for a
    gesture start, and 'keyboard' for a key down; a blocked touch move or
    gesture change is not reported. *)
Theorem guard_reports_attempts (enabled onZoomAttempt : bool) (ev : Event) :
  zoomAttempt (dispatch enabled onZoomAttempt ev)
  = if negb enabled && isZoomGesture ev && onZoomAttempt
    then match ev with
         | WheelEvent _ _ => Some wheel
         | TouchStartEvent _ | GestureStartEvent => Some pinch
         | KeyDownEvent _ _ _ => Some keyboard
         | TouchMoveEvent _ | GestureChangeEvent => None
         end
    else None.
Proof.
  destruct enabled; cbn [negb andb].
  - destruct ev; reflexivity.
  - destruct ev as [c m | n | n | c m k | |]; cbn [dispatch isZoomGesture];
      unfold handleWheel, handleTouchStart, handleTouchMove, handleKeyDown,
        handleGestureStart, handleGestureChange, attempt.
    + destruct (c || m), onZoomAttempt; reflexivity.
    + destruct (1 <? n)%nat, onZoomAttempt; reflexivity.
    + destruct (1 <? n)%nat, onZoomAttempt; reflexivity.
    + destruct (c || m); cbn; [ | reflexivity ].
      destruct (isZoomKey k), onZoomAttempt; reflexivity.
    + destruct onZoomAttempt; reflexivity.
    + destruct onZoomAttempt; reflexivity.
Qed.

End GuardProofs.

(** ** Page tracking over time *)

Module TrackingProofs.

Import UsePageTracking Tracking JSProofs.

Lemma adjacentDistinct_snoc (l : list Z) (d w : Z) :
  l <> [] -> adjacentDistinct l -> last l d <> w ->
  adjacentDistinct (l ++ [w]).
Proof.
  induction l as [| a l IH]; intros Hne Hadj Hlast; [ congruence | ].
  destruct l as [| b l].
  - cbn in *. auto.
  - destruct Hadj as [Hab Hadj].
    change ((a :: b :: l) ++ [w]) with (a :: ((b :: l) ++ [w])).
    change (adjacentDistinct (a :: (b :: l) ++ [w]))
      with (a <> b /\ adjacentDistinct ((b :: l) ++ [w])).
    split; [ exact Hab | ].
    apply IH; [ discriminate | exact Hadj | exact Hlast ].
Qed.

Lemma recompute_coherent (r : Recomputation) (t : Tracker) :
  coherent t -> coherent (recompute r t).
Proof.
  intros [Hlast Hadj]. unfold recompute, calculateVisiblePage.
  destruct (container r) as [m |]; [ | split; assumption ].
  destruct (totalPages r =? 0); [ split; assumption | ].
  destruct (winner m) as [page ratio].
  destruct (JS.leb (threshold r) ratio); cbn [andb]; [ | split; assumption ].
  destruct (page =? lastPageRef t) eqn:E; cbn [negb]; [ split; assumption | ].
  apply Z.eqb_neq in E. split; cbn [lastPageRef notified].
  - change (1 :: notified t ++ [page]) with ((1 :: notified t) ++ [page]).
    now rewrite last_last.
  - change (1 :: notified t ++ [page]) with ((1 :: notified t) ++ [page]).
    apply (adjacentDistinct_snoc _ 1); [ discriminate | exact Hadj | ].
    rewrite <- Hlast. congruence.
Qed.

(** X10: the hook never reports the same page twice in a row.  Over any
    sequence of recomputations from mount, whatever the container measures
    each time, no two consecutive calls of [onPageChange] carry the same
    page, the first call does not carry page 1 (the page the hook starts
    from), [lastPageRef] is the page of the latest call, and a recomputation
    repeated at once on the same measurements does nothing. *)
Theorem page_reports_never_repeat (rs : list Recomputation) (r : Recomputation) :
  let t := recomputeAll rs initialTracker in
  adjacentDistinct (1 :: notified t)
  /\ lastPageRef t = last (1 :: notified t) 1
  /\ recompute r (recompute r t) = recompute r t.
Proof.
  cbn zeta.
  assert (Hcoh : forall rs t, coherent t -> coherent (recomputeAll rs t)).
  { clear. unfold recomputeAll.
    induction rs as [| r rs IH]; intros t Ht; [ exact Ht | ].
    cbn [fold_left]. apply IH. now apply recompute_coherent. }
  destruct (Hcoh rs initialTracker) as [Hlast Hadj];
    [ split; cbn; auto | ].
  split; [ exact Hadj | split; [ exact Hlast | ] ].
  generalize (recomputeAll rs initialTracker). intros t.
  unfold recompute, calculateVisiblePage.
  destruct (container r) as [m |]; [ | reflexivity ].
  destruct (totalPages r =? 0); [ reflexivity | ].
  destruct (winner m) as [page ratio].
  destruct (JS.leb (threshold r) ratio); cbn [andb]; [ | reflexivity ].
  destruct (page =? lastPageRef t) eqn:E; cbn [negb].
  - now rewrite E.
  - cbn [lastPageRef]. now rewrite Z.eqb_refl.
Qed.

Lemma half_nonneg (x : Q) : (0 <= x -> 0 <= x / 2)%Q.
Proof. intros H. apply Qle_shift_div_l; lra. Qed.

Lemma half_le (x : Q) : (0 <= x -> x / 2 <= x)%Q.
Proof. intros H. apply Qle_shift_div_r; lra. Qed.

Lemma offscreen_offCenter (m : Measure) (el : PageElement) :
  (0 <= clientHeight m)%Q -> offscreen m el -> offCenter m el.
Proof.
  intros HH Hoff. unfold offCenter, containsCenter.
  apply andb_false_iff.
  unfold offscreen, containerCenter, containerHeight in *.
  pose proof (half_nonneg _ HH) as H0. pose proof (half_le _ HH) as H1.
  set (h := (clientHeight m / 2)%Q) in *.
  destruct Hoff as [Hab | Hbe].
  - right. apply not_true_is_false. intros H. apply leb_true in H. lra.
  - left. apply not_true_is_false. intros H. apply leb_true in H. lra.
Qed.

Lemma coversBand_containsCenter (m : Measure) (el : PageElement) :
  (0 <= clientHeight m)%Q -> coversBand m el -> containsCenter m el = true.
Proof.
  intros HH [Htop Hbot]. unfold containsCenter.
  unfold containerCenter, containerHeight in *.
  pose proof (half_nonneg _ HH) as H0. pose proof (half_le _ HH) as H1.
  set (h := (clientHeight m / 2)%Q) in *.
  apply andb_true_iff. split; apply leb_true; lra.
Qed.

(** X11: when an element spans the whole visible band and the elements
    after it lie wholly outside the band, a recomputation with a threshold
    of at most 1 leaves [lastPageRef] at the page of that element, and calls
    [onPageChange] with it unless it was the last page reported. *)
Theorem full_band_page_is_reported (m : Measure) (totalPages : Z) (threshold : Q)
        (t : Tracker) (pre post : list PageElement) (el : PageElement) :
  totalPages <> 0 ->
  (0 <= clientHeight m)%Q ->
  (threshold <= 1)%Q ->
  pageElements m = pre ++ el :: post ->
  coversBand m el ->
  Forall (offscreen m) post ->
  let t' := calculateVisiblePage (Some m) totalPages threshold t in
  lastPageRef t' = pageNumber el
  /\ notified t'
     = notified t
       ++ (if pageNumber el =? lastPageRef t then [] else [pageNumber el]).
Proof.
  intros Hn HH Hthr Hsplit Hcov Hoff. cbn zeta.
  assert (Hw : winner m = (pageNumber el, 1%Q)).
  { apply (PageTrackingProofs.winner_center m pre post el Hsplit).
    - now apply coversBand_containsCenter.
    - eapply Forall_impl; [ | exact Hoff ].
      intros a Ha. now apply offscreen_offCenter. }
  unfold calculateVisiblePage.
  destruct (totalPages =? 0) eqn:E; [ apply Z.eqb_eq in E; congruence | ].
  rewrite Hw.
  assert (Hl : JS.leb threshold 1 = true) by (apply leb_true; exact Hthr).
  rewrite Hl. cbn [andb].
  destruct (pageNumber el =? lastPageRef t) eqn:Ep; cbn [negb].
  - apply Z.eqb_eq in Ep. split; [ congruence | now rewrite app_nil_r ].
  - split; reflexivity.
Qed.

Lemma full_band_page_is_reported_witness :
  lastPageRef (calculateVisiblePage (Some threePagesAtThird) 4 defaultThreshold
                                    initialTracker) = 3.
Proof.
  destruct (full_band_page_is_reported threePagesAtThird 4 defaultThreshold
              initialTracker
              [mkPageElement 1 (-1620) 800; mkPageElement 2 (-810) 800]
              [mkPageElement 4 810 800] (mkPageElement 3 0 800)) as [H _].
  - discriminate.
  - unfold Qle; cbn; lia.
  - unfold defaultThreshold; lra.
  - reflexivity.
  - split; unfold Qle; cbn; lia.
  - apply Forall_cons; [ right; unfold Qlt; cbn; lia | apply Forall_nil ].
  - exact H.
Defined.

End TrackingProofs.

(** ** Loading, cleanup and destruction *)

Module LifecycleProofs.

Import ParseSource UsePDFDocument Lifecycle.

Lemma second_load_supersedes_any_run_witness :
  let h2 := load (fun _ => true) engine allCallbacks (VString "/b.pdf")
                 (load (fun _ => true) engine allCallbacks (VString "/a.pdf")
                       initialHook) in
  let events := [(1, Fulfilled 7%nat fivePageInfo);
                 (2, Fulfilled 8%nat fivePageInfo);
                 (1, Rejected loadingAborted)] in
  document (settleAll allCallbacks events h2) = Some 8%nat
  /\ destroyed 7%nat (settleAll allCallbacks events h2).
Proof.
  cbn zeta.
  destruct (UsePDFDocumentProofs.second_load_supersedes_any_run
              (fun _ => true) engine allCallbacks
              (VString "/a.pdf") (VString "/b.pdf") initialHook
              [(1, Fulfilled 7%nat fivePageInfo);
               (2, Fulfilled 8%nat fivePageInfo);
               (1, Rejected loadingAborted)] eq_refl) as [Hal Hdes].
  split.
  - destruct Hal as (_ & Hpub & _).
    apply (f_equal (fun x => snd (fst (fst x)))) in Hpub.
    unfold published in Hpub. cbn [fst snd] in Hpub.
    rewrite Hpub. reflexivity.
  - apply (Hdes 7%nat fivePageInfo). left; reflexivity.
Defined.

Section WithEngine.

Variable URL_parses : string -> bool.
Variable getDocument : ParsedSource -> LoadingTask + Error.
Variable cb : Callbacks.

Lemma load_truthy (src : Value) (h : Hook) :
  truthy src = true ->
  load URL_parses getDocument cb src h
  = match loadDocument URL_parses getDocument src with
    | inl task => set_loadingTaskRef (Some task) (prepared cb h)
    | inr err =>
      call (onLoadError cb) (LoadError err)
           (setState Types.error (setError (Some err) (prepared cb h)))
    end.
Proof. intros Ht. unfold load. rewrite Ht. reflexivity. Qed.

Lemma prepared_fields (h : Hook) :
  versionRef (prepared cb h) = versionRef h + 1
  /\ documentRef (prepared cb h) = None
  /\ loadingTaskRef (prepared cb h) = None
  /\ state (prepared cb h) = loading
  /\ UsePDFDocument.error (prepared cb h) = None
  /\ document (prepared cb h) = document h
  /\ info (prepared cb h) = info h
  /\ effects (prepared cb h)
     = effects h
       ++ (match loadingTaskRef h with Some t => [TaskDestroyed t] | None => [] end)
       ++ (match documentRef h with Some d => [DocumentDestroyed d] | None => [] end)
       ++ (if onLoadStart cb then [LoadStart] else []).
Proof.
  destruct h as [st d i e lt dr v ef]. unfold prepared, call.
  destruct lt, dr, (onLoadStart cb); cbn;
    rewrite <- ?app_assoc, ?app_nil_r; repeat split; reflexivity.
Qed.

(** X13: a load of a truthy source first lets go of what the hook held:
    the version advances by one, the task of the previous operation is
    destroyed, the document held in [documentRef] is destroyed and the ref
    cleared.  The hook is then 'loading' with the new task, or, if
    [loadDocument] threw, in 'error' with no task.  The [document] and
    [info] published before stay published as they were. *)
Theorem load_releases_previous (src : Value) (h : Hook) :
  truthy src = true ->
  let h' := load URL_parses getDocument cb src h in
  versionRef h' = versionRef h + 1
  /\ documentRef h' = None
  /\ (forall task, loadingTaskRef h = Some task -> In (TaskDestroyed task) (effects h'))
  /\ (forall doc, documentRef h = Some doc -> destroyed doc h')
  /\ ((exists task, loadDocument URL_parses getDocument src = inl task
                    /\ state h' = loading /\ loadingTaskRef h' = Some task
                    /\ UsePDFDocument.error h' = None)
      \/ (exists err, loadDocument URL_parses getDocument src = inr err
                      /\ state h' = Types.error /\ loadingTaskRef h' = None
                      /\ UsePDFDocument.error h' = Some err))
  /\ document h' = document h
  /\ info h' = info h.
Proof.
  intros Ht. cbn zeta. rewrite (load_truthy src h Ht).
  destruct (prepared_fields h) as (Hv & Hdr & Hlt & Hst & Her & Hdoc & Hinfo & Hef).
  assert (Htask : forall task, loadingTaskRef h = Some task ->
                               In (TaskDestroyed task) (effects (prepared cb h))).
  { intros task E. rewrite Hef, E. apply in_or_app. right. now left. }
  assert (Hdest : forall doc, documentRef h = Some doc ->
                              In (DocumentDestroyed doc) (effects (prepared cb h))).
  { intros doc E. rewrite Hef, E. apply in_or_app. right.
    apply in_or_app. right. now left. }
  unfold destroyed.
  destruct (loadDocument URL_parses getDocument src) as [task | err].
  - cbn. repeat split; auto. left. exists task. auto.
  - unfold call. destruct (onLoadError cb); cbn;
      (split; [ exact Hv | ]); (split; [ exact Hdr | ]);
      (split; [ intros x E; try (apply in_or_app; left); now apply Htask | ]);
      (split; [ intros x E; try (apply in_or_app; left); now apply Hdest | ]);
      (split; [ right; exists err; auto | split; assumption ]).
Qed.

(** X14: a truthy source that is neither a string, nor a [Uint8Array],
    nor an [ArrayBuffer] fails inside [load] itself: the engine is never
    asked for a document, and the hook ends in state 'error' with the error
    'Invalid PDF source type' published, [onLoadError] called with it after
    [onLoadStart], and no task held. *)
Theorem load_of_invalid_type_fails_at_once (src : Value) (h : Hook) :
  truthy src = true ->
  ~ isString src -> ~ isUint8Array src -> ~ isArrayBuffer src ->
  let h' := load URL_parses getDocument cb src h in
  let err := newError "Invalid PDF source type" in
  loadDocument URL_parses getDocument src = inr err
  /\ state h' = Types.error
  /\ UsePDFDocument.error h' = Some err
  /\ loadingTaskRef h' = None
  /\ documentRef h' = None
  /\ effects h'
     = effects (prepared cb h) ++ (if onLoadError cb then [LoadError err] else []).
Proof.
  intros Ht Hs Hu Ha. cbn zeta.
  assert (Hl : loadDocument URL_parses getDocument src
               = inr (newError "Invalid PDF source type")).
  { unfold loadDocument.
    destruct src; try reflexivity.
    - exfalso; apply Hs; eexists; reflexivity.
    - exfalso; apply Hu; eexists; reflexivity.
    - exfalso; apply Ha; eexists; reflexivity. }
  split; [ exact Hl | ].
  rewrite (load_truthy src h Ht), Hl.
  destruct (prepared_fields h) as (_ & Hdr & Hlt & _).
  unfold call. destruct (onLoadError cb); cbn; rewrite ?app_nil_r; auto.
Qed.

Lemma destroyedDocuments_app (l l' : list Effect) :
  destroyedDocuments (l ++ l') = destroyedDocuments l ++ destroyedDocuments l'.
Proof.
  induction l as [| ef l IH]; [ reflexivity | ].
  destruct ef; cbn; rewrite IH; reflexivity.
Qed.

Lemma cleanup_fields (h : Hook) :
  loadingTaskRef (cleanup h) = None
  /\ documentRef (cleanup h) = None
  /\ published (cleanup h) = published h
  /\ versionRef (cleanup h) = versionRef h
  /\ effects (cleanup h)
     = effects h
       ++ (match loadingTaskRef h with Some t => [TaskDestroyed t] | None => [] end)
       ++ (match documentRef h with Some d => [DocumentDestroyed d] | None => [] end).
Proof.
  destruct h as [st d i e lt dr v ef]. unfold cleanup.
  destruct lt, dr; cbn; rewrite <- ?app_assoc, ?app_nil_r; repeat split; reflexivity.
Qed.

(** X15: the cleanup of the effect destroys the task and the document the
    hook holds, each once, and clears both refs, so that a second cleanup
    does nothing.  It leaves alone what is published (state, document,
    info, error) and the version. *)
Theorem cleanup_releases_once (h : Hook) :
  loadingTaskRef (cleanup h) = None
  /\ documentRef (cleanup h) = None
  /\ (forall task, loadingTaskRef h = Some task ->
                   In (TaskDestroyed task) (effects (cleanup h)))
  /\ destroyedDocuments (effects (cleanup h))
     = destroyedDocuments (effects h)
       ++ (match documentRef h with Some doc => [doc] | None => [] end)
  /\ cleanup (cleanup h) = cleanup h
  /\ published (cleanup h) = published h
  /\ versionRef (cleanup h) = versionRef h.
Proof.
  destruct (cleanup_fields h) as (Hlt & Hdr & Hpub & Hv & Hef).
  split; [ exact Hlt | split; [ exact Hdr | split; [ | split; [ | split ] ] ] ].
  - intros task E. rewrite Hef, E. apply in_or_app. right. now left.
  - rewrite Hef, !destroyedDocuments_app.
    destruct (loadingTaskRef h), (documentRef h); cbn; now rewrite ?app_nil_r.
  - destruct h as [st d i e lt dr v ef]. unfold cleanup.
    destruct lt, dr; reflexivity.
  - split; assumption.
Qed.

(** How one event changes the list of destroyed documents and the
    document held. *)
Lemma step_destroys (ev : Event) (h : Hook) :
  let h' := step URL_parses getDocument cb ev h in
  let dd := destroyedDocuments (effects h) in
  let dd' := destroyedDocuments (effects h') in
  (dd' = dd /\ documentRef h' = documentRef h)
  \/ (exists doc, documentRef h = Some doc /\ dd' = dd ++ [doc]
                  /\ documentRef h' = None)
  \/ (exists version doc docInfo,
         ev = Settle version (Fulfilled doc docInfo)
         /\ ((dd' = dd ++ [doc] /\ documentRef h' = documentRef h)
             \/ (dd' = dd /\ documentRef h' = Some doc))).
Proof.
  cbn zeta. destruct ev as [src | version s |]; cbn [step].
  - destruct (truthy src) eqn:Ht.
    + rewrite (load_truthy src h Ht).
      destruct (prepared_fields h) as (_ & Hdr & _ & _ & _ & _ & _ & Hef).
      assert (Hdd : destroyedDocuments (effects (prepared cb h))
                    = destroyedDocuments (effects h)
                      ++ match documentRef h with Some d => [d] | None => [] end).
      { rewrite Hef, !destroyedDocuments_app.
        destruct (loadingTaskRef h), (documentRef h), (onLoadStart cb);
          cbn; now rewrite ?app_nil_r. }
      assert (Hres :
        forall h', destroyedDocuments (effects h')
                   = destroyedDocuments (effects (prepared cb h)) ->
                   documentRef h' = None ->
                   (destroyedDocuments (effects h') = destroyedDocuments (effects h)
                    /\ documentRef h' = documentRef h)
                   \/ (exists doc, documentRef h = Some doc
                                   /\ destroyedDocuments (effects h')
                                      = destroyedDocuments (effects h) ++ [doc]
                                   /\ documentRef h' = None)).
      { intros h' E1 E2. rewrite E1, Hdd.
        destruct (documentRef h) as [doc |].
        - right. exists doc. auto.
        - left. now rewrite app_nil_r. }
      destruct (loadDocument URL_parses getDocument src) as [task | err].
      * destruct (Hres (set_loadingTaskRef (Some task) (prepared cb h)))
          as [H | H]; auto.
      * destruct (Hres (call (onLoadError cb) (LoadError err)
                          (setState Types.error
                             (setError (Some err) (prepared cb h)))))
          as [H | H]; auto;
          unfold call; destruct (onLoadError cb); cbn; auto.
        rewrite destroyedDocuments_app. cbn. now rewrite app_nil_r.
    + left. unfold load. rewrite Ht. split; reflexivity.
  - destruct s as [doc docInfo | err]; cbn [settle].
    + right. right. exists version, doc, docInfo. split; [ reflexivity | ].
      unfold onFulfilled. destruct (version =? versionRef h); cbn [negb].
      * right. unfold call. destruct (onLoadSuccess cb); cbn; split; auto.
        rewrite destroyedDocuments_app. cbn. now rewrite app_nil_r.
      * left. cbn. rewrite destroyedDocuments_app. split; reflexivity.
    + left. unfold onRejected. destruct (version =? versionRef h); cbn [negb];
        [ | split; reflexivity ].
      unfold call.
      destruct (name err =? "PasswordException")%string,
               (onPasswordRequired cb), (onLoadError cb); cbn;
        rewrite ?destroyedDocuments_app; cbn; rewrite ?app_nil_r;
        split; reflexivity.
  - destruct (cleanup_fields h) as (_ & Hdr & _ & _ & Hef).
    assert (Hdd : destroyedDocuments (effects (cleanup h))
                  = destroyedDocuments (effects h)
                    ++ match documentRef h with Some d => [d] | None => [] end).
    { rewrite Hef, !destroyedDocuments_app.
      destruct (loadingTaskRef h), (documentRef h); cbn; now rewrite ?app_nil_r. }
    rewrite Hdd, Hdr. destruct (documentRef h) as [doc |].
    + right. left. exists doc. auto.
    + left. now rewrite app_nil_r.
Qed.

(** X16: no document is destroyed twice, and the document the hook holds
    has not been destroyed.  This holds in every state the hook reaches from
    mount through loads, settlements in any order and for any version, and
    cleanups, as long as the engine delivers a new proxy with each document
    it opens. *)
Theorem no_document_destroyed_twice (h : Hook) :
  reachable URL_parses getDocument cb h ->
  NoDup (destroyedDocuments (effects h))
  /\ (forall doc, documentRef h = Some doc ->
                  ~ In doc (destroyedDocuments (effects h))).
Proof.
  induction 1 as [| ev h Hreach [Hnd Hheld] Hadm].
  - split; [ constructor | discriminate ].
  - destruct (step_destroys ev h) as [[Hdd Hdr] | [(doc & E & Hdd & Hdr) | H]];
      cbn zeta in *.
    + rewrite Hdd. split; [ exact Hnd | ].
      intros doc E. rewrite Hdr in E. now apply Hheld.
    + rewrite Hdd, Hdr. split; [ | discriminate ].
      apply NoDup_app; [ exact Hnd | repeat constructor; intros [] | ].
      intros x Hin [E' | []]. subst x. now apply (Hheld doc).
    + destruct H as (version & doc & docInfo & -> & [[Hdd Hdr] | [Hdd Hdr]]);
        destruct Hadm as [Hfresh Hnot].
      * rewrite Hdd. split.
        -- apply NoDup_app; [ exact Hnd | repeat constructor; intros [] | ].
           intros x Hin [E' | []]. subst x. now apply Hfresh.
        -- intros d E. rewrite Hdr in E. intros Hin.
           apply in_app_or in Hin as [Hin | [E' | []]].
           ++ now apply (Hheld d).
           ++ subst d. now apply Hnot.
      * rewrite Hdd. split; [ exact Hnd | ].
        intros d E. rewrite Hdr in E. injection E as <-. exact Hfresh.
Qed.

End WithEngine.

Lemma load_releases_previous_witness :
  let h1 := onFulfilled allCallbacks 1 7%nat fivePageInfo
              (load (fun _ => true) engine allCallbacks (VString "/a.pdf")
                    initialHook) in
  let h2 := load (fun _ => true) engine allCallbacks (VString "/b.pdf") h1 in
  destroyed 7%nat h2 /\ documentRef h2 = None /\ document h2 = Some 7%nat
  /\ state h2 = loading.
Proof.
  cbn zeta.
  destruct (load_releases_previous (fun _ => true) engine allCallbacks
              (VString "/b.pdf")
              (onFulfilled allCallbacks 1 7%nat fivePageInfo
                 (load (fun _ => true) engine allCallbacks (VString "/a.pdf")
                       initialHook)) eq_refl)
    as (_ & Hdr & _ & Hdes & _ & Hdoc & _).
  split; [ apply Hdes; reflexivity | ].
  split; [ exact Hdr | ].
  split; [ rewrite Hdoc; reflexivity | reflexivity ].
Defined.

Lemma load_of_invalid_type_fails_at_once_witness :
  published (load (fun _ => true) engine allCallbacks (VNumber 123) initialHook)
  = (Types.error, None, None, Some (newError "Invalid PDF source type")).
Proof.
  destruct (load_of_invalid_type_fails_at_once (fun _ => true) engine allCallbacks
              (VNumber 123) initialHook eq_refl) as (_ & Hs & He & _).
  - intros [s E]; discriminate.
  - intros [s E]; discriminate.
  - intros [s E]; discriminate.
  - unfold published. rewrite Hs, He. reflexivity.
Defined.

Lemma no_document_destroyed_twice_witness :
  let h := step (fun _ => true) engine allCallbacks Cleanup
             (step (fun _ => true) engine allCallbacks
                   (Settle 1 (Fulfilled 7%nat fivePageInfo))
                   (step (fun _ => true) engine allCallbacks
                         (Load (VString "/a.pdf")) initialHook)) in
  destroyedDocuments (effects h) = [7%nat]
  /\ NoDup (destroyedDocuments (effects h)).
Proof.
  split; [ reflexivity | ].
  apply (no_document_destroyed_twice (fun _ => true) engine allCallbacks).
  apply reachable_step; [ apply reachable_step; [ apply reachable_step | ] | ].
  - apply reachable_initial.
  - exact I.
  - split; [ intros [] | discriminate ].
  - exact I.
Defined.

End LifecycleProofs.

(** ** The worker, the decoding of embedded data and the load parameters *)

Module LoadDocumentProofs.

Import ParseSource Worker LoadDocument.

Lemma initializeWorker_initialized (version : string) (src : option string)
      (g : Global) :
  workerInitialized (initializeWorker version src g) = true.
Proof.
  unfold initializeWorker. destruct (workerInitialized g) eqn:E; [ exact E | ].
  destruct src as [s |]; [ destruct (String.eqb s "") | ]; reflexivity.
Qed.

Lemma initializeWorker_again (version : string) (src : option string) (g : Global) :
  workerInitialized g = true -> initializeWorker version src g = g.
Proof. intros E. unfold initializeWorker. now rewrite E. Qed.

(** X17: the first call of [initializeWorker] decides the worker source:
    it sets the source given, or the unpkg address of the running pdf.js
    version when none (or the empty string) is given, and every later call
    changes nothing, whatever source it brings.  After [resetWorker] the
    next call decides again. *)
Theorem worker_first_call_wins (version : string) (src : option string)
        (later : list (option string)) (g : Global) :
  workerInitialized g = false ->
  let g1 := initializeWorker version src g in
  isWorkerInitialized g1 = true
  /\ (forall s, src = Some s -> s <> ""%string -> Worker.workerSrc g1 = s)
  /\ (src = None \/ src = Some ""%string ->
      Worker.workerSrc g1
      = ("https://unpkg.com/pdfjs-dist@" ++ version ++ "/build/pdf.worker.min.mjs")%string)
  /\ initializeAll version later g1 = g1
  /\ isWorkerInitialized (resetWorker g1) = false
  /\ (forall s, s <> ""%string ->
                Worker.workerSrc (initializeWorker version (Some s) (resetWorker g1)) = s).
Proof.
  intros Hg. cbn zeta.
  split; [ apply initializeWorker_initialized | ].
  split.
  { intros s -> Hs. unfold initializeWorker. rewrite Hg.
    destruct (String.eqb s "") eqn:E; [ apply String.eqb_eq in E; congruence | ].
    reflexivity. }
  split.
  { intros [-> | ->]; unfold initializeWorker; rewrite Hg; reflexivity. }
  split.
  { assert (H : forall l g0, workerInitialized g0 = true ->
                             initializeAll version l g0 = g0).
    { clear. unfold initializeAll.
      induction l as [| a l IH]; intros g0 E; [ reflexivity | ].
      cbn [fold_left]. rewrite (initializeWorker_again version a g0 E).
      now apply IH. }
    apply H. apply initializeWorker_initialized. }
  split; [ reflexivity | ].
  intros s Hs. unfold initializeWorker, resetWorker. cbn.
  destruct (String.eqb s "") eqn:E; [ apply String.eqb_eq in E; congruence | ].
  reflexivity.
Qed.

Lemma worker_first_call_wins_witness :
  Worker.workerSrc
    (initializeAll "4.0.379" [Some "/second.js"%string; None]
                   (initializeWorker "4.0.379" (Some "/first.js"%string) initialGlobal))
  = "/first.js"%string.
Proof.
  destruct (worker_first_call_wins "4.0.379" (Some "/first.js"%string)
              [Some "/second.js"%string; None] initialGlobal eq_refl)
    as (_ & Hs & _ & Hall & _).
  rewrite Hall. apply Hs; [ reflexivity | discriminate ].
Defined.

Section WithBrowser.

Variable atob : string -> string + Error.
Variable URL_parses : string -> bool.

(** X18: every call of [loadDocument] leaves the worker initialized, also
    a call whose source is rejected; and once the worker is initialized, no
    load changes the worker source, whatever [workerSrc] option it
    carries. *)
Theorem loadDocument_initializes_worker (version : string) (src : Value)
        (options : Options) (calls : list (Value * Options)) (g : Global) :
  let g1 := fst (loadDocument atob URL_parses version src options g) in
  isWorkerInitialized g1 = true
  /\ (isWorkerInitialized g = true -> g1 = g)
  /\ loadAll atob URL_parses version calls g1 = g1.
Proof.
  cbn zeta. unfold loadDocument. cbn [fst].
  split; [ apply initializeWorker_initialized | ].
  split; [ apply initializeWorker_again | ].
  assert (H : forall l g0, workerInitialized g0 = true ->
                           loadAll atob URL_parses version l g0 = g0).
  { clear. unfold loadAll.
    induction l as [| c l IH]; intros g0 E; [ reflexivity | ].
    cbn [fold_left]. unfold loadDocument at 2. cbn [fst].
    rewrite (initializeWorker_again version _ g0 E). now apply IH. }
  apply H. apply initializeWorker_initialized.
Qed.

Lemma includesComma_app (p x : string) :
  includesComma (p ++ String "," x) = true.
Proof.
  induction p as [| c p IH]; cbn; [ reflexivity | ].
  destruct (Ascii.eqb c ","); [ reflexivity | exact IH ].
Qed.

Lemma afterComma_app (p x : string) :
  includesComma p = false -> afterComma (p ++ String "," x) = x.
Proof.
  induction p as [| c p IH]; cbn; [ reflexivity | ].
  destruct (Ascii.eqb c ","); [ discriminate | exact IH ].
Qed.

Lemma beforeComma_none (x : string) :
  includesComma x = false -> beforeComma x = x.
Proof.
  induction x as [| c x IH]; cbn; [ reflexivity | ].
  destruct (Ascii.eqb c ","); [ discriminate | ].
  intros H. now rewrite IH.
Qed.

Lemma beforeComma_app (x y : string) :
  includesComma x = false -> beforeComma (x ++ String "," y) = x.
Proof.
  induction x as [| c x IH]; cbn; [ reflexivity | ].
  destruct (Ascii.eqb c ","); [ discriminate | ].
  intros H. now rewrite IH.
Qed.

(** X19: [base64ToUint8Array] decodes what lies between the first comma
    and the second: a prefix up to the first comma is dropped (the
    data-URI header), anything from a second comma on is ignored, and a
    string without a comma is decoded whole.  The array has one byte per
    character of what [atob] returns, and an error of [atob] is thrown on. *)
Theorem base64_payload_is_between_commas (prefix payload rest : string) :
  includesComma prefix = false ->
  includesComma payload = false ->
  base64ToUint8Array atob (prefix ++ "," ++ payload)
  = base64ToUint8Array atob payload
  /\ base64ToUint8Array atob (prefix ++ "," ++ payload ++ "," ++ rest)
     = base64ToUint8Array atob payload
  /\ (forall binaryString,
         atob payload = inl binaryString ->
         base64ToUint8Array atob payload = inl (charCodes binaryString)
         /\ List.length (charCodes binaryString) = String.length binaryString)
  /\ (forall err, atob payload = inr err ->
                  base64ToUint8Array atob payload = inr err).
Proof.
  intros Hp Hd.
  assert (Hown : base64Data payload = payload)
    by (unfold base64Data; now rewrite Hd).
  assert (H1 : base64Data (prefix ++ "," ++ payload) = payload).
  { unfold base64Data. cbn [append].
    rewrite includesComma_app, (afterComma_app prefix payload Hp).
    now apply beforeComma_none. }
  assert (H2 : base64Data (prefix ++ "," ++ payload ++ "," ++ rest) = payload).
  { unfold base64Data. cbn [append].
    rewrite includesComma_app, (afterComma_app prefix _ Hp).
    now apply beforeComma_app. }
  unfold base64ToUint8Array. rewrite H1, H2, Hown.
  split; [ reflexivity | split; [ reflexivity | split ] ].
  - intros b E. rewrite E. split; [ reflexivity | ].
    unfold charCodes. rewrite length_map.
    clear. induction b as [| c b IH]; cbn; [ | rewrite IH ]; reflexivity.
  - intros err E. now rewrite E.
Qed.

Lemma nonEmpty_some (o : option string) (s : string) :
  nonEmpty o = Some s <-> o = Some s /\ s <> ""%string.
Proof.
  unfold nonEmpty. destruct o as [t |]; [ | split; [ discriminate | intros [H _]; discriminate ] ].
  destruct (String.eqb t "") eqn:E.
  - apply String.eqb_eq in E. subst t. split; [ discriminate | ].
    intros [H Hne]. injection H as <-. congruence.
  - apply String.eqb_neq in E. split.
    + intros H. injection H as <-. auto.
    + intros [H _]. exact H.
Qed.

(** X20: the parameters [loadDocument] hands to the engine.  Exactly one
    of [url] and [data] is set: [url], to the string itself, for a string
    that is not a base64 data URI, and [data] otherwise (the bytes given,
    or the decoded payload).  An empty password and an empty CMap URL are
    not forwarded, [cMapPacked] is set (to true) exactly when the CMap URL
    is forwarded, [withCredentials] is forwarded only when true, and
    [disableRange] and [disableStream] are always false. *)
Theorem load_parameters (src : Value) (options : Options) (params : InitParameters) :
  initParameters atob URL_parses src options = inl params ->
  ((exists s, src = VString s /\ isBase64DataUri s = false
              /\ p_url params = Some s /\ p_data params = None)
   \/ (exists bytes,
          p_url params = None /\ p_data params = Some bytes
          /\ (src = VUint8Array bytes \/ src = VArrayBuffer bytes
              \/ exists s, src = VString s /\ isBase64DataUri s = true
                           /\ base64ToUint8Array atob s = inl bytes)))
  /\ (forall s, p_password params = Some s <->
                password options = Some s /\ s <> ""%string)
  /\ (forall s, p_cMapUrl params = Some s <->
                cMapUrl options = Some s /\ s <> ""%string)
  /\ (p_cMapPacked params = Some true <-> p_cMapUrl params <> None)
  /\ p_cMapPacked params <> Some false
  /\ (p_withCredentials params = Some true <-> withCredentials options = Some true)
  /\ p_withCredentials params <> Some false
  /\ p_httpHeaders params = httpHeaders options
  /\ p_disableRange params = Some false
  /\ p_disableStream params = Some false.
Proof.
  unfold initParameters. intros H.
  assert (Hrest :
    forall u d,
      params = mkInitParameters u d (httpHeaders options)
                 (match withCredentials options with
                  | Some true => Some true | _ => None end)
                 (nonEmpty (cMapUrl options))
                 (match nonEmpty (cMapUrl options) with
                  | Some _ => Some true | None => None end)
                 (nonEmpty (password options)) (Some false) (Some false) ->
      (forall s, p_password params = Some s <->
                 password options = Some s /\ s <> ""%string)
      /\ (forall s, p_cMapUrl params = Some s <->
                    cMapUrl options = Some s /\ s <> ""%string)
      /\ (p_cMapPacked params = Some true <-> p_cMapUrl params <> None)
      /\ p_cMapPacked params <> Some false
      /\ (p_withCredentials params = Some true <-> withCredentials options = Some true)
      /\ p_withCredentials params <> Some false
      /\ p_httpHeaders params = httpHeaders options
      /\ p_disableRange params = Some false
      /\ p_disableStream params = Some false).
  { intros u d ->. cbn.
    split; [ intros s; apply nonEmpty_some | ].
    split; [ intros s; apply nonEmpty_some | ].
    split; [ destruct (nonEmpty (cMapUrl options)); split; congruence | ].
    split; [ destruct (nonEmpty (cMapUrl options)); discriminate | ].
    split; [ destruct (withCredentials options) as [[|] |]; split; congruence | ].
    split; [ destruct (withCredentials options) as [[|] |]; discriminate | ].
    auto. }
  destruct src as [s | bytes | bytes | | | | |]; try discriminate H.
  - rewrite ParseSourceProofs.parseSource_string in H.
    destruct (isBase64DataUri s) eqn:Eb; cbn in H.
    + destruct (base64ToUint8Array atob s) as [bytes | err] eqn:Ed;
        [ | discriminate ].
      injection H as H. symmetry in H. split; [ | exact (Hrest _ _ H) ].
      right. exists bytes. subst params. cbn.
      split; [ reflexivity | split; [ reflexivity | ] ].
      right. right. exists s. auto.
    + injection H as H. symmetry in H. split; [ | exact (Hrest _ _ H) ].
      left. exists s. subst params. cbn. auto.
  - cbn in H. injection H as H. symmetry in H. split; [ | exact (Hrest _ _ H) ].
    right. exists bytes. subst params. cbn. auto.
  - cbn in H. injection H as H. symmetry in H. split; [ | exact (Hrest _ _ H) ].
    right. exists bytes. subst params. cbn. auto.
Qed.

End WithBrowser.

Lemma base64_payload_is_between_commas_witness :
  base64ToUint8Array helloAtob "data:application/pdf;base64,SGVsbG8="
  = inl (charCodes "Hello").
Proof.
  destruct (base64_payload_is_between_commas helloAtob
              "data:application/pdf;base64" "SGVsbG8=" "" eq_refl eq_refl)
    as (H & _ & Hb & _).
  change ("data:application/pdf;base64,SGVsbG8="%string)
    with ("data:application/pdf;base64" ++ "," ++ "SGVsbG8=")%string.
  rewrite H. apply (Hb "Hello"%string). reflexivity.
Defined.

Lemma load_parameters_witness :
  let params := mkInitParameters (Some "/a.pdf"%string) None None None
                                 (Some "/cmaps/"%string) (Some true) None
                                 (Some false) (Some false) in
  initParameters helloAtob (fun _ => true) (VString "/a.pdf")
                 (mkOptions None (Some false) (Some "/cmaps/"%string)
                            (Some ""%string) None)
  = inl params
  /\ (forall s, p_password params = Some s <->
                Some ""%string = Some s /\ s <> ""%string).
Proof.
  cbn zeta. split; [ reflexivity | ].
  destruct (load_parameters helloAtob (fun _ => true) (VString "/a.pdf")
              (mkOptions None (Some false) (Some "/cmaps/"%string)
                         (Some ""%string) None)
              (mkInitParameters (Some "/a.pdf"%string) None None None
                                (Some "/cmaps/"%string) (Some true) None
                                (Some false) (Some false)) eq_refl)
    as (_ & Hpw & _).
  exact Hpw.
Defined.

End LoadDocumentProofs.

(** ** Metadata dates *)

Module MetadataProofs.

Import Metadata.

Lemma digits_app (n : nat) :
  forall ds t, String.length ds = n -> allDigits ds = true ->
               digits n (ds ++ t)%string = Some (ds, t).
Proof.
  induction n as [| n IH]; intros ds t Hlen Hd.
  - destruct ds; [ reflexivity | discriminate ].
  - destruct ds as [| c ds]; [ discriminate | ].
    cbn in Hlen. injection Hlen as Hlen.
    unfold allDigits in Hd. cbn in Hd. apply andb_prop in Hd as [Hc Hd].
    cbn [append digits]. rewrite Hc, (IH ds t Hlen Hd). reflexivity.
Qed.

Lemma allDigits_app (a b : string) :
  allDigits (a ++ b)%string = allDigits a && allDigits b.
Proof.
  unfold allDigits. induction a as [| c a IH]; [ reflexivity | ].
  cbn. rewrite IH. now rewrite andb_assoc.
Qed.

Lemma matchAt_date (y mo d t : string) :
  String.length y = 4%nat -> String.length mo = 2%nat -> String.length d = 2%nat ->
  allDigits y = true -> allDigits mo = true -> allDigits d = true ->
  matchAt ("D:" ++ y ++ mo ++ d ++ t)%string
  = let '(h, s4) := optionalDigits2 t in
    let '(mi, s5) := optionalDigits2 s4 in
    let '(se, _) := optionalDigits2 s5 in
    Some (mkGroups y mo d h mi se).
Proof.
  intros Ly Lm Ld Hy Hm Hd. cbn [append matchAt].
  rewrite (digits_app 4 y _ Ly Hy), (digits_app 2 mo _ Lm Hm),
    (digits_app 2 d _ Ld Hd).
  reflexivity.
Qed.

Lemma search_head (s : string) (g : Groups) :
  matchAt s = Some g -> search s = Some g.
Proof. intros H. destruct s; cbn [search]; now rewrite H. Qed.

Lemma parse_matched (s : string) (g : Groups) :
  matchAt s = Some g ->
  parseMetadataDate (Some s)
  = Some (mkDate (parseInt (year g)) (parseInt (month g) - 1) (parseInt (day g))
                 (parseInt (orZeroes (hour g))) (parseInt (orZeroes (minute g)))
                 (parseInt (orZeroes (second g)))).
Proof.
  intros H. unfold parseMetadataDate.
  destruct (String.eqb s "") eqn:E.
  - apply String.eqb_eq in E. subst s. discriminate H.
  - now rewrite (search_head s g H).
Qed.

(** X21: a PDF date with all six fields, "D:" followed by fourteen
    digits, is read as year, month - 1, day, hours, minutes and seconds of
    those digits, and whatever follows the digits (the time-zone offset of
    the PDF format) has no effect on the result. *)
Theorem metadata_date_ignores_offset (y mo d h mi se offset : string) :
  String.length y = 4%nat -> String.length mo = 2%nat -> String.length d = 2%nat ->
  String.length h = 2%nat -> String.length mi = 2%nat -> String.length se = 2%nat ->
  allDigits (y ++ mo ++ d ++ h ++ mi ++ se)%string = true ->
  parseMetadataDate (Some ("D:" ++ y ++ mo ++ d ++ h ++ mi ++ se ++ offset)%string)
  = Some (mkDate (parseInt y) (parseInt mo - 1) (parseInt d)
                 (parseInt h) (parseInt mi) (parseInt se))
  /\ parseMetadataDate (Some ("D:" ++ y ++ mo ++ d ++ h ++ mi ++ se ++ offset)%string)
     = parseMetadataDate (Some ("D:" ++ y ++ mo ++ d ++ h ++ mi ++ se)%string).
Proof.
  intros Ly Lm Ld Lh Lmi Ls Hall.
  rewrite !allDigits_app in Hall.
  apply andb_prop in Hall as [Hy Hall]. apply andb_prop in Hall as [Hm Hall].
  apply andb_prop in Hall as [Hd Hall]. apply andb_prop in Hall as [Hh Hall].
  apply andb_prop in Hall as [Hmi Hs].
  assert (Hmatch : forall t,
             matchAt ("D:" ++ y ++ mo ++ d ++ h ++ mi ++ se ++ t)%string
             = Some (mkGroups y mo d (Some h) (Some mi) (Some se))).
  { intros t. rewrite (matchAt_date y mo d _ Ly Lm Ld Hy Hm Hd).
    unfold optionalDigits2.
    rewrite (digits_app 2 h _ Lh Hh), (digits_app 2 mi _ Lmi Hmi),
      (digits_app 2 se _ Ls Hs).
    reflexivity. }
  assert (Hparse : forall t,
             parseMetadataDate (Some ("D:" ++ y ++ mo ++ d ++ h ++ mi ++ se ++ t)%string)
             = Some (mkDate (parseInt y) (parseInt mo - 1) (parseInt d)
                            (parseInt h) (parseInt mi) (parseInt se))).
  { intros t. rewrite (parse_matched _ _ (Hmatch t)).
    reflexivity. }
  split; [ apply Hparse | ].
  rewrite (Hparse offset).
  pose proof (Hparse ""%string) as H0.
  assert (Hnil : (se ++ "")%string = se)
    by (clear; induction se as [| c s IH]; cbn; [ | rewrite IH ]; reflexivity).
  rewrite Hnil in H0. now rewrite H0.
Qed.

Lemma metadata_date_ignores_offset_witness :
  parseMetadataDate (Some "D:20231215120000+00'00'"%string)
  = Some (mkDate 2023 11 15 12 0 0).
Proof.
  destruct (metadata_date_ignores_offset "2023"%string "12"%string "15"%string
              "12"%string "00"%string "00"%string "+00'00'"%string
              eq_refl eq_refl eq_refl eq_refl eq_refl eq_refl eq_refl) as [H _].
  exact H.
Defined.

(** X22: a PDF date that stops after the day, "D:" and eight digits
    followed by something that does not begin with two digits, is read with
    hours, minutes and seconds 0. *)
Theorem metadata_date_without_time (y mo d rest : string) :
  String.length y = 4%nat -> String.length mo = 2%nat -> String.length d = 2%nat ->
  allDigits (y ++ mo ++ d)%string = true ->
  digits 2 rest = None ->
  parseMetadataDate (Some ("D:" ++ y ++ mo ++ d ++ rest)%string)
  = Some (mkDate (parseInt y) (parseInt mo - 1) (parseInt d) 0 0 0).
Proof.
  intros Ly Lm Ld Hall Hrest.
  rewrite !allDigits_app in Hall.
  apply andb_prop in Hall as [Hy Hall]. apply andb_prop in Hall as [Hm Hd].
  assert (Hmatch : matchAt ("D:" ++ y ++ mo ++ d ++ rest)%string
                   = Some (mkGroups y mo d None None None)).
  { rewrite (matchAt_date y mo d _ Ly Lm Ld Hy Hm Hd).
    unfold optionalDigits2. repeat (rewrite Hrest; cbn iota). reflexivity. }
  rewrite (parse_matched _ _ Hmatch). reflexivity.
Qed.

Lemma metadata_date_without_time_witness :
  parseMetadataDate (Some "D:20240229"%string) = Some (mkDate 2024 1 29 0 0 0).
Proof.
  exact (metadata_date_without_time "2024"%string "02"%string "29"%string ""%string
           eq_refl eq_refl eq_refl eq_refl eq_refl).
Defined.

End MetadataProofs.


(** ** The visible range and the last page *)

Module VirtualizerProofs.

Import PDFPages.

(** X25: the window of rendered pages is never cut from below: over page
    elements in document order, one per page, every recomputation ends the
    visible range at the last page, so the last page is always rendered,
    and so is every page of a document of five pages or fewer. *)
Theorem visible_range_reaches_last_page (n : Z) (m : Measure) (r : Range) :
  laidOut n m ->
  let r' := recompute n (Some m) r in
  end_ r' = n - 1
  /\ isVisible r' (n - 1) = true
  /\ (n <= 5 -> forall i, 0 <= i < n -> isVisible r' i = true).
Proof.
  intros Hl. cbv zeta.
  pose proof Hl as (_ & Hn & _).
  destruct (PDFPagesProofs.updateVisibleRange_laidOut n m Hl) as [Hs He].
  unfold recompute. destruct (Z.eqb_spec n 0) as [E | _]; [ lia | ].
  split; [ exact He | ].
  unfold isVisible. rewrite He.
  split.
  - apply andb_true_intro; split; apply Z.leb_le; lia.
  - intros H5 i Hi. apply andb_true_intro; split; apply Z.leb_le; lia.
Qed.

Lemma visible_range_reaches_last_page_witness :
  let m := scrolled 0 600 1200 10 (repeat 800%Q 3) in
  end_ (recompute 3 (Some m) initialRange) = 2
  /\ isVisible (recompute 3 (Some m) initialRange) 0 = true.
Proof.
  cbv zeta.
  destruct (visible_range_reaches_last_page 3
              (scrolled 0 600 1200 10 (repeat 800%Q 3)) initialRange)
    as (He & _ & Hall).
  - apply (PDFPagesProofs.scrolled_laidOut 0 600 1200 10 (repeat 800%Q 3)).
    + lra.
    + repeat constructor; lra.
    + discriminate.
  - split; [ exact He | apply Hall; lia ].
Defined.

End VirtualizerProofs.

(** ** The render effect of a page *)

Module PDFPageProofs.

Import PDFPage.

Lemma tasksOf_app (a b : list Event) :
  tasksOf (a ++ b) = tasksOf a ++ tasksOf b.
Proof.
  induction a as [| [r |] a IH]; cbn; [ reflexivity | now rewrite IH | exact IH ].
Qed.

Lemma NoDup_app_disjoint {A : Type} (l l' : list A) :
  NoDup (l ++ l') -> forall a, In a l -> In a l' -> False.
Proof.
  induction l as [| x l IH]; cbn; intros Hn a Hin Hin'; [ exact Hin | ].
  inversion Hn as [| ? ? Hx Hn']; subst.
  destruct Hin as [<- | Hin].
  - apply Hx, in_or_app. now right.
  - exact (IH Hn' a Hin Hin').
Qed.

Lemma cancelCurrent_accounted (st : State) :
  accounted st ->
  accounted (cancelCurrent st)
  /\ renderTaskRef (cancelCurrent st) = None
  /\ started (cancelCurrent st) = started st.
Proof.
  intros (H1 & H2 & H3 & H4). unfold cancelCurrent.
  destruct (renderTaskRef st) as [t |] eqn:Er.
  - destruct (H2 t eq_refl) as [Hs Hc].
    split; [ | split; reflexivity ].
    unfold accounted; cbn. repeat split.
    + intros t' Ht'. right. apply in_or_app.
      destruct (H1 t' Ht') as [E | Hin]; [ | now left ].
      right. injection E as <-. now left.
    + discriminate.
    + discriminate.
    + intros t' Ht'. apply in_app_or in Ht' as [Hin | [<- | []]];
        [ now apply H3 | exact Hs ].
    + apply NoDup_app; [ exact H4 | repeat constructor; intros [] | ].
      intros t' Hin [<- | []]. now apply Hc.
  - split; [ | split; [ exact Er | reflexivity ] ].
    unfold accounted. rewrite Er. now repeat split.
Qed.

Lemma step_accounted (st : State) (ev : Event) :
  accounted st ->
  (forall t, In t (tasksOf [ev]) -> ~ In t (started st)) ->
  accounted (step st ev)
  /\ (forall t, In t (started (step st ev)) ->
                In t (started st) \/ In t (tasksOf [ev])).
Proof.
  intros Ha Hfresh. destruct ev as [r |]; cbn [step].
  - unfold effect. destruct (canvas r); cbn [negb]; [ | now split; auto ].
    destruct (cancelCurrent_accounted st Ha) as ((H1 & H2 & H3 & H4) & Hr & Hs).
    destruct (context2d r); cbn [negb].
    + cbn [renderTaskRef started cancelled dimensions canvasSize].
      rewrite Hs.
      assert (Hx : ~ In (renderTask r) (started st))
        by (apply Hfresh; cbn; now left).
      split.
      * unfold accounted; cbn. repeat split.
        -- intros t Ht. apply in_app_or in Ht as [Hin | [<- | []]];
             [ | now left ].
           rewrite <- Hs in Hin. destruct (H1 t Hin) as [E | Hc];
             [ congruence | now right ].
        -- injection H as <-. apply in_or_app. right. now left.
        -- injection H as <-. intros Hc. apply Hx. rewrite <- Hs. now apply H3.
        -- intros t Ht. apply in_or_app. left. rewrite <- Hs. now apply H3.
        -- exact H4.
      * intros t Ht. apply in_app_or in Ht as [Hin | [<- | []]];
          [ now left | right; cbn; now left ].
    + split.
      * unfold accounted; cbn. repeat split.
        -- exact H1.
        -- now apply H2.
        -- now apply H2.
        -- exact H3.
        -- exact H4.
      * cbn. rewrite Hs. now left.
  - unfold cleanup.
    destruct (cancelCurrent_accounted st Ha) as (Ha' & _ & Hs).
    split; [ exact Ha' | rewrite Hs; now left ].
Qed.

Lemma stepAll_accounted (evs : list Event) :
  freshTasks evs ->
  accounted (stepAll evs initialState)
  /\ (forall t, In t (started (stepAll evs initialState)) -> In t (tasksOf evs)).
Proof.
  unfold freshTasks, stepAll.
  induction evs as [| ev evs IH] using rev_ind; intros Hf.
  - split; [ | intros t [] ].
    unfold accounted; cbn. repeat split; try (intros t []); try discriminate.
    constructor.
  - rewrite tasksOf_app in Hf. rewrite fold_left_app. cbn [fold_left].
    destruct (IH (NoDup_app_remove_r _ _ Hf)) as [Ha Hsub].
    destruct (step_accounted (fold_left step evs initialState) ev Ha) as [Ha' Hs'].
    + intros t Ht Hin. apply Hsub in Hin.
      exact (NoDup_app_disjoint _ _ Hf t Hin Ht).
    + split; [ exact Ha' | ].
      intros t Ht. rewrite tasksOf_app. apply in_or_app.
      destruct (Hs' t Ht) as [Hin | Hin]; [ left; now apply Hsub | now right ].
Qed.

(** X26: a page has at most one render in flight: over any run of effect
    executions and cleanups in which [page.render] returns a new task each
    time, every task that was started is the one held in [renderTaskRef]
    or has been cancelled, the one held in [renderTaskRef] has not been
    cancelled, only started tasks are cancelled and none is cancelled
    twice; after a cleanup no task is held. *)
Theorem one_render_in_flight (evs : list Event) :
  freshTasks evs ->
  accounted (stepAll evs initialState)
  /\ renderTaskRef (stepAll (evs ++ [RunCleanup]) initialState) = None
  /\ forall t, In t (started (stepAll (evs ++ [RunCleanup]) initialState)) ->
               In t (cancelled (stepAll (evs ++ [RunCleanup]) initialState)).
Proof.
  intros Hf. destruct (stepAll_accounted evs Hf) as [Ha _].
  split; [ exact Ha | ].
  unfold stepAll. rewrite fold_left_app. cbn [fold_left step]. unfold cleanup.
  destruct (cancelCurrent_accounted _ Ha) as ((H1 & _) & Hr & _).
  split; [ exact Hr | ].
  intros t Ht. destruct (H1 t Ht) as [E | Hc]; [ | exact Hc ].
  unfold stepAll in *. congruence.
Qed.

Lemma one_render_in_flight_witness :
  let st := stepAll [RunEffect (letterAt 1 0%nat); RunEffect (letterAt 1.5 1%nat);
                     RunCleanup; RunEffect (letterAt 2 2%nat)] initialState in
  renderTaskRef st = Some 2%nat
  /\ cancelled st = [0%nat; 1%nat]
  /\ accounted st.
Proof.
  cbv zeta. split; [ reflexivity | split; [ reflexivity | ] ].
  apply (one_render_in_flight
           [RunEffect (letterAt 1 0%nat); RunEffect (letterAt 1.5 1%nat);
            RunCleanup; RunEffect (letterAt 2 2%nat)]).
  unfold freshTasks. cbn.
  repeat constructor; cbn; intuition discriminate.
Defined.

End PDFPageProofs.

(** ** Search over the text layers *)

Module FindProofs.

Import Find.

Lemma length_updateAt (i : nat) (f : Span -> Span) (l : list Span) :
  List.length (updateAt i f l) = List.length l.
Proof.
  revert i. induction l as [| s l IH]; intros [| i]; cbn; auto.
Qed.

Lemma nth_error_updateAt (i : nat) (f : Span -> Span) (l : list Span) (j : nat) :
  nth_error (updateAt i f l) j
  = if Nat.eqb i j then option_map f (nth_error l j) else nth_error l j.
Proof.
  revert i j. induction l as [| s l IH]; intros [| i] [| j]; cbn; auto.
  - now destruct (Nat.eqb i j).
Qed.

Lemma selects_updateAt (sel : Span -> bool) (i : nat) (f : Span -> Span)
      (l : list Span) (j : nat) :
  selects sel (updateAt i f l) j
  = if Nat.eqb i j then selects (fun s => sel (f s)) l j else selects sel l j.
Proof.
  unfold selects. rewrite nth_error_updateAt.
  destruct (Nat.eqb i j); [ | reflexivity ].
  now destruct (nth_error l j).
Qed.

Lemma In_querySelectorAll (sel : Span -> bool) (l : list Span) (i : nat) :
  In i (querySelectorAll sel l) <-> selects sel l i = true.
Proof.
  unfold querySelectorAll. rewrite filter_In, in_seq.
  split; [ tauto | ]. intros H. split; [ | exact H ].
  unfold selects in H. destruct (nth_error l i) eqn:E; [ | discriminate ].
  assert (Hlt : (i < List.length l)%nat)
    by (apply nth_error_Some; congruence).
  split; [ apply Nat.le_0_l | exact Hlt ].
Qed.

Lemma NoDup_querySelectorAll (sel : Span -> bool) (l : list Span) :
  NoDup (querySelectorAll sel l).
Proof. apply NoDup_filter, seq_NoDup. Qed.

Lemma querySelectorAll_ext (sel : Span -> bool) (l l' : list Span) :
  List.length l = List.length l' ->
  (forall i, selects sel l i = selects sel l' i) ->
  querySelectorAll sel l = querySelectorAll sel l'.
Proof.
  intros Hlen Hsel. unfold querySelectorAll. rewrite Hlen.
  apply filter_ext. exact Hsel.
Qed.

Lemma querySelectorAll_none (sel : Span -> bool) (l : list Span) :
  (forall i, selects sel l i = false) -> querySelectorAll sel l = [].
Proof.
  intros H. destruct (querySelectorAll sel l) as [| i rest] eqn:E; [ reflexivity | ].
  assert (Hin : In i (querySelectorAll sel l)) by (rewrite E; now left).
  apply In_querySelectorAll in Hin. now rewrite H in Hin.
Qed.

Lemma querySelector_Some (sel : Span -> bool) (l : list Span) (c : nat) :
  querySelector sel l = Some c -> selects sel l c = true.
Proof.
  unfold querySelector. intros H. apply In_querySelectorAll.
  destruct (querySelectorAll sel l); [ discriminate | ].
  injection H as <-. now left.
Qed.

Lemma querySelector_only (sel : Span -> bool) (l : list Span) (t : nat) :
  selects sel l t = true ->
  (forall i, selects sel l i = true -> i = t) ->
  querySelector sel l = Some t.
Proof.
  intros Ht Honly. unfold querySelector.
  destruct (querySelectorAll sel l) as [| i rest] eqn:E.
  - apply In_querySelectorAll in Ht. now rewrite E in Ht.
  - cbn. f_equal. apply Honly, In_querySelectorAll. rewrite E. now left.
Qed.

Lemma current_is_highlight (l : list Span) (i : nat) :
  selects isCurrentHighlight l i = true -> selects isHighlight l i = true.
Proof.
  unfold selects, isCurrentHighlight, isHighlight.
  destruct (nth_error l i); [ | discriminate ].
  intros H. now apply andb_prop in H.
Qed.

Lemma indexOf_In (x : nat) (L : list nat) :
  In x L ->
  0 <= indexOf x L < Z.of_nat (List.length L)
  /\ nth_error L (Z.to_nat (indexOf x L)) = Some x.
Proof.
  induction L as [| y L IH]; [ intros [] | ].
  intros Hin. cbn [indexOf].
  destruct (Nat.eqb_spec x y) as [-> | Hne].
  - split; [ cbn [List.length]; lia | reflexivity ].
  - destruct Hin as [E | Hin]; [ congruence | ].
    destruct (IH Hin) as [Hk Hn].
    destruct (Z.ltb_spec (indexOf x L) 0) as [Hneg | _]; [ lia | ].
    split; [ cbn [List.length]; lia | ].
    replace (Z.to_nat (indexOf x L + 1)) with (S (Z.to_nat (indexOf x L))) by lia.
    exact Hn.
Qed.

Lemma indexOf_nth (L : list nat) (k : nat) (x : nat) :
  NoDup L -> nth_error L k = Some x -> indexOf x L = Z.of_nat k.
Proof.
  revert k. induction L as [| y L IH]; intros [| k] Hn Hk; try discriminate.
  - cbn in Hk. injection Hk as ->. cbn. now rewrite Nat.eqb_refl.
  - cbn in Hk. inversion Hn as [| ? ? Hy Hn']; subst.
    cbn [indexOf]. destruct (Nat.eqb_spec x y) as [-> | _].
    + exfalso. apply Hy. eapply nth_error_In. exact Hk.
    + rewrite (IH k Hn' Hk).
      destruct (Z.ltb_spec (Z.of_nat k) 0); lia.
Qed.

Lemma select_inside (hl : list nat) (idx : Z) (l : list Span) (st : State) :
  0 <= idx < Z.of_nat (List.length hl) ->
  exists t,
    nth_error hl (Z.to_nat idx) = Some t
    /\ select hl idx l st
       = mkState (searchQueryRef st) (searchOptionsRef st)
                 (updateAt t addCurrent l) (scrolledTo st ++ [t]).
Proof.
  intros Hi. unfold select.
  destruct (nth_error hl (Z.to_nat idx)) as [t |] eqn:E.
  - exists t. now split.
  - apply nth_error_None in E. lia.
Qed.

Lemma rem_inside (k n : Z) : 0 <= k -> 0 < n -> 0 <= Z.rem k n < n.
Proof. intros Hk Hn. now apply Z.rem_bound_pos. Qed.

Lemma next_then_previous (k n : Z) :
  0 <= k < n -> Z.rem (Z.rem (k + 1) n - 1 + n) n = k.
Proof.
  intros Hk. rewrite (Z.rem_mod_nonneg (k + 1) n) by lia.
  destruct (Z.eq_dec (k + 1) n) as [E | Hne].
  - rewrite E, Z_mod_same_full. rewrite Z.rem_mod_nonneg by lia.
    rewrite Z.mod_small by lia. lia.
  - rewrite (Z.mod_small (k + 1) n) by lia.
    rewrite Z.rem_mod_nonneg by lia.
    replace (k + 1 - 1 + n) with (k + 1 * n) by lia.
    rewrite Z_mod_plus_full. apply Z.mod_small. lia.
Qed.

Lemma previous_then_next (k n : Z) :
  0 <= k < n -> Z.rem (Z.rem (k - 1 + n) n + 1) n = k.
Proof.
  intros Hk. rewrite (Z.rem_mod_nonneg (k - 1 + n) n) by lia.
  destruct (Z.eq_dec k 0) as [E | Hne].
  - subst k. rewrite (Z.mod_small (0 - 1 + n) n) by lia.
    rewrite Z.rem_mod_nonneg by lia.
    replace (0 - 1 + n + 1) with n by lia. apply Z_mod_same_full.
  - replace (k - 1 + n) with (k - 1 + 1 * n) by lia.
    rewrite Z_mod_plus_full, (Z.mod_small (k - 1) n) by lia.
    rewrite Z.rem_mod_nonneg by lia.
    replace (k - 1 + 1) with k by lia. apply Z.mod_small. lia.
Qed.

Lemma highlights_moveCurrent (c t : nat) (l : list Span) :
  querySelectorAll isHighlight (moveCurrent c t l)
  = querySelectorAll isHighlight l.
Proof.
  unfold moveCurrent. apply querySelectorAll_ext.
  - now rewrite !length_updateAt.
  - intros i. rewrite !selects_updateAt.
    destruct (Nat.eqb t i), (Nat.eqb c i); reflexivity.
Qed.

Lemma highlights_addCurrent (t : nat) (l : list Span) :
  querySelectorAll isHighlight (updateAt t addCurrent l)
  = querySelectorAll isHighlight l.
Proof.
  apply querySelectorAll_ext.
  - now rewrite length_updateAt.
  - intros i. rewrite selects_updateAt. now destruct (Nat.eqb t i).
Qed.

Lemma current_addCurrent (t : nat) (l : list Span) :
  selects isHighlight l t = true ->
  selects isCurrentHighlight (updateAt t addCurrent l) t = true.
Proof.
  intros Ht. rewrite selects_updateAt, Nat.eqb_refl.
  unfold selects in *. destruct (nth_error l t) as [s |]; [ | discriminate ].
  unfold isCurrentHighlight, isHighlight in *. cbn. now rewrite Ht.
Qed.

Lemma current_moveCurrent (c t : nat) (l : list Span) (i : nat) :
  onlyCurrent c l ->
  selects isHighlight l t = true ->
  selects isCurrentHighlight (moveCurrent c t l) i = true <-> i = t.
Proof.
  intros Honly Ht. unfold moveCurrent. split.
  - rewrite !selects_updateAt.
    destruct (Nat.eqb_spec t i) as [E | Hti]; [ now intros _ | ].
    destruct (Nat.eqb_spec c i) as [E | Hci].
    + unfold selects. destruct (nth_error l i); [ | discriminate ].
      unfold isCurrentHighlight. cbn. rewrite andb_false_r. discriminate.
    + intros H. apply Honly in H. congruence.
  - intros ->. apply current_addCurrent.
    rewrite selects_updateAt. destruct (Nat.eqb c t); [ | exact Ht ].
    unfold selects in *. now destruct (nth_error l t).
Qed.

Lemma moveCurrent_back (c t : nat) (l : list Span) :
  onlyCurrent c l ->
  selects isCurrentHighlight l c = true ->
  selects isHighlight l t = true ->
  moveCurrent t c (moveCurrent c t l) = l.
Proof.
  intros Honly Hc Ht. apply nth_error_ext. intros i.
  unfold moveCurrent. rewrite !nth_error_updateAt.
  assert (Hcur : forall s, nth_error l c = Some s -> addCurrent s = s).
  { intros s Es. unfold selects in Hc. rewrite Es in Hc.
    unfold isCurrentHighlight in Hc. apply andb_prop in Hc as [_ Hc].
    destruct s as [x h k]. cbn in Hc. unfold addCurrent. cbn. now rewrite Hc. }
  assert (Hoff : forall s, t <> c -> nth_error l t = Some s -> removeCurrent s = s).
  { intros s Hne Es. destruct s as [x h k]. unfold removeCurrent. cbn.
    destruct k; [ | reflexivity ].
    exfalso. apply Hne, Honly. unfold selects. rewrite Es.
    unfold selects in Ht. rewrite Es in Ht. unfold isHighlight in Ht. cbn in Ht.
    unfold isCurrentHighlight. cbn. now rewrite Ht. }
  destruct (Nat.eqb_spec c i) as [Eci | Hci].
  - subst i. destruct (Nat.eqb_spec t c) as [Etc | Htc].
    + destruct (nth_error l c) as [s |] eqn:Es; [ | reflexivity ].
      cbn. rewrite <- (Hcur s eq_refl) at 2. now destruct s.
    + destruct (nth_error l c) as [s |] eqn:Es; [ | reflexivity ].
      cbn. rewrite <- (Hcur s eq_refl) at 2. now destruct s.
  - destruct (Nat.eqb_spec t i) as [Eti | Hti]; [ | reflexivity ].
    subst i. destruct (nth_error l t) as [s |] eqn:Es; [ | reflexivity ].
    cbn. rewrite <- (Hoff s (not_eq_sym Hci) eq_refl) at 2. now destruct s.
Qed.

(** What [findNext] and [findPrevious] do when an element carries both
    classes. *)
Lemma findNext_moves (st : State) (c : nat) :
  querySelector isCurrentHighlight (spans st) = Some c ->
  exists t,
    nth_error (querySelectorAll isHighlight (spans st))
              (Z.to_nat (Z.rem (indexOf c (querySelectorAll isHighlight (spans st)) + 1)
                               (Z.of_nat (List.length (querySelectorAll isHighlight (spans st))))))
    = Some t
    /\ findNext true st
       = mkState (searchQueryRef st) (searchOptionsRef st)
                 (moveCurrent c t (spans st)) (scrolledTo st ++ [t]).
Proof.
  intros Hq. pose proof (querySelector_Some _ _ _ Hq) as Hc.
  pose proof (proj2 (In_querySelectorAll _ _ _) (current_is_highlight _ _ Hc)) as Hin.
  destruct (indexOf_In _ _ Hin) as [Hk _].
  unfold findNext. cbn [negb]. rewrite Hq.
  destruct (Z.eqb_spec (Z.of_nat (List.length (querySelectorAll isHighlight (spans st)))) 0)
    as [E | _]; [ lia | ].
  unfold JS.rem.
  apply (select_inside _ _ (updateAt c removeCurrent (spans st)) st).
  apply rem_inside; lia.
Qed.

Lemma findPrevious_moves (st : State) (c : nat) :
  querySelector isCurrentHighlight (spans st) = Some c ->
  exists t,
    nth_error (querySelectorAll isHighlight (spans st))
              (Z.to_nat (Z.rem (indexOf c (querySelectorAll isHighlight (spans st)) - 1
                                + Z.of_nat (List.length (querySelectorAll isHighlight (spans st))))
                               (Z.of_nat (List.length (querySelectorAll isHighlight (spans st))))))
    = Some t
    /\ findPrevious true st
       = mkState (searchQueryRef st) (searchOptionsRef st)
                 (moveCurrent c t (spans st)) (scrolledTo st ++ [t]).
Proof.
  intros Hq. pose proof (querySelector_Some _ _ _ Hq) as Hc.
  pose proof (proj2 (In_querySelectorAll _ _ _) (current_is_highlight _ _ Hc)) as Hin.
  destruct (indexOf_In _ _ Hin) as [Hk _].
  unfold findPrevious. cbn [negb]. rewrite Hq.
  destruct (Z.eqb_spec (Z.of_nat (List.length (querySelectorAll isHighlight (spans st)))) 0)
    as [E | _]; [ lia | ].
  unfold JS.rem.
  apply (select_inside _ _ (updateAt c removeCurrent (spans st)) st).
  apply rem_inside; lia.
Qed.

Section WithLocale.

Variable toLowerCase : string -> string.

(** X27: [find] marks exactly the spans whose text includes the query:
    for a non-empty query, with a document and an attached container,
    a span carries the highlight class afterwards exactly when its text
    includes the query (both compared in lower case unless [caseSensitive]
    is set), whatever it carried before; texts and [current] classes are
    left as they were, and a second [find] of the same query changes
    nothing.  Without a document or a container, or for the empty query,
    no span is touched. *)
Theorem find_marks_exactly_the_matches (query : string)
        (findOptions : option FindOptions) (st : State) :
  query <> ""%string ->
  let st' := find toLowerCase true true query findOptions st in
  map highlight (spans st')
  = map (fun s => matches toLowerCase query findOptions (textContent s)) (spans st)
  /\ map textContent (spans st') = map textContent (spans st)
  /\ map current (spans st') = map current (spans st)
  /\ find toLowerCase true true query findOptions st' = st'
  /\ (forall document container,
         document && container = false ->
         spans (find toLowerCase document container query findOptions st) = spans st)
  /\ (forall document container,
         spans (find toLowerCase document container "" findOptions st) = spans st).
Proof.
  intros Hq. cbv zeta.
  assert (Hne : (query =? "")%string = false) by now apply String.eqb_neq.
  assert (Hspans : forall st0,
             spans (find toLowerCase true true query findOptions st0)
             = map (fun s => mkSpan (textContent s)
                                    (matches toLowerCase query findOptions (textContent s))
                                    (current s)) (spans st0)).
  { intros st0. unfold find. cbn [negb orb]. rewrite Hne. cbn [spans set_spans].
    rewrite map_map. apply map_ext. intros [x h k].
    unfold isHighlight, removeHighlight, addHighlight. cbn.
    destruct h; cbn; destruct (matches toLowerCase query findOptions x);
      reflexivity. }
  split; [ rewrite Hspans, map_map; now apply map_ext | ].
  split; [ rewrite Hspans, map_map; now apply map_ext | ].
  split; [ rewrite Hspans, map_map; now apply map_ext | ].
  split.
  - assert (E : forall st0,
               find toLowerCase true true query findOptions st0
               = mkState query
                         (match findOptions with Some o => o | None => noOptions end)
                         (spans (find toLowerCase true true query findOptions st0))
                         (scrolledTo st0)).
    { intros st0. unfold find. cbn [negb orb]. rewrite Hne. reflexivity. }
    rewrite (E (find toLowerCase true true query findOptions st)).
    rewrite (E st) at 3. f_equal.
    + rewrite !Hspans, map_map. apply map_ext. now intros [x h k].
    + now rewrite (E st).
  - split.
    + intros d c Hdc. unfold find.
      destruct d; cbn [negb orb]; [ | reflexivity ].
      destruct (query =? "")%string; [ reflexivity | ].
      destruct c; [ discriminate | reflexivity ].
    + intros d c. unfold find. cbn. now rewrite orb_true_r.
Qed.

End WithLocale.

Lemma find_marks_exactly_the_matches_witness :
  map highlight
      (spans (find lowerCase true true "TOTAL" None (mkState "" noOptions threeSpans [])))
  = [true; false; true]
  /\ map highlight
       (spans (find lowerCase true true "Total"
                    (Some (mkFindOptions (Some true) None None))
                    (mkState "" noOptions threeSpans [])))
     = [true; false; false].
Proof.
  split.
  - rewrite (proj1 (find_marks_exactly_the_matches lowerCase "TOTAL" None
                      (mkState "" noOptions threeSpans []) ltac:(discriminate))).
    reflexivity.
  - rewrite (proj1 (find_marks_exactly_the_matches lowerCase "Total"
                      (Some (mkFindOptions (Some true) None None))
                      (mkState "" noOptions threeSpans []) ltac:(discriminate))).
    reflexivity.
Defined.

(** X28: [clearFind] with an attached container leaves no highlighted
    span and empties the stored query; the texts stay, a span that carried
    no highlight keeps its classes, and [findNext] and [findPrevious] do
    nothing afterwards. *)
Theorem clearFind_removes_every_highlight (st : State) :
  let st' := clearFind true st in
  querySelectorAll isHighlight (spans st') = []
  /\ searchQueryRef st' = ""%string
  /\ map textContent (spans st') = map textContent (spans st)
  /\ (forall i s, nth_error (spans st) i = Some s -> highlight s = false ->
                  nth_error (spans st') i = Some s)
  /\ findNext true st' = st'
  /\ findPrevious true st' = st'.
Proof.
  cbv zeta.
  assert (Hs : spans (clearFind true st)
               = map (fun s => if isHighlight s then removeBoth s else s) (spans st))
    by reflexivity.
  assert (Hnone : querySelectorAll isHighlight (spans (clearFind true st)) = []).
  { apply querySelectorAll_none. intros i. unfold selects. rewrite Hs, nth_error_map.
    destruct (nth_error (spans st) i) as [[x h k] |]; [ | reflexivity ].
    cbn. unfold isHighlight. cbn. now destruct h. }
  split; [ exact Hnone | ].
  split; [ reflexivity | ].
  split; [ rewrite Hs, map_map; apply map_ext; intros [x h k];
           unfold isHighlight; cbn; now destruct h | ].
  split.
  - intros i s Es Hh. rewrite Hs, nth_error_map, Es. cbn.
    unfold isHighlight. now rewrite Hh.
  - unfold findNext, findPrevious. cbn [negb]. rewrite Hnone. cbn. now split.
Qed.

(** X29: [findPrevious] undoes [findNext] and [findNext] undoes
    [findPrevious]: when one highlighted span is the current one and no
    other highlighted span carries [current], stepping forward and then
    back, or back and then forward, leaves every span with the classes it
    had. *)
Theorem findNext_findPrevious_round_trip (st : State) (c : nat) :
  querySelector isCurrentHighlight (spans st) = Some c ->
  onlyCurrent c (spans st) ->
  spans (findPrevious true (findNext true st)) = spans st
  /\ spans (findNext true (findPrevious true st)) = spans st.
Proof.
  intros Hq Honly.
  pose proof (querySelector_Some _ _ _ Hq) as Hc.
  pose proof (proj2 (In_querySelectorAll _ _ _) (current_is_highlight _ _ Hc)) as Hin.
  destruct (indexOf_In _ _ Hin) as [Hk Hnth].
  pose proof (NoDup_querySelectorAll isHighlight (spans st)) as Hnd.
  assert (Back : forall t st1 idx,
             nth_error (querySelectorAll isHighlight (spans st)) (Z.to_nat idx) = Some t ->
             0 <= idx ->
             spans st1 = moveCurrent c t (spans st) ->
             querySelector isCurrentHighlight (spans st1) = Some t
             /\ querySelectorAll isHighlight (spans st1)
                = querySelectorAll isHighlight (spans st)
             /\ indexOf t (querySelectorAll isHighlight (spans st1)) = idx
             /\ selects isHighlight (spans st) t = true).
  { intros t st1 idx Ht Hidx Hs.
    assert (Hth : selects isHighlight (spans st) t = true)
      by (apply In_querySelectorAll; eapply nth_error_In; exact Ht).
    rewrite Hs, highlights_moveCurrent.
    split; [ | split; [ reflexivity | split; [ | exact Hth ] ] ].
    - apply querySelector_only.
      + now apply (current_moveCurrent c t (spans st) t Honly Hth).
      + intros i. now apply (current_moveCurrent c t (spans st) i Honly Hth).
    - rewrite (indexOf_nth _ _ _ Hnd Ht). lia. }
  split.
  - destruct (findNext_moves st c Hq) as (t & Ht & E).
    destruct (Back t (findNext true st) _ Ht) as (Hq1 & Hhl1 & Hidx1 & Hth).
    { apply rem_inside; lia. }
    { now rewrite E. }
    destruct (findPrevious_moves (findNext true st) t Hq1) as (t' & Ht' & E').
    rewrite Hhl1 in Ht'. rewrite Hhl1 in Hidx1. rewrite Hidx1 in Ht'.
    rewrite next_then_previous in Ht' by lia.
    rewrite Hnth in Ht'. injection Ht' as <-.
    rewrite E'. cbn [spans]. rewrite E. cbn [spans].
    now apply moveCurrent_back.
  - destruct (findPrevious_moves st c Hq) as (t & Ht & E).
    destruct (Back t (findPrevious true st) _ Ht) as (Hq1 & Hhl1 & Hidx1 & Hth).
    { apply rem_inside; lia. }
    { now rewrite E. }
    destruct (findNext_moves (findPrevious true st) t Hq1) as (t' & Ht' & E').
    rewrite Hhl1 in Ht'. rewrite Hhl1 in Hidx1. rewrite Hidx1 in Ht'.
    rewrite previous_then_next in Ht' by lia.
    rewrite Hnth in Ht'. injection Ht' as <-.
    rewrite E'. cbn [spans]. rewrite E. cbn [spans].
    now apply moveCurrent_back.
Qed.

Lemma findNext_findPrevious_round_trip_witness :
  let st := findNext true (find lowerCase true true "total" None
                                (mkState "" noOptions threeSpans [])) in
  map current (spans st) = [true; true; false]
  /\ map current (spans (findNext true st)) = [false; true; true]
  /\ spans (findPrevious true (findNext true st)) = spans st.
Proof.
  cbv zeta. split; [ reflexivity | split; [ reflexivity | ] ].
  apply (findNext_findPrevious_round_trip
           (findNext true (find lowerCase true true "total" None
                                (mkState "" noOptions threeSpans []))) 0%nat).
  - reflexivity.
  - intros i. destruct i as [| [| [| i]]]; cbn; intros H;
      try reflexivity; try discriminate.
    unfold selects in H. cbn in H. now destruct i.
Defined.

(** X30: with at least one highlighted span, [findNext] and
    [findPrevious] always land on a highlighted span: the index they
    compute lies inside the list of highlights, the chosen span is given
    the class [current] and is the one scrolled to; with no current
    highlight, [findNext] chooses the first highlight and [findPrevious]
    the last. *)
Theorem find_cursor_lands_on_a_highlight (st : State) :
  querySelectorAll isHighlight (spans st) <> [] ->
  (exists t,
      In t (querySelectorAll isHighlight (spans st))
      /\ scrolledTo (findNext true st) = scrolledTo st ++ [t]
      /\ selects isCurrentHighlight (spans (findNext true st)) t = true
      /\ (querySelector isCurrentHighlight (spans st) = None ->
          hd_error (querySelectorAll isHighlight (spans st)) = Some t))
  /\ (exists t,
         In t (querySelectorAll isHighlight (spans st))
         /\ scrolledTo (findPrevious true st) = scrolledTo st ++ [t]
         /\ selects isCurrentHighlight (spans (findPrevious true st)) t = true
         /\ (querySelector isCurrentHighlight (spans st) = None ->
             last (querySelectorAll isHighlight (spans st)) t = t
             /\ nth_error (querySelectorAll isHighlight (spans st))
                          (List.length (querySelectorAll isHighlight (spans st)) - 1)
                = Some t)).
Proof.
  intros Hne.
  assert (Hlen : 0 < Z.of_nat (List.length (querySelectorAll isHighlight (spans st))))
    by (destruct (querySelectorAll isHighlight (spans st)); [ congruence | cbn; lia ]).
  assert (Land : forall c t,
             In t (querySelectorAll isHighlight (spans st)) ->
             selects isCurrentHighlight (moveCurrent c t (spans st)) t = true).
  { intros c t Hin. unfold moveCurrent. apply current_addCurrent.
    apply In_querySelectorAll in Hin.
    rewrite selects_updateAt. destruct (Nat.eqb c t); [ | exact Hin ].
    unfold selects in *. now destruct (nth_error (spans st) t). }
  split.
  - destruct (querySelector isCurrentHighlight (spans st)) as [c |] eqn:Hq.
    + destruct (findNext_moves st c Hq) as (t & Ht & E).
      exists t. pose proof (nth_error_In _ _ Ht) as Hin.
      rewrite E. cbn [spans scrolledTo].
      split; [ exact Hin | split; [ reflexivity | split; [ now apply Land | discriminate ] ] ].
    + unfold findNext. cbn [negb]. rewrite Hq.
      destruct (Z.eqb_spec (Z.of_nat (List.length (querySelectorAll isHighlight (spans st)))) 0)
        as [E | _]; [ lia | ].
      destruct (select_inside (querySelectorAll isHighlight (spans st)) 0 (spans st) st)
        as (t & Ht & E); [ lia | ].
      exists t. pose proof (nth_error_In _ _ Ht) as Hin.
      rewrite E. cbn [spans scrolledTo].
      split; [ exact Hin | split; [ reflexivity | split ] ].
      * apply current_addCurrent. now apply In_querySelectorAll.
      * intros _. cbn in Ht.
        destruct (querySelectorAll isHighlight (spans st)); [ discriminate | exact Ht ].
  - destruct (querySelector isCurrentHighlight (spans st)) as [c |] eqn:Hq.
    + destruct (findPrevious_moves st c Hq) as (t & Ht & E).
      exists t. pose proof (nth_error_In _ _ Ht) as Hin.
      rewrite E. cbn [spans scrolledTo].
      split; [ exact Hin | split; [ reflexivity | split; [ now apply Land | discriminate ] ] ].
    + unfold findPrevious. cbn [negb]. rewrite Hq.
      destruct (Z.eqb_spec (Z.of_nat (List.length (querySelectorAll isHighlight (spans st)))) 0)
        as [E | _]; [ lia | ].
      destruct (select_inside (querySelectorAll isHighlight (spans st))
                              (Z.of_nat (List.length (querySelectorAll isHighlight (spans st))) - 1)
                              (spans st) st)
        as (t & Ht & E); [ lia | ].
      exists t. pose proof (nth_error_In _ _ Ht) as Hin.
      rewrite E. cbn [spans scrolledTo].
      split; [ exact Hin | split; [ reflexivity | split ] ].
      * apply current_addCurrent. now apply In_querySelectorAll.
      * intros _.
        replace (Z.to_nat (Z.of_nat (List.length (querySelectorAll isHighlight (spans st))) - 1))
          with (List.length (querySelectorAll isHighlight (spans st)) - 1)%nat in Ht by lia.
        split; [ | exact Ht ].
        revert Ht. generalize (querySelectorAll isHighlight (spans st)) as L.
        intros L. destruct L as [| a L] using rev_ind; [ destruct t; discriminate | ].
        intros Ht. rewrite last_last.
        rewrite length_app in Ht. cbn in Ht.
        replace (List.length L + 1 - 1)%nat with (List.length L) in Ht by lia.
        rewrite nth_error_app2 in Ht by lia.
        rewrite Nat.sub_diag in Ht. cbn in Ht. congruence.
Qed.

Lemma find_cursor_lands_on_a_highlight_witness :
  let st := find lowerCase true true "total" None
                 (mkState "" noOptions threeSpans []) in
  scrolledTo (findNext true st) = [0%nat]
  /\ scrolledTo (findPrevious true st) = [2%nat]
  /\ exists t, In t (querySelectorAll isHighlight (spans st))
               /\ scrolledTo (findNext true st) = scrolledTo st ++ [t].
Proof.
  cbv zeta. split; [ reflexivity | split; [ reflexivity | ] ].
  destruct (find_cursor_lands_on_a_highlight
              (find lowerCase true true "total" None
                    (mkState "" noOptions threeSpans [])))
    as [(t & Hin & Hs & _) _].
  - discriminate.
  - exists t. now split.
Defined.

End FindProofs.

(** ** The public context provider *)

Module ProviderProofs.

Import Number PDFViewerContext.

Lemma called_fields (b : bool) (e : Callback) (c : Context) :
  currentPage (called b e c) = currentPage c
  /\ totalPages (called b e c) = totalPages c
  /\ currentScale (called b e c) = currentScale c.
Proof. unfold called. now destruct b. Qed.

Lemma call_totalPages (p : ProviderProps) (k : Call) (c : Context) :
  totalPages (call p k c) = totalPages c.
Proof.
  destruct k; cbn [call].
  - unfold setCurrentPage. now rewrite (proj1 (proj2 (called_fields _ _ _))).
  - unfold setCurrentScale. destruct (negb (zoomEnabled p)); [ reflexivity | ].
    now rewrite (proj1 (proj2 (called_fields _ _ _))).
  - reflexivity.
Qed.

Lemma callAll_totalPages (p : ProviderProps) (ks : list Call) (c : Context) :
  totalPages (callAll p ks c) = totalPages c.
Proof.
  unfold callAll. revert c.
  induction ks as [| k ks IH]; intros c; [ reflexivity | ].
  cbn [fold_left]. rewrite IH. apply call_totalPages.
Qed.

(** max(1, min(x, 1)) is 1 for every finite [x]. *)
Lemma clamp_to_one (x : Q) : JS.Math_max 1 (JS.Math_min x 1) = 1%Q.
Proof.
  unfold JS.Math_max, JS.Math_min, Qmax, Qmin,
    GenericMinMax.gmax, GenericMinMax.gmin.
  destruct (x ?= 1)%Q eqn:E.
  - rewrite <- Qcompare_antisym, E. reflexivity.
  - rewrite <- Qcompare_antisym, E. reflexivity.
  - reflexivity.
Qed.

(** ... and for the infinities. *)
Lemma page_clamp (page : number) :
  page <> NaN -> Math_max (Num 1) (Math_min page (Num 1)) = Num 1.
Proof.
  intros Hp. destruct page as [| | x |]; cbn [Math_min Math_max].
  - congruence.
  - reflexivity.
  - now rewrite clamp_to_one.
  - reflexivity.
Qed.

Lemma scale_clamp_within (scale : number) :
  scale <> NaN ->
  within 0.1 10 (Math_max (Num 0.1) (Math_min scale (Num 10))).
Proof.
  intros Hs. destruct scale as [| | x |]; cbn [Math_min Math_max within].
  - congruence.
  - split; lra.
  - unfold JS.Math_max, JS.Math_min. split.
    + apply Q.le_max_l.
    + apply Q.max_lub; [ lra | apply Q.le_min_r ].
  - unfold JS.Math_max. split.
    + apply Q.le_max_l.
    + apply Q.max_lub; lra.
Qed.

Lemma call_scale (p : ProviderProps) (k : Call) (c : Context) :
  scaleIsNumber k ->
  within 0.1 10 (currentScale c) ->
  within 0.1 10 (currentScale (call p k c)).
Proof.
  intros Hk Hb. destruct k as [page | scale | rotation]; cbn [call].
  - unfold setCurrentPage. now rewrite (proj2 (proj2 (called_fields _ _ _))).
  - unfold setCurrentScale. destruct (negb (zoomEnabled p)); [ exact Hb | ].
    rewrite (proj2 (proj2 (called_fields _ _ _))). cbn [currentScale].
    apply scale_clamp_within. intros ->. exact Hk.
  - exact Hb.
Qed.

Lemma call_scale_disabled (p : ProviderProps) (k : Call) (c : Context) :
  zoomEnabled p = false ->
  currentScale (call p k c) = currentScale c.
Proof.
  intros Hz. destruct k; cbn [call].
  - unfold setCurrentPage. now rewrite (proj2 (proj2 (called_fields _ _ _))).
  - unfold setCurrentScale. now rewrite Hz.
  - reflexivity.
Qed.

(** X23: the public provider never receives a page count: [totalPages]
    stays 0 whatever the consumers call, so [setCurrentPage(page)] clamps
    to [1, totalPages || 1] = [1, 1]: after any calls, for every page other
    than [NaN] it stores page 1 and reports page 1 to [onPageChange]; for
    [NaN] it stores and reports [NaN]. *)
Theorem provider_page_stays_at_one (p : ProviderProps) (ks : list Call)
        (page : number) :
  page <> NaN ->
  let c := callAll p ks (initialContext p) in
  totalPages c = Num 0
  /\ currentPage (setCurrentPage p page c) = Num 1
  /\ calls (setCurrentPage p page c)
     = calls c ++ (if onPageChange p then [OnPageChange (Num 1)] else [])
  /\ currentPage (setCurrentPage p NaN c) = NaN
  /\ calls (setCurrentPage p NaN c)
     = calls c ++ (if onPageChange p then [OnPageChange NaN] else []).
Proof.
  intros Hp. cbv zeta.
  assert (Ht : totalPages (callAll p ks (initialContext p)) = Num 0)
    by now rewrite callAll_totalPages.
  split; [ exact Ht | ].
  unfold setCurrentPage. rewrite Ht.
  change (orElse (Num 0) (Num 1)) with (Num 1).
  rewrite (page_clamp page Hp).
  change (Math_max (Num 1) (Math_min NaN (Num 1))) with NaN.
  unfold called.
  destruct (onPageChange p); cbn; repeat split; try reflexivity;
    now rewrite app_nil_r.
Qed.

Lemma provider_page_stays_at_one_witness :
  currentPage
    (setCurrentPage (defaults false) (Num 7)
       (callAll (defaults false) [SetCurrentPage (Num 3)]
                (initialContext (defaults false)))) = Num 1
  /\ currentPage
       (setCurrentPage (defaults false) PosInf
          (initialContext (defaults false))) = Num 1.
Proof.
  split.
  - apply (provider_page_stays_at_one (defaults false) [SetCurrentPage (Num 3)]
             (Num 7)). discriminate.
  - apply (provider_page_stays_at_one (defaults false) [] PosInf). discriminate.
Defined.

(** X24: the scale of the public provider stays within [0.1, 10] as long
    as no call is [setCurrentScale(NaN)]: when the initial scale is within
    the bounds, it is within the bounds after any such calls.  With zoom
    disabled the scale is the initial scale after any calls at all; with
    zoom enabled [setCurrentScale(NaN)] stores [NaN]. *)
Theorem provider_scale_in_bounds (p : ProviderProps) (ks : list Call) :
  within 0.1 10 (initialScale p) ->
  Forall scaleIsNumber ks ->
  within 0.1 10 (currentScale (callAll p ks (initialContext p)))
  /\ (zoomEnabled p = false ->
      forall ks', currentScale (callAll p ks' (initialContext p)) = initialScale p)
  /\ (zoomEnabled p = true ->
      currentScale (setCurrentScale p NaN (callAll p ks (initialContext p))) = NaN).
Proof.
  intros Hb Hks. split; [ | split ].
  - assert (G : forall c,
               within 0.1 10 (currentScale c) ->
               within 0.1 10 (currentScale (callAll p ks c))).
    { unfold callAll. induction Hks as [| k ks Hk _ IH]; intros c Hc.
      - exact Hc.
      - cbn [fold_left]. apply IH. now apply call_scale. }
    apply (G (initialContext p)). exact Hb.
  - intros Hz ks'.
    assert (G : forall c, currentScale (callAll p ks' c) = currentScale c).
    { unfold callAll. induction ks' as [| k ks' IH]; intros c; [ reflexivity | ].
      cbn [fold_left]. rewrite IH. now apply call_scale_disabled. }
    apply (G (initialContext p)).
  - intros Hz. unfold setCurrentScale. rewrite Hz. cbn [negb].
    now rewrite (proj2 (proj2 (called_fields _ _ _))).
Qed.

Lemma provider_scale_in_bounds_witness :
  within 0.1 10
    (currentScale
       (callAll (defaults true)
                [SetCurrentScale (Num 25); SetCurrentPage NaN;
                 SetCurrentScale NegInf]
                (initialContext (defaults true)))).
Proof.
  apply (provider_scale_in_bounds (defaults true)
           [SetCurrentScale (Num 25); SetCurrentPage NaN;
            SetCurrentScale NegInf]).
  - cbn. split; lra.
  - repeat constructor.
Defined.

End ProviderProofs.

(** ** The scale commands over numbers *)

Module ScaleCommandProofs.

Import Number ScaleCommands.

Lemma handleScaleChange_number (p : PDFViewer.Props) (s : number)
      (st : ScaleState.State) :
  ScaleState.currentScale (handleScaleChange p s st)
  = if PDFViewer.enableZoom p then s else ScaleState.currentScale st.
Proof.
  unfold handleScaleChange. now destruct (PDFViewer.enableZoom p).
Qed.

Lemma div_number (x y : Q) : ~ (y == 0)%Q -> div x y = Num (x / y).
Proof.
  intros Hy. unfold div.
  destruct (Qeq_bool y 0) eqn:E; [ apply Qeq_bool_eq in E; contradiction | ].
  reflexivity.
Qed.

(** Over a page that has a size, a name resolves to the finite number of
    the rational embedding. *)
Lemma namedScale_number (n : ScaleName) (cw ch : Q) (viewport : Viewport) :
  ~ (width viewport == 0)%Q -> ~ (height viewport == 0)%Q ->
  namedScale n cw ch viewport = Num (UsePDFViewer.namedScale n cw ch viewport).
Proof.
  intros Hw Hh. destruct n; cbn [namedScale UsePDFViewer.namedScale];
    rewrite ?(div_number cw _ Hw), ?(div_number ch _ Hh); reflexivity.
Qed.

Lemma clamp_number_inScaleBounds (x : number) :
  x <> NaN ->
  inScaleBounds (Math_max (Num UsePDFViewer.MIN_SCALE)
                          (Math_min x (Num UsePDFViewer.MAX_SCALE))).
Proof.
  intros Hx. unfold inScaleBounds.
  destruct x as [| | x |]; cbn [Math_min Math_max within].
  - congruence.
  - unfold UsePDFViewer.MIN_SCALE, UsePDFViewer.MAX_SCALE. split; lra.
  - apply (ViewerProofs.clamp_inScaleBounds x).
  - unfold JS.Math_max, UsePDFViewer.MIN_SCALE, UsePDFViewer.MAX_SCALE. split.
    + apply Q.le_max_l.
    + apply Q.max_lub; lra.
Qed.

(** On finite numbers and pages that have a size, the commands are those
    of the rational embedding. *)
Lemma agrees_with_rationals (p : PDFViewer.Props) (e : PDFViewer.Env) (st : State) :
  pageHasSize e ->
  ScaleState.currentScale
    (call (viewerOptions p e (ofState st)) ZoomIn (ofState st))
  = Num (ViewerState.currentScale (PDFViewer.zoomIn p e st))
  /\ ScaleState.currentScale
       (call (viewerOptions p e (ofState st)) ZoomOut (ofState st))
     = Num (ViewerState.currentScale (PDFViewer.zoomOut p e st))
  /\ forall v,
       ScaleState.currentScale
         (call (viewerOptions p e (ofState st)) (SetScale (ofScaleValue v))
               (ofState st))
       = Num (ViewerState.currentScale (PDFViewer.setScale p e v st)).
Proof.
  intros Hsize. split; [ | split ].
  - unfold PDFViewer.zoomIn, PDFViewer.run, UsePDFViewer.zoomIn. cbn.
    unfold zoomIn. cbn.
    destruct (PDFViewer.enableZoom p) eqn:Hz; cbn; [ | reflexivity ].
    rewrite handleScaleChange_number, ScaleProofs.handleScaleChange_scale, Hz.
    reflexivity.
  - unfold PDFViewer.zoomOut, PDFViewer.run, UsePDFViewer.zoomOut. cbn.
    unfold zoomOut. cbn.
    destruct (PDFViewer.enableZoom p) eqn:Hz; cbn; [ | reflexivity ].
    rewrite handleScaleChange_number, ScaleProofs.handleScaleChange_scale, Hz.
    reflexivity.
  - intros v.
    unfold PDFViewer.setScale, PDFViewer.run, UsePDFViewer.setScale. cbn.
    unfold setScale. cbn.
    destruct (PDFViewer.enableZoom p) eqn:Hz; cbn; [ | reflexivity ].
    destruct v as [x | n]; cbn.
    + rewrite handleScaleChange_number, ScaleProofs.handleScaleChange_scale, Hz.
      reflexivity.
    + destruct (PDFViewer.container e) as [c |]; [ | reflexivity ].
      destruct (PDFViewer.document e) as [d |] eqn:Ed; [ | reflexivity ].
      destruct (Hsize d (ViewerState.currentRotation st) Ed) as [Hw Hh].
      rewrite handleScaleChange_number, ScaleProofs.handleScaleChange_scale, Hz.
      rewrite (namedScale_number n _ _ _ Hw Hh). reflexivity.
Qed.

(** A call on the handle of a render whose scale is within the bounds
    leaves a scale within the bounds. *)
Lemma call_keeps_scale_in_bounds (p : PDFViewer.Props) (e : PDFViewer.Env)
      (c : Command) (r st : ScaleState.State) :
  pageHasSize e ->
  argumentIsNumber (Call c) ->
  inScaleBounds (ScaleState.currentScale r) ->
  inScaleBounds (ScaleState.currentScale st) ->
  inScaleBounds (ScaleState.currentScale (call (viewerOptions p e r) c st)).
Proof.
  intros Hsize Hc Hr Hst.
  destruct (ScaleState.currentScale r) as [| | s |] eqn:Es; try destruct Hr.
  unfold UsePDFViewer.MIN_SCALE, UsePDFViewer.MAX_SCALE in *.
  destruct c as [| | [x | n]]; cbn [call].
  - unfold zoomIn. cbn.
    destruct (PDFViewer.enableZoom p) eqn:Hz; cbn; [ | exact Hst ].
    rewrite handleScaleChange_number, Hz, Es. cbn.
    unfold JS.Math_min, UsePDFViewer.ZOOM_STEP, UsePDFViewer.MIN_SCALE,
      UsePDFViewer.MAX_SCALE.
    split; [ apply Q.min_glb; lra | apply Q.le_min_r ].
  - unfold zoomOut. cbn.
    destruct (PDFViewer.enableZoom p) eqn:Hz; cbn; [ | exact Hst ].
    rewrite handleScaleChange_number, Hz, Es. cbn.
    unfold JS.Math_max, UsePDFViewer.ZOOM_STEP, UsePDFViewer.MIN_SCALE,
      UsePDFViewer.MAX_SCALE.
    split; [ apply Q.le_max_r | apply Q.max_lub; lra ].
  - unfold setScale. cbn.
    destruct (PDFViewer.enableZoom p) eqn:Hz; cbn; [ | exact Hst ].
    rewrite handleScaleChange_number, Hz.
    apply clamp_number_inScaleBounds. intros ->. exact Hc.
  - unfold setScale. cbn.
    destruct (PDFViewer.enableZoom p) eqn:Hz; cbn; [ | exact Hst ].
    destruct (PDFViewer.container e) as [c |]; [ | exact Hst ].
    destruct (PDFViewer.document e) as [d |] eqn:Ed; [ | exact Hst ].
    destruct (Hsize d (ScaleState.currentRotation r) Ed) as [Hw Hh].
    rewrite handleScaleChange_number, Hz.
    rewrite (namedScale_number n _ _ _ Hw Hh).
    apply clamp_number_inScaleBounds. discriminate.
Qed.

(** X4: the scale commands keep the scale within [0.1, 10] as long as no
    argument is [NaN] and page 1 has a width and a height other than zero.
    From a viewer whose rendered and latest scale are within the bounds,
    any sequence of re-renders and of calls of [zoomIn], [zoomOut] and
    [setScale] (of a number other than [NaN], or of a name), each call made
    on the handle of the last render before it, leaves the latest scale
    within the bounds, zoom enabled or not.  With zoom enabled
    [setScale(NaN)] sets the scale to [NaN], on the handle of a render
    whose scale is [NaN] [zoomIn] and [zoomOut] set [NaN] again, and
    [setScale('page-width')] in a container 40 wide over a page without
    width sets [NaN]. *)
Theorem commands_keep_scale_in_bounds (p : PDFViewer.Props) (e : PDFViewer.Env)
        (steps : list Step) (v : Viewer) :
  pageHasSize e ->
  inScaleBounds (ScaleState.currentScale (rendered v)) ->
  inScaleBounds (ScaleState.currentScale (latest v)) ->
  Forall argumentIsNumber steps ->
  inScaleBounds (ScaleState.currentScale (latest (stepAll p e steps v)))
  /\ (PDFViewer.enableZoom p = true ->
      forall r st,
        ScaleState.currentScale
          (call (viewerOptions p e r) (SetScale (ScaleNumber NaN)) st) = NaN
        /\ (ScaleState.currentScale r = NaN ->
            ScaleState.currentScale (call (viewerOptions p e r) ZoomIn st) = NaN
            /\ ScaleState.currentScale (call (viewerOptions p e r) ZoomOut st)
               = NaN)
        /\ ScaleState.currentScale
             (call (viewerOptions p noWidth r) (SetScale (ScaleNamed page_width)) st)
           = NaN).
Proof.
  intros Hsize Hr Hl Hsteps. split.
  - assert (G : inScaleBounds
                  (ScaleState.currentScale (rendered (stepAll p e steps v)))
                /\ inScaleBounds
                     (ScaleState.currentScale (latest (stepAll p e steps v)))).
    { unfold stepAll. revert v Hr Hl.
      induction Hsteps as [| s steps Hs _ IH]; intros v Hr Hl;
        [ now split | ].
      cbn [fold_left]. apply IH; destruct s as [| c]; cbn [step rendered latest];
        auto.
      now apply call_keeps_scale_in_bounds. }
    apply G.
  - intros Hz r st. split; [ | split ].
    + cbn [call]. unfold setScale. cbn. rewrite Hz. cbn.
      now rewrite handleScaleChange_number, Hz.
    + intros En. split; cbn [call].
      * unfold zoomIn. cbn. rewrite Hz. cbn.
        now rewrite handleScaleChange_number, Hz, En.
      * unfold zoomOut. cbn. rewrite Hz. cbn.
        now rewrite handleScaleChange_number, Hz, En.
    + cbn [call]. unfold setScale. cbn. rewrite Hz. cbn.
      now rewrite handleScaleChange_number, Hz.
Qed.

Lemma commands_keep_scale_in_bounds_witness :
  inScaleBounds
    (ScaleState.currentScale
       (latest
          (stepAll (PDFViewer.props (Types.ScaleNumber 1) true)
                   (PDFViewer.mounted 800 600)
                   [Call (SetScale (ScaleNumber (Num 25))); Call ZoomIn; Rerender;
                    Call (SetScale (ScaleNamed page_fit)); Call ZoomOut;
                    Call ZoomOut; Rerender; Call (SetScale (ScaleNumber PosInf));
                    Call ZoomOut]
                   (mountedAt 1)))).
Proof.
  apply (commands_keep_scale_in_bounds
           (PDFViewer.props (Types.ScaleNumber 1) true) (PDFViewer.mounted 800 600)
           [Call (SetScale (ScaleNumber (Num 25))); Call ZoomIn; Rerender;
            Call (SetScale (ScaleNamed page_fit)); Call ZoomOut;
            Call ZoomOut; Rerender; Call (SetScale (ScaleNumber PosInf));
            Call ZoomOut]
           (mountedAt 1)).
  - intros d rotation Hd. injection Hd as <-. cbn.
    split; intros H; discriminate H.
  - unfold inScaleBounds, UsePDFViewer.MIN_SCALE, UsePDFViewer.MAX_SCALE.
    cbn. split; lra.
  - unfold inScaleBounds, UsePDFViewer.MIN_SCALE, UsePDFViewer.MAX_SCALE.
    cbn. split; lra.
  - repeat constructor.
Defined.

End ScaleCommandProofs.

(** ** Page tracking in binary64 *)

Module Binary64Proofs.

Import UsePageTrackingBinary64.

(** C5: a page that contains the center of the visible band can lose to a
    later page.  In a container 1000 high, not scrolled, with three pages
    245.4 high at 0, 255.4 and 510.8, the second page spans 255.4 to 500.8
    and contains the center, 500, so the loop gives it the ratio 1; the
    third page lies wholly inside the band, and its ratio comes out of the
    rounded sum and difference as 1.0000000000000002, which is greater
    than 1: the third page wins, and [onPageChange] is called with 3.  In
    exact arithmetic the ratio of the third page is 1, the second page
    wins and [onPageChange] is called with 2. *)
Theorem rounded_ratio_beats_center_page :
  containerCenter smallPages = 500%float
  /\ elementTop smallPages secondPage = tenths 2554
  /\ elementBottom smallPages secondPage = tenths 5008
  /\ containsCenter smallPages secondPage = true
  /\ containsCenter smallPages thirdPage = false
  /\ visibility smallPages secondPage = 1%float
  /\ visibility smallPages thirdPage = 0x1.0000000000001p+0%float
  /\ PrimFloat.ltb 1 (visibility smallPages thirdPage) = true
  /\ winner smallPages = (3, 0x1.0000000000001p+0%float)
  /\ UsePageTracking.notified
       (calculateVisiblePage (Some smallPages) 3 0.5 UsePageTracking.initialTracker)
     = [3]
  /\ UsePageTracking.winner smallPagesExact = (2, 1%Q)
  /\ UsePageTracking.notified
       (UsePageTracking.calculateVisiblePage
          (Some smallPagesExact) 3 0.5 UsePageTracking.initialTracker)
     = [2].
Proof.
  repeat split; vm_compute; reflexivity.
Qed.

End Binary64Proofs.
